(** * KnowlyA: the upload pipeline, the materials store and the sort view

    A shallow embedding of the application logic of the Knowly front end
    (the [App] component with its handlers, and the chat-completion hook),
    together with the properties of the written specification that can be
    stated over it.

    JavaScript strings are sequences of UTF-16 code units, numbers that
    only count or stamp time are integers, and the asynchronous handlers
    are terms of a small free monad whose nodes are the synchronous state
    updates and the suspension points ([await]) of the source. *)

From Stdlib Require Import ZArith NArith Lia Ascii String.
From stdpp Require Import base option list sorting strings gmap.

Set Warnings "-register-all".
Local Open Scope N_scope.

(** ** Strings *)

(** A string literal of the source, as code units. *)
Definition lit (s : string) : list N :=
  map N_of_ascii (String.list_ascii_of_string s).

Definition dquote : list N := [34].
Definition newline : list N := [10].

(** A quoted word inside a template literal: [\"w\"]. *)
Definition quoted (w : string) : list N := dquote ++ lit w ++ dquote.

(** [WhiteSpace] and [LineTerminator] of ECMAScript: what
    [String.prototype.trim] strips. *)
Definition is_js_space (c : N) : bool :=
  (c =? 9) || (c =? 10) || (c =? 11) || (c =? 12) || (c =? 13) || (c =? 32)
  || (c =? 160) || (c =? 5760) || ((8192 <=? c) && (c <=? 8202))
  || (c =? 8232) || (c =? 8233) || (c =? 8239) || (c =? 8287)
  || (c =? 12288) || (c =? 65279).

Fixpoint trimStart (s : list N) : list N :=
  match s with
  | c :: s' => if is_js_space c then trimStart s' else s
  | [] => []
  end.

Definition trimEnd (s : list N) : list N := rev (trimStart (rev s)).

Definition trim (s : list N) : list N := trimEnd (trimStart s).

(** [s.slice(0, n)] for a literal [n >= 0]. *)
Definition slice0 (n : nat) (s : list N) : list N := take n s.

Fixpoint startsWith (p s : list N) : bool :=
  match p, s with
  | [], _ => true
  | a :: p', b :: s' => (a =? b) && startsWith p' s'
  | _ :: _, [] => false
  end.

Definition endsWith (p s : list N) : bool := startsWith (rev p) (rev s).

Fixpoint includes (p s : list N) : bool :=
  startsWith p s ||
  match s with
  | [] => false
  | _ :: s' => includes p s'
  end.

(** [String.prototype.toLowerCase]. The only code units whose lower-case
    mapping reaches the ASCII range are [A]-[Z], U+0130 and U+212A; every
    other code unit maps outside ASCII and is kept as it is, which the
    ASCII patterns tested by the upload handler cannot observe. *)
Definition lower_unit (c : N) : list N :=
  if (65 <=? c) && (c <=? 90) then [c + 32]
  else if c =? 304 then [105; 775]
  else if c =? 8490 then [107]
  else [c].

Definition toLowerCase (s : list N) : list N := concat (map lower_unit s).

(** [s.split(".").pop()]: the segment after the last dot, the whole string
    when there is none. *)
Fixpoint last_segment_from (acc s : list N) : list N :=
  match s with
  | [] => rev acc
  | c :: s' => if c =? 46 then last_segment_from [] s'
               else last_segment_from (c :: acc) s'
  end.

Definition split_dot_pop (s : list N) : list N := last_segment_from [] s.

(** Truthiness of a string. *)
Definition nonempty (s : list N) : bool :=
  match s with [] => false | _ => true end.

(** [a || b] on strings. *)
Definition str_or (a b : list N) : list N := if nonempty a then a else b.

(** ** Thrown values and settled promises *)

(** What a [catch] clause can observe of a thrown value: whether it is an
    [Error] instance, and then its message. *)
Inductive Thrown :=
| ErrorObject (message : list N)
| NotAnError.

Inductive Outcome (A : Type) :=
| Resolved (a : A)
| Rejected (e : Thrown).
Arguments Resolved {A} a.
Arguments Rejected {A} e.

(** ** JSON values and [JSON.parse] *)

(** A JSON number before rounding to a double: sign, decimal mantissa and
    decimal exponent. *)
Record JNum := { num_neg : bool; num_mantissa : N; num_exp10 : Z }.

Inductive JSON :=
| JNull
| JBool (b : bool)
| JNumber (x : JNum)
| JString (s : list N)
| JArray (items : list JSON)
| JObject (members : list (list N * JSON)).

Inductive Token :=
| TLBrace | TRBrace | TLBracket | TRBracket | TColon | TComma
| TScalar (v : JSON).

Inductive NumPhase :=
| NMinus | NZero | NInt | NDot | NFrac | NE | NESign | NExp.

Inductive LexState :=
| LIdle
| LWord (rest : list N) (v : JSON)
| LStr (acc : list N)
| LEsc (acc : list N)
| LHex (acc : list N) (remaining : nat) (v : N)
| LNum (ph : NumPhase) (neg : bool) (mant : N) (frac : Z)
       (eneg : bool) (e : N).

Definition is_json_ws (c : N) : bool :=
  (c =? 9) || (c =? 10) || (c =? 13) || (c =? 32).

Definition digit_of (c : N) : option N :=
  if (48 <=? c) && (c <=? 57) then Some (c - 48) else None.

Definition hex_of (c : N) : option N :=
  if (48 <=? c) && (c <=? 57) then Some (c - 48)
  else if (65 <=? c) && (c <=? 70) then Some (c - 55)
  else if (97 <=? c) && (c <=? 102) then Some (c - 87)
  else None.

Definition lex_idle (c : N) : option (list Token * LexState) :=
  if is_json_ws c then Some ([], LIdle)
  else if c =? 123 then Some ([TLBrace], LIdle)
  else if c =? 125 then Some ([TRBrace], LIdle)
  else if c =? 91 then Some ([TLBracket], LIdle)
  else if c =? 93 then Some ([TRBracket], LIdle)
  else if c =? 58 then Some ([TColon], LIdle)
  else if c =? 44 then Some ([TComma], LIdle)
  else if c =? 34 then Some ([], LStr [])
  else if c =? 45 then Some ([], LNum NMinus true 0 0 false 0)
  else if c =? 48 then Some ([], LNum NZero false 0 0 false 0)
  else if c =? 116 then Some ([], LWord (lit "rue") (JBool true))
  else if c =? 102 then Some ([], LWord (lit "alse") (JBool false))
  else if c =? 110 then Some ([], LWord (lit "ull") JNull)
  else match digit_of c with
       | Some d => Some ([], LNum NInt false d 0 false 0)
       | None => None
       end.

Definition num_value (neg : bool) (mant : N) (frac : Z) (eneg : bool) (e : N)
  : JSON :=
  JNumber {| num_neg := neg; num_mantissa := mant;
             num_exp10 := ((if eneg then - Z.of_N e else Z.of_N e) - frac)%Z |}.

(** A number ends at the first code unit that cannot extend it; that code
    unit is then read again from the idle state. *)
Definition lex_num_end (neg : bool) (mant : N) (frac : Z) (eneg : bool)
    (e : N) (c : N) : option (list Token * LexState) :=
  match lex_idle c with
  | Some (ts, st) => Some (TScalar (num_value neg mant frac eneg e) :: ts, st)
  | None => None
  end.

Definition lex_num (ph : NumPhase) (neg : bool) (mant : N) (frac : Z)
    (eneg : bool) (e : N) (c : N) : option (list Token * LexState) :=
  let is_e := (c =? 101) || (c =? 69) in
  match ph with
  | NMinus =>
      match digit_of c with
      | Some 0%N => Some ([], LNum NZero neg 0 0 false 0)
      | Some d => Some ([], LNum NInt neg d 0 false 0)
      | None => None
      end
  | NZero =>
      if c =? 46 then Some ([], LNum NDot neg mant frac eneg e)
      else if is_e then Some ([], LNum NE neg mant frac eneg e)
      else lex_num_end neg mant frac eneg e c
  | NInt =>
      match digit_of c with
      | Some d => Some ([], LNum NInt neg (10 * mant + d) frac eneg e)
      | None =>
          if c =? 46 then Some ([], LNum NDot neg mant frac eneg e)
          else if is_e then Some ([], LNum NE neg mant frac eneg e)
          else lex_num_end neg mant frac eneg e c
      end
  | NDot =>
      match digit_of c with
      | Some d => Some ([], LNum NFrac neg (10 * mant + d) (frac + 1) eneg e)
      | None => None
      end
  | NFrac =>
      match digit_of c with
      | Some d => Some ([], LNum NFrac neg (10 * mant + d) (frac + 1) eneg e)
      | None =>
          if is_e then Some ([], LNum NE neg mant frac eneg e)
          else lex_num_end neg mant frac eneg e c
      end
  | NE =>
      if c =? 43 then Some ([], LNum NESign neg mant frac false e)
      else if c =? 45 then Some ([], LNum NESign neg mant frac true e)
      else match digit_of c with
           | Some d => Some ([], LNum NExp neg mant frac eneg d)
           | None => None
           end
  | NESign =>
      match digit_of c with
      | Some d => Some ([], LNum NExp neg mant frac eneg d)
      | None => None
      end
  | NExp =>
      match digit_of c with
      | Some d => Some ([], LNum NExp neg mant frac eneg (10 * e + d))
      | None => lex_num_end neg mant frac eneg e c
      end
  end.

Definition lex_escape (acc : list N) (c : N) : option (list Token * LexState) :=
  if c =? 34 then Some ([], LStr (34 :: acc))
  else if c =? 92 then Some ([], LStr (92 :: acc))
  else if c =? 47 then Some ([], LStr (47 :: acc))
  else if c =? 98 then Some ([], LStr (8 :: acc))
  else if c =? 102 then Some ([], LStr (12 :: acc))
  else if c =? 110 then Some ([], LStr (10 :: acc))
  else if c =? 114 then Some ([], LStr (13 :: acc))
  else if c =? 116 then Some ([], LStr (9 :: acc))
  else if c =? 117 then Some ([], LHex acc 4 0)
  else None.

Definition lex_step (st : LexState) (c : N) : option (list Token * LexState) :=
  match st with
  | LIdle => lex_idle c
  | LWord [] v => None
  | LWord (x :: rest) v =>
      if c =? x
      then match rest with
           | [] => Some ([TScalar v], LIdle)
           | _ => Some ([], LWord rest v)
           end
      else None
  | LStr acc =>
      if c =? 34 then Some ([TScalar (JString (rev acc))], LIdle)
      else if c =? 92 then Some ([], LEsc acc)
      else if c <? 32 then None
      else Some ([], LStr (c :: acc))
  | LEsc acc => lex_escape acc c
  | LHex acc n v =>
      match hex_of c, n with
      | Some h, S O => Some ([], LStr ((16 * v + h) :: acc))
      | Some h, S n' => Some ([], LHex acc n' (16 * v + h))
      | _, _ => None
      end
  | LNum ph neg mant frac eneg e => lex_num ph neg mant frac eneg e c
  end.

Definition lex_end (st : LexState) : option (list Token) :=
  match st with
  | LIdle => Some []
  | LNum NZero neg mant frac eneg e
  | LNum NInt neg mant frac eneg e
  | LNum NFrac neg mant frac eneg e
  | LNum NExp neg mant frac eneg e =>
      Some [TScalar (num_value neg mant frac eneg e)]
  | _ => None
  end.

Fixpoint lex (st : LexState) (s : list N) : option (list Token) :=
  match s with
  | [] => lex_end st
  | c :: s' =>
      match lex_step st c with
      | Some (ts, st') =>
          match lex st' s' with
          | Some rest => Some (ts ++ rest)
          | None => None
          end
      | None => None
      end
  end.

(** The parser proper: one step per token, with the open containers on a
    stack. *)
Inductive Frame :=
| FArr (rev_items : list JSON)
| FObj (rev_members : list (list N * JSON))
| FObjV (rev_members : list (list N * JSON)) (key : list N).

Inductive PState :=
| PValue | PValueOrEnd | PKeyOrEnd | PKey | PColon (key : list N)
| PNext | PDone (v : JSON).

Definition deliver (v : JSON) (stack : list Frame)
  : option (list Frame * PState) :=
  match stack with
  | [] => Some ([], PDone v)
  | FArr items :: st => Some (FArr (v :: items) :: st, PNext)
  | FObjV ms k :: st => Some (FObj ((k, v) :: ms) :: st, PNext)
  | FObj _ :: _ => None
  end.

Definition parse_value_token (t : Token) (stack : list Frame)
  : option (list Frame * PState) :=
  match t with
  | TScalar v => deliver v stack
  | TLBracket => Some (FArr [] :: stack, PValueOrEnd)
  | TLBrace => Some (FObj [] :: stack, PKeyOrEnd)
  | _ => None
  end.

Definition parse_step (t : Token) (stack : list Frame) (ps : PState)
  : option (list Frame * PState) :=
  match ps with
  | PValue => parse_value_token t stack
  | PValueOrEnd =>
      match t, stack with
      | TRBracket, FArr [] :: st => deliver (JArray []) st
      | TRBracket, _ => None
      | _, _ => parse_value_token t stack
      end
  | PKeyOrEnd =>
      match t, stack with
      | TRBrace, FObj [] :: st => deliver (JObject []) st
      | TScalar (JString k), _ => Some (stack, PColon k)
      | _, _ => None
      end
  | PKey =>
      match t with
      | TScalar (JString k) => Some (stack, PColon k)
      | _ => None
      end
  | PColon k =>
      match t, stack with
      | TColon, FObj ms :: st => Some (FObjV ms k :: st, PValue)
      | _, _ => None
      end
  | PNext =>
      match t, stack with
      | TComma, FArr _ :: _ => Some (stack, PValue)
      | TComma, FObj _ :: _ => Some (stack, PKey)
      | TRBracket, FArr items :: st => deliver (JArray (rev items)) st
      | TRBrace, FObj ms :: st => deliver (JObject (rev ms)) st
      | _, _ => None
      end
  | PDone _ => None
  end.

Fixpoint parse_tokens (ts : list Token) (stack : list Frame) (ps : PState)
  : option JSON :=
  match ts with
  | [] => match ps, stack with
          | PDone v, [] => Some v
          | _, _ => None
          end
  | t :: ts' =>
      match parse_step t stack ps with
      | Some (stack', ps') => parse_tokens ts' stack' ps'
      | None => None
      end
  end.

(** [JSON.parse(text)]: [None] stands for the [SyntaxError] it throws. *)
Definition JSON_parse (text : list N) : option JSON :=
  match lex LIdle text with
  | Some ts => parse_tokens ts [] PValue
  | None => None
  end.

(** The double a JSON number denotes is zero when its mantissa is, or when
    it is at most 2^-1075 in magnitude (round to nearest, ties to even). *)
Definition num_is_zero (x : JNum) : bool :=
  (num_mantissa x =? 0) ||
  ((num_exp10 x <? 0)%Z &&
   (Z.of_N (num_mantissa x) * 2 ^ 1075 <=? 10 ^ (- num_exp10 x))%Z).

(** [ToBoolean]. *)
Definition truthy (v : JSON) : bool :=
  match v with
  | JNull => false
  | JBool b => b
  | JNumber x => negb (num_is_zero x)
  | JString s => nonempty s
  | JArray _ | JObject _ => true
  end.

(** Own property of a parsed object; with repeated keys the last one wins. *)
Fixpoint own_property (name : list N) (ms : list (list N * JSON))
  : option JSON :=
  match ms with
  | [] => None
  | (k, v) :: ms' =>
      match own_property name ms' with
      | Some w => Some w
      | None => if decide (k = name) then Some v else None
      end
  end.

(** [v.name] for a name that no prototype defines ([lessons], [questions],
    [flashcards]): [undefined] ([None]) unless [v] is an object that owns
    it; reading a property of [null] throws a [TypeError]. *)
Definition get_field (name : list N) (v : JSON) : option (option JSON) :=
  match v with
  | JNull => None
  | JObject ms => Some (own_property name ms)
  | _ => Some None
  end.

(** ** Data model of the application *)

Inductive LessonLength := short | normal | long.

Inductive SortKey := by_date | by_theme | by_name.

(** The four values of [processingStatus]; [error_status] is ["error"]
    (the record field [error] has the name). *)
Inductive ProcessingStatus := pending | processing | completed | error_status.

(** [LearningContent]. The three parsed slices hold whatever value the
    completion decoded to: the source assigns them unchecked. *)
Record LearningContent := {
  microLessons : JSON;
  quizQuestions : JSON;
  summary : list N;
  flashcards : JSON;
  lc_detectedLanguage : list N
}.

(** [QuizResult]; [percentage] keeps the two operands of the
    double-precision expression [(correctAnswers / totalQuestions) * 100],
    as [Some (correctAnswers, totalQuestions)]; [None] is the [null] that
    a result read back from the storage holds in place of a percentage
    that was not a finite number. *)
Record QuizResult := {
  timestamp : Z;
  totalQuestions : Z;
  correctAnswers : Z;
  percentage : option (Z * Z)
}.

(** [UploadedMaterial]; dates are their time value in milliseconds. *)
Record UploadedMaterial := {
  id : list N;
  fileName : list N;
  fileType : list N;
  fileUrl : list N;
  uploadedAt : Z;
  extractedText : list N;
  detectedLanguage : option (list N);
  suggestedTitle : option (list N);
  thematicCategory : option (list N);
  content : option LearningContent;
  processingStatus : ProcessingStatus;
  error : option (list N);
  quizResults : option (list QuizResult)
}.

Record UserData := {
  email : list N;
  userId : list N;
  isPremium : bool;
  createdAt : Z
}.

Record SubscriptionStatus := { sub_isPremium : bool }.

Record File := { file_name : list N; file_type : list N }.

(** What [localStorage] holds under a key, as the value its JSON text
    decodes to. A date is stored as its ISO string, which is written
    [Iso t] for the date of time value [t]. Of the other fields
    ([st_material], [st_result]) the strings and the status are stored as
    they are, and a number as [JSON.stringify] writes it: a finite one as
    a literal of the same double (the literal it was read from stands for
    it), one that is not finite as [null], and a negative zero as [0]. *)
Inductive IsoDate := Iso (t : Z).

Record StoredQuizResult := {
  st_timestamp : IsoDate;
  st_result : QuizResult
}.

Record StoredMaterial := {
  st_uploadedAt : IsoDate;
  st_quizResults : option (list StoredQuizResult);
  st_material : UploadedMaterial
}.

Inductive Stored :=
| StoredMaterials (ms : list StoredMaterial)
| StoredLimits (date : list N) (count : Z)
| StoredSubscription (s : SubscriptionStatus)
| StoredText (s : list N).

Definition STORAGE_KEY : string := "learning-materials".
Definition SUBSCRIPTION_KEY : string := "subscription-status".
Definition UPLOAD_LIMIT_KEY : string := "upload-limits".
Definition FREE_DAILY_LIMIT : Z := 3.

(** The state of the [App] component, with the browser's [localStorage]. *)
Record AppState := {
  materials : list UploadedMaterial;
  selectedMaterial : option UploadedMaterial;
  processingProgress : Z;
  lessonLength : LessonLength;
  quizAnswers : gmap nat (option Z);
  revealedAnswers : gmap nat bool;
  sortBy : SortKey;
  editingMaterialId : option (list N);
  editingName : list N;
  isGeneratingQuestions : bool;
  subscription : SubscriptionStatus;
  showSubscriptionDialog : bool;
  todayUploadCount : Z;
  currentUser : option UserData;
  localStorage : gmap string Stored
}.

(** The component's initial state (the arguments of its [useState]s). *)
Definition initial_state : AppState :=
  {| materials := []; selectedMaterial := None; processingProgress := 0;
     lessonLength := normal; quizAnswers := ∅; revealedAnswers := ∅;
     sortBy := by_date; editingMaterialId := None; editingName := [];
     isGeneratingQuestions := false;
     subscription := {| sub_isPremium := false |};
     showSubscriptionDialog := false; todayUploadCount := 0;
     currentUser := None; localStorage := ∅ |}.

(** ** State updates

    One setter per piece of component state that a handler writes. *)

Definition with_materials (v : list UploadedMaterial) (st : AppState) : AppState :=
  {| materials := v; selectedMaterial := selectedMaterial st;
     processingProgress := processingProgress st;
     lessonLength := lessonLength st; quizAnswers := quizAnswers st;
     revealedAnswers := revealedAnswers st; sortBy := sortBy st;
     editingMaterialId := editingMaterialId st;
     editingName := editingName st;
     isGeneratingQuestions := isGeneratingQuestions st;
     subscription := subscription st;
     showSubscriptionDialog := showSubscriptionDialog st;
     todayUploadCount := todayUploadCount st; currentUser := currentUser st;
     localStorage := localStorage st |}.

Definition with_selectedMaterial (v : option UploadedMaterial) (st : AppState) : AppState :=
  {| materials := materials st; selectedMaterial := v;
     processingProgress := processingProgress st;
     lessonLength := lessonLength st; quizAnswers := quizAnswers st;
     revealedAnswers := revealedAnswers st; sortBy := sortBy st;
     editingMaterialId := editingMaterialId st;
     editingName := editingName st;
     isGeneratingQuestions := isGeneratingQuestions st;
     subscription := subscription st;
     showSubscriptionDialog := showSubscriptionDialog st;
     todayUploadCount := todayUploadCount st; currentUser := currentUser st;
     localStorage := localStorage st |}.

Definition with_processingProgress (v : Z) (st : AppState) : AppState :=
  {| materials := materials st; selectedMaterial := selectedMaterial st;
     processingProgress := v; lessonLength := lessonLength st;
     quizAnswers := quizAnswers st; revealedAnswers := revealedAnswers st;
     sortBy := sortBy st; editingMaterialId := editingMaterialId st;
     editingName := editingName st;
     isGeneratingQuestions := isGeneratingQuestions st;
     subscription := subscription st;
     showSubscriptionDialog := showSubscriptionDialog st;
     todayUploadCount := todayUploadCount st; currentUser := currentUser st;
     localStorage := localStorage st |}.

Definition with_quizAnswers (v : gmap nat (option Z)) (st : AppState) : AppState :=
  {| materials := materials st; selectedMaterial := selectedMaterial st;
     processingProgress := processingProgress st;
     lessonLength := lessonLength st; quizAnswers := v;
     revealedAnswers := revealedAnswers st; sortBy := sortBy st;
     editingMaterialId := editingMaterialId st;
     editingName := editingName st;
     isGeneratingQuestions := isGeneratingQuestions st;
     subscription := subscription st;
     showSubscriptionDialog := showSubscriptionDialog st;
     todayUploadCount := todayUploadCount st; currentUser := currentUser st;
     localStorage := localStorage st |}.

Definition with_revealedAnswers (v : gmap nat bool) (st : AppState) : AppState :=
  {| materials := materials st; selectedMaterial := selectedMaterial st;
     processingProgress := processingProgress st;
     lessonLength := lessonLength st; quizAnswers := quizAnswers st;
     revealedAnswers := v; sortBy := sortBy st;
     editingMaterialId := editingMaterialId st;
     editingName := editingName st;
     isGeneratingQuestions := isGeneratingQuestions st;
     subscription := subscription st;
     showSubscriptionDialog := showSubscriptionDialog st;
     todayUploadCount := todayUploadCount st; currentUser := currentUser st;
     localStorage := localStorage st |}.

Definition with_editingMaterialId (v : option (list N)) (st : AppState) : AppState :=
  {| materials := materials st; selectedMaterial := selectedMaterial st;
     processingProgress := processingProgress st;
     lessonLength := lessonLength st; quizAnswers := quizAnswers st;
     revealedAnswers := revealedAnswers st; sortBy := sortBy st;
     editingMaterialId := v; editingName := editingName st;
     isGeneratingQuestions := isGeneratingQuestions st;
     subscription := subscription st;
     showSubscriptionDialog := showSubscriptionDialog st;
     todayUploadCount := todayUploadCount st; currentUser := currentUser st;
     localStorage := localStorage st |}.

Definition with_editingName (v : list N) (st : AppState) : AppState :=
  {| materials := materials st; selectedMaterial := selectedMaterial st;
     processingProgress := processingProgress st;
     lessonLength := lessonLength st; quizAnswers := quizAnswers st;
     revealedAnswers := revealedAnswers st; sortBy := sortBy st;
     editingMaterialId := editingMaterialId st; editingName := v;
     isGeneratingQuestions := isGeneratingQuestions st;
     subscription := subscription st;
     showSubscriptionDialog := showSubscriptionDialog st;
     todayUploadCount := todayUploadCount st; currentUser := currentUser st;
     localStorage := localStorage st |}.

Definition with_isGeneratingQuestions (v : bool) (st : AppState) : AppState :=
  {| materials := materials st; selectedMaterial := selectedMaterial st;
     processingProgress := processingProgress st;
     lessonLength := lessonLength st; quizAnswers := quizAnswers st;
     revealedAnswers := revealedAnswers st; sortBy := sortBy st;
     editingMaterialId := editingMaterialId st;
     editingName := editingName st; isGeneratingQuestions := v;
     subscription := subscription st;
     showSubscriptionDialog := showSubscriptionDialog st;
     todayUploadCount := todayUploadCount st; currentUser := currentUser st;
     localStorage := localStorage st |}.

Definition with_showSubscriptionDialog (v : bool) (st : AppState) : AppState :=
  {| materials := materials st; selectedMaterial := selectedMaterial st;
     processingProgress := processingProgress st;
     lessonLength := lessonLength st; quizAnswers := quizAnswers st;
     revealedAnswers := revealedAnswers st; sortBy := sortBy st;
     editingMaterialId := editingMaterialId st;
     editingName := editingName st;
     isGeneratingQuestions := isGeneratingQuestions st;
     subscription := subscription st; showSubscriptionDialog := v;
     todayUploadCount := todayUploadCount st; currentUser := currentUser st;
     localStorage := localStorage st |}.

Definition with_todayUploadCount (v : Z) (st : AppState) : AppState :=
  {| materials := materials st; selectedMaterial := selectedMaterial st;
     processingProgress := processingProgress st;
     lessonLength := lessonLength st; quizAnswers := quizAnswers st;
     revealedAnswers := revealedAnswers st; sortBy := sortBy st;
     editingMaterialId := editingMaterialId st;
     editingName := editingName st;
     isGeneratingQuestions := isGeneratingQuestions st;
     subscription := subscription st;
     showSubscriptionDialog := showSubscriptionDialog st;
     todayUploadCount := v; currentUser := currentUser st;
     localStorage := localStorage st |}.

Definition with_localStorage (v : gmap string Stored) (st : AppState) : AppState :=
  {| materials := materials st; selectedMaterial := selectedMaterial st;
     processingProgress := processingProgress st;
     lessonLength := lessonLength st; quizAnswers := quizAnswers st;
     revealedAnswers := revealedAnswers st; sortBy := sortBy st;
     editingMaterialId := editingMaterialId st;
     editingName := editingName st;
     isGeneratingQuestions := isGeneratingQuestions st;
     subscription := subscription st;
     showSubscriptionDialog := showSubscriptionDialog st;
     todayUploadCount := todayUploadCount st; currentUser := currentUser st;
     localStorage := v |}.

(** Object spreads [{ ...m, field: v }] over a material. *)

Definition spread_fileName (v : list N) (m : UploadedMaterial)
  : UploadedMaterial :=
  {| id := id m; fileName := v; fileType := fileType m;
     fileUrl := fileUrl m; uploadedAt := uploadedAt m;
     extractedText := extractedText m;
     detectedLanguage := detectedLanguage m;
     suggestedTitle := suggestedTitle m;
     thematicCategory := thematicCategory m; content := content m;
     processingStatus := processingStatus m; error := error m;
     quizResults := quizResults m |}.

Definition spread_fileUrl (v : list N) (m : UploadedMaterial)
  : UploadedMaterial :=
  {| id := id m; fileName := fileName m; fileType := fileType m;
     fileUrl := v; uploadedAt := uploadedAt m;
     extractedText := extractedText m;
     detectedLanguage := detectedLanguage m;
     suggestedTitle := suggestedTitle m;
     thematicCategory := thematicCategory m; content := content m;
     processingStatus := processingStatus m; error := error m;
     quizResults := quizResults m |}.

Definition spread_extractedText (v : list N) (m : UploadedMaterial)
  : UploadedMaterial :=
  {| id := id m; fileName := fileName m; fileType := fileType m;
     fileUrl := fileUrl m; uploadedAt := uploadedAt m; extractedText := v;
     detectedLanguage := detectedLanguage m;
     suggestedTitle := suggestedTitle m;
     thematicCategory := thematicCategory m; content := content m;
     processingStatus := processingStatus m; error := error m;
     quizResults := quizResults m |}.

Definition spread_detectedLanguage (v : option (list N)) (m : UploadedMaterial)
  : UploadedMaterial :=
  {| id := id m; fileName := fileName m; fileType := fileType m;
     fileUrl := fileUrl m; uploadedAt := uploadedAt m;
     extractedText := extractedText m; detectedLanguage := v;
     suggestedTitle := suggestedTitle m;
     thematicCategory := thematicCategory m; content := content m;
     processingStatus := processingStatus m; error := error m;
     quizResults := quizResults m |}.

Definition spread_suggestedTitle (v : option (list N)) (m : UploadedMaterial)
  : UploadedMaterial :=
  {| id := id m; fileName := fileName m; fileType := fileType m;
     fileUrl := fileUrl m; uploadedAt := uploadedAt m;
     extractedText := extractedText m;
     detectedLanguage := detectedLanguage m; suggestedTitle := v;
     thematicCategory := thematicCategory m; content := content m;
     processingStatus := processingStatus m; error := error m;
     quizResults := quizResults m |}.

Definition spread_thematicCategory (v : option (list N)) (m : UploadedMaterial)
  : UploadedMaterial :=
  {| id := id m; fileName := fileName m; fileType := fileType m;
     fileUrl := fileUrl m; uploadedAt := uploadedAt m;
     extractedText := extractedText m;
     detectedLanguage := detectedLanguage m;
     suggestedTitle := suggestedTitle m; thematicCategory := v;
     content := content m; processingStatus := processingStatus m;
     error := error m; quizResults := quizResults m |}.

Definition spread_content (v : option LearningContent) (m : UploadedMaterial)
  : UploadedMaterial :=
  {| id := id m; fileName := fileName m; fileType := fileType m;
     fileUrl := fileUrl m; uploadedAt := uploadedAt m;
     extractedText := extractedText m;
     detectedLanguage := detectedLanguage m;
     suggestedTitle := suggestedTitle m;
     thematicCategory := thematicCategory m; content := v;
     processingStatus := processingStatus m; error := error m;
     quizResults := quizResults m |}.

Definition spread_processingStatus (v : ProcessingStatus) (m : UploadedMaterial)
  : UploadedMaterial :=
  {| id := id m; fileName := fileName m; fileType := fileType m;
     fileUrl := fileUrl m; uploadedAt := uploadedAt m;
     extractedText := extractedText m;
     detectedLanguage := detectedLanguage m;
     suggestedTitle := suggestedTitle m;
     thematicCategory := thematicCategory m; content := content m;
     processingStatus := v; error := error m; quizResults := quizResults m |}.

Definition spread_error (v : option (list N)) (m : UploadedMaterial)
  : UploadedMaterial :=
  {| id := id m; fileName := fileName m; fileType := fileType m;
     fileUrl := fileUrl m; uploadedAt := uploadedAt m;
     extractedText := extractedText m;
     detectedLanguage := detectedLanguage m;
     suggestedTitle := suggestedTitle m;
     thematicCategory := thematicCategory m; content := content m;
     processingStatus := processingStatus m; error := v;
     quizResults := quizResults m |}.

Definition spread_quizResults (v : option (list QuizResult)) (m : UploadedMaterial)
  : UploadedMaterial :=
  {| id := id m; fileName := fileName m; fileType := fileType m;
     fileUrl := fileUrl m; uploadedAt := uploadedAt m;
     extractedText := extractedText m;
     detectedLanguage := detectedLanguage m;
     suggestedTitle := suggestedTitle m;
     thematicCategory := thematicCategory m; content := content m;
     processingStatus := processingStatus m; error := error m;
     quizResults := v |}.

(** [{ ...c, quizQuestions: qs }]. *)
Definition spread_quizQuestions (qs : JSON) (c : LearningContent)
  : LearningContent :=
  {| microLessons := microLessons c; quizQuestions := qs;
     summary := summary c; flashcards := flashcards c;
     lc_detectedLanguage := lc_detectedLanguage c |}.

(** [prev.map((m) => (m.id === target ? g(m) : m))]. *)
Definition map_where (target : list N) (g : UploadedMaterial -> UploadedMaterial)
    (prev : list UploadedMaterial) : list UploadedMaterial :=
  map (fun m => if decide (id m = target) then g m else m) prev.

(** ** Persistence of the materials *)

(** The double a JSON number denotes is infinite when its magnitude is at
    least 2^1024 - 2^970, half a unit in the last place above the largest
    finite double (round to nearest, ties to even). *)
Definition num_overflows (x : JNum) : bool :=
  if (num_exp10 x <? 0)%Z
  then ((2 ^ 1024 - 2 ^ 970) * 10 ^ (- num_exp10 x)
          <=? Z.of_N (num_mantissa x))%Z
  else (2 ^ 1024 - 2 ^ 970 <=? Z.of_N (num_mantissa x) * 10 ^ num_exp10 x)%Z.

(** A number as [JSON.stringify] writes it and [JSON.parse] reads it
    back: [null] for a number that is not finite, [0] for a negative
    zero, and the same double otherwise. *)
Definition toJSON_number (x : JNum) : JSON :=
  if num_overflows x then JNull
  else if num_neg x && num_is_zero x
       then JNumber {| num_neg := false; num_mantissa := 0; num_exp10 := 0 |}
       else JNumber x.

(** A decoded value as [JSON.stringify] writes it: the numbers as above,
    inside arrays and objects too; an object is written with its members
    as they are held. *)
Fixpoint toJSON_value (v : JSON) : JSON :=
  match v with
  | JNumber x => toJSON_number x
  | JArray vs => JArray (map toJSON_value vs)
  | JObject ms => JObject (map (fun kv => (kv.1, toJSON_value kv.2)) ms)
  | _ => v
  end.

Definition toJSON_content (c : LearningContent) : LearningContent :=
  {| microLessons := toJSON_value (microLessons c);
     quizQuestions := toJSON_value (quizQuestions c);
     summary := summary c;
     flashcards := toJSON_value (flashcards c);
     lc_detectedLanguage := lc_detectedLanguage c |}.

(** The percentage [(correctAnswers / totalQuestions) * 100] as it is
    written: with no questions the quotient is [NaN] or infinite, and
    [null] is written; a zero is written without its sign (the quotient
    of the zero count by a negative number is a negative zero). *)
Definition toJSON_percentage (p : option (Z * Z)) : option (Z * Z) :=
  match p with
  | Some (correct, total) =>
      if (total =? 0)%Z then None
      else if (correct =? 0)%Z && (total <? 0)%Z then Some (0, - total)%Z
      else Some (correct, total)
  | None => None
  end.

Definition toJSON_result (r : QuizResult) : StoredQuizResult :=
  {| st_timestamp := Iso (timestamp r);
     st_result :=
       {| timestamp := timestamp r;
          totalQuestions := totalQuestions r;
          correctAnswers := correctAnswers r;
          percentage := toJSON_percentage (percentage r) |} |}.

(** [JSON.stringify] of one material: its dates become ISO strings, and
    the numbers that its content decoded are written as above. *)
Definition toJSON_material (m : UploadedMaterial) : StoredMaterial :=
  {| st_uploadedAt := Iso (uploadedAt m);
     st_quizResults := option_map (map toJSON_result) (quizResults m);
     st_material := spread_content (option_map toJSON_content (content m)) m |}.

(** [new Date(isoString)]. *)
Definition new_Date (d : IsoDate) : Z := match d with Iso t => t end.

Definition revive_result (r : StoredQuizResult) : QuizResult :=
  {| timestamp := new_Date (st_timestamp r);
     totalQuestions := totalQuestions (st_result r);
     correctAnswers := correctAnswers (st_result r);
     percentage := percentage (st_result r) |}.

(** The mapping applied to the parsed list when the component mounts. *)
Definition revive_material (sm : StoredMaterial) : UploadedMaterial :=
  let m := st_material sm in
  {| id := id m; fileName := fileName m; fileType := fileType m;
     fileUrl := fileUrl m; uploadedAt := new_Date (st_uploadedAt sm);
     extractedText := extractedText m;
     detectedLanguage := detectedLanguage m;
     suggestedTitle := suggestedTitle m;
     thematicCategory := thematicCategory m; content := content m;
     processingStatus := processingStatus m; error := error m;
     quizResults := option_map (map revive_result) (st_quizResults sm) |}.

(** The effect that runs after the materials changed:
    [if (materials.length > 0) localStorage.setItem(STORAGE_KEY, ...)]. *)
Definition save_materials_effect (st : AppState) : AppState :=
  match materials st with
  | [] => st
  | _ :: _ =>
      with_localStorage
        (<[STORAGE_KEY := StoredMaterials (map toJSON_material (materials st))]>
           (localStorage st)) st
  end.

(** The part of the mount effect that loads the materials. *)
Definition load_materials (ls : gmap string Stored) : list UploadedMaterial :=
  match ls !! STORAGE_KEY with
  | Some (StoredMaterials sms) => map revive_material sms
  | _ => []
  end.

(** The material that a reload gives back for [m], once [m] was saved. *)
Definition reloaded (m : UploadedMaterial) : UploadedMaterial :=
  revive_material (toJSON_material m).

(** ** Actions and asynchronous programs *)

Inductive Action :=
| SetMaterials (f : list UploadedMaterial -> list UploadedMaterial)
| SetSelectedMaterial (f : option UploadedMaterial -> option UploadedMaterial)
| SetProcessingProgress (n : Z)
| SetQuizAnswers (a : gmap nat (option Z))
| SetRevealedAnswers (r : gmap nat bool)
| SetEditingMaterialId (i : option (list N))
| SetEditingName (s : list N)
| SetIsGeneratingQuestions (b : bool)
| SetShowSubscriptionDialog (b : bool)
| SetTodayUploadCount (n : Z)
| LocalStorageSetItem (key : string) (v : Stored)
| ResetFileInput
| Alert (msg : list N)
| ConsoleError.

Definition apply_action (a : Action) (st : AppState) : AppState :=
  match a with
  | SetMaterials f =>
      save_materials_effect (with_materials (f (materials st)) st)
  | SetSelectedMaterial f =>
      with_selectedMaterial (f (selectedMaterial st)) st
  | SetProcessingProgress n => with_processingProgress n st
  | SetQuizAnswers a => with_quizAnswers a st
  | SetRevealedAnswers r => with_revealedAnswers r st
  | SetEditingMaterialId i => with_editingMaterialId i st
  | SetEditingName s => with_editingName s st
  | SetIsGeneratingQuestions b => with_isGeneratingQuestions b st
  | SetShowSubscriptionDialog b => with_showSubscriptionDialog b st
  | SetTodayUploadCount n => with_todayUploadCount n st
  | LocalStorageSetItem k v =>
      with_localStorage (<[k := v]> (localStorage st)) st
  | ResetFileInput | Alert _ | ConsoleError => st
  end.

(** ** The collaborators' messages *)

Inductive Role := system | user | assistant.

Record ChatMessage := { role : Role; msg_content : list N }.

Record GPTChatInput := {
  messages : list ChatMessage;
  model : option (list N)
}.

Record Usage := {
  prompt_tokens : Z;
  completion_tokens : Z;
  total_tokens : Z
}.

Record Choice := {
  message : option (option (list N));  (* message, then message.content *)
  finish_reason : list N
}.

Record CompletionData := {
  data_id : list N;
  data_model : list N;
  choices : option (list Choice);
  usage : Usage
}.

(** What [createChatCompletion] resolves to. *)
Record CompletionResponse := {
  response_error : bool;
  response_data : option CompletionData
}.

Record ChatRequest := {
  body_model : list N;
  body_messages : list ChatMessage
}.

Record GPTChatResponse := {
  gpt_content : list N;
  gpt_id : list N;
  gpt_model : list N;
  gpt_usage : Usage;
  finishReason : list N
}.

Record UploadFileResponse := {
  upload_fileUrl : list N;
  upload_fileKey : list N;
  upload_success : bool
}.

(** An item of a PDF page's text content: its [str] when it has one. *)
Definition PdfItem := option (list N).

(** A handler of the component: synchronous state updates ([Do]) between
    suspension points. Each [Await...] node is one [await] on a
    collaborator, and its continuation receives how the promise settled;
    [Tick] is an [await] on a value that is already there.

    The collaborators are the file upload of [useFileUploadMutation]
    (presigned URL, then PUT; it resolves to its response or rejects with
    the error it throws), pdf.js, the [FileReader], and the back end
    behind [createChatCompletion]. *)
Inductive Async (A : Type) : Type :=
| Ret (a : A)
| Throw (e : Thrown)
| Do (act : Action) (k : Async A)
| Tick (k : Async A)
| AwaitUpload (f : File) (k : Outcome UploadFileResponse -> Async A)
| AwaitPdf (f : File) (k : Outcome (list (list PdfItem)) -> Async A)
| AwaitReadAsText (f : File) (k : Outcome (list N) -> Async A)
| AwaitCompletion (req : ChatRequest)
    (k : Outcome CompletionResponse -> Async A).
Arguments Ret {A} a.
Arguments Throw {A} e.
Arguments Do {A} act k.
Arguments Tick {A} k.
Arguments AwaitUpload {A} f k.
Arguments AwaitPdf {A} f k.
Arguments AwaitReadAsText {A} f k.
Arguments AwaitCompletion {A} req k.

Fixpoint bind {A B : Type} (m : Async A) (f : A -> Async B) : Async B :=
  match m with
  | Ret a => f a
  | Throw e => Throw e
  | Do act k => Do act (bind k f)
  | Tick k => Tick (bind k f)
  | AwaitUpload x k => AwaitUpload x (fun o => bind (k o) f)
  | AwaitPdf x k => AwaitPdf x (fun o => bind (k o) f)
  | AwaitReadAsText x k => AwaitReadAsText x (fun o => bind (k o) f)
  | AwaitCompletion x k => AwaitCompletion x (fun o => bind (k o) f)
  end.

(** [try { m } catch (e) { h e }]. *)
Fixpoint try_catch {A : Type} (m : Async A) (h : Thrown -> Async A)
  : Async A :=
  match m with
  | Ret a => Ret a
  | Throw e => h e
  | Do act k => Do act (try_catch k h)
  | Tick k => Tick (try_catch k h)
  | AwaitUpload x k => AwaitUpload x (fun o => try_catch (k o) h)
  | AwaitPdf x k => AwaitPdf x (fun o => try_catch (k o) h)
  | AwaitReadAsText x k => AwaitReadAsText x (fun o => try_catch (k o) h)
  | AwaitCompletion x k => AwaitCompletion x (fun o => try_catch (k o) h)
  end.

(** [try { m } finally { f }]. *)
Fixpoint try_finally {A : Type} (m : Async A) (f : Async unit) : Async A :=
  match m with
  | Ret a => bind f (fun _ => Ret a)
  | Throw e => bind f (fun _ => Throw e)
  | Do act k => Do act (try_finally k f)
  | Tick k => Tick (try_finally k f)
  | AwaitUpload x k => AwaitUpload x (fun o => try_finally (k o) f)
  | AwaitPdf x k => AwaitPdf x (fun o => try_finally (k o) f)
  | AwaitReadAsText x k => AwaitReadAsText x (fun o => try_finally (k o) f)
  | AwaitCompletion x k => AwaitCompletion x (fun o => try_finally (k o) f)
  end.

Definition act (a : Action) : Async unit := Do a (Ret tt).

(** The promise of a collaborator, awaited: resolve or rethrow. *)
Definition settle {A : Type} (o : Outcome A) : Async A :=
  match o with
  | Resolved a => Ret a
  | Rejected e => Throw e
  end.

#[global] Instance Async_ret : MRet Async := @Ret.
#[global] Instance Async_bind : MBind Async := fun A B f m => bind m f.

(** ** The chat-completion hook ([useGPTChatMutation]) *)

Definition DEFAULT_MODEL : list N := lit "MaaS_4.1".

(** What the hook makes of the resolved response: the formatted result,
    or the error it throws. *)
Definition read_completion (response : CompletionResponse)
  : Outcome GPTChatResponse :=
  if response_error response
  then Rejected (ErrorObject (lit
    "Chat completion request failed. Please check your API credentials."))
  else
    match response_data response with
    | None => Rejected (ErrorObject (lit
        "No response data received from chat completion API"))
    | Some data =>
        match choices data with
        | None | Some [] => Rejected (ErrorObject (lit
            "No completion choices returned from API"))
        | Some (firstChoice :: _) =>
            match message firstChoice with
            | Some (Some (c :: cs)) =>
                Resolved {| gpt_content := c :: cs;
                            gpt_id := data_id data;
                            gpt_model := data_model data;
                            gpt_usage := usage data;
                            finishReason := finish_reason firstChoice |}
            | _ => Rejected (ErrorObject (lit
                "No content in completion response"))
            end
        end
    end.

Definition request_of (input : GPTChatInput) : ChatRequest :=
  {| body_model :=
       match model input with
       | Some m => str_or m DEFAULT_MODEL
       | None => DEFAULT_MODEL
       end;
     body_messages := messages input |}.

(** The function behind [chatMutation.mutateAsync]. *)
Definition mutationFn (input : GPTChatInput) : Async GPTChatResponse :=
  match messages input with
  | [] => Throw (ErrorObject (lit "At least one message is required"))
  | _ :: _ =>
      if existsb (fun m => negb (nonempty (msg_content m))) (messages input)
      then Throw (ErrorObject (lit "Each message must have a role and content"))
      else
        AwaitCompletion (request_of input) (fun settled =>
          response ← settle settled;
          settle (read_completion response))
  end.

Definition chat (sys usr : list N) : GPTChatInput :=
  {| messages := [ {| role := system; msg_content := sys |};
                   {| role := user; msg_content := usr |} ];
     model := None |}.

(** ** Prompts *)

Definition detectLanguage_input (text : list N) : GPTChatInput :=
  chat
    (lit "You are a language detection expert. Detect the language of the provided text and return ONLY the language name in English (e.g., 'English', 'German', 'Spanish', 'French', etc.). Return just the language name, nothing else.")
    (lit "Detect the language of this text:" ++ newline ++ newline
       ++ slice0 1000 text).

Definition generateSuggestedTitle_input (text language : list N)
  : GPTChatInput :=
  chat
    (lit "You are a content analyst. Analyze the provided text and generate a short, descriptive title (3-8 words) that captures the main topic or subject. Respond ONLY with the title in "
       ++ language ++ lit ", nothing else.")
    (lit "Generate a title for this content:" ++ newline ++ newline
       ++ slice0 2000 text).

Definition categorizeContent_input (text language : list N) : GPTChatInput :=
  chat
    (lit "You are a content categorization expert. Analyze the provided text and assign it to ONE thematic category. Choose from: Science, Technology, History, Literature, Mathematics, Business, Arts, Health, Language, Social Studies, Philosophy, Engineering, or Other. Respond ONLY with the category name in "
       ++ language ++ lit ", nothing else.")
    (lit "Categorize this content:" ++ newline ++ newline
       ++ slice0 2000 text).

Record LessonConfig := { count : list N; detail : list N }.

Definition lessonConfig (len : LessonLength) : LessonConfig :=
  match len with
  | short =>
      {| count := lit "2-3";
         detail := lit "brief and concise, focusing only on key points" |}
  | normal =>
      {| count := lit "4-5";
         detail := lit "moderate detail with clear explanations" |}
  | long =>
      {| count := lit "6-8";
         detail := lit "comprehensive and detailed with examples and in-depth explanations" |}
  end.

Definition lessons_input (config : LessonConfig) (text language : list N)
  : GPTChatInput :=
  chat
    (lit "You are an educational content creator. Create " ++ count config
       ++ lit " " ++ detail config
       ++ lit " micro-lessons from the provided text. You MUST respond in "
       ++ language
       ++ lit ". Return ONLY valid JSON in this exact format: {"
       ++ quoted "lessons" ++ lit ": [{" ++ quoted "title" ++ lit ": "
       ++ quoted "..." ++ lit ", " ++ quoted "content" ++ lit ": "
       ++ quoted "..." ++ lit "}]}")
    (lit "Create micro-lessons from this text:" ++ newline ++ newline
       ++ slice0 4000 text).

(** The JSON sample that both quiz prompts end with. *)
Definition questions_format : list N :=
  lit "{" ++ quoted "questions" ++ lit ": [{" ++ quoted "question"
    ++ lit ": " ++ quoted "..." ++ lit ", " ++ quoted "options" ++ lit ": ["
    ++ quoted "A" ++ lit ", " ++ quoted "B" ++ lit ", " ++ quoted "C"
    ++ lit ", " ++ quoted "D" ++ lit "], " ++ quoted "correctAnswer"
    ++ lit ": 0, " ++ quoted "explanation" ++ lit ": " ++ quoted "..."
    ++ lit "}]}".

Definition quiz_input (text language : list N) : GPTChatInput :=
  chat
    (lit "You are a quiz creator. Create 5-7 detailed multiple-choice questions with 4 options each. Include an explanation for each correct answer. You MUST respond in "
       ++ language
       ++ lit ". Return ONLY valid JSON in this exact format: "
       ++ questions_format)
    (lit "Create quiz questions from this text:" ++ newline ++ newline
       ++ slice0 4000 text).

Definition summary_input (text language : list N) : GPTChatInput :=
  chat
    (lit "You are a summarization expert. Create a concise 2-3 paragraph summary. You MUST respond in "
       ++ language ++ lit ".")
    (lit "Summarize this text:" ++ newline ++ newline ++ slice0 4000 text).

Definition flashcards_input (text language : list N) : GPTChatInput :=
  chat
    (lit "You are a flashcard creator. Create 10-12 detailed flashcards with a question/term on the front and a comprehensive answer/definition on the back. You MUST respond in "
       ++ language
       ++ lit ". Return ONLY valid JSON in this exact format: {"
       ++ quoted "flashcards" ++ lit ": [{" ++ quoted "front" ++ lit ": "
       ++ quoted "..." ++ lit ", " ++ quoted "back" ++ lit ": "
       ++ quoted "..." ++ lit "}]}")
    (lit "Create flashcards from this text:" ++ newline ++ newline
       ++ slice0 4000 text).

Definition newQuestions_input (text language : list N) : GPTChatInput :=
  chat
    (lit "You are a quiz creator. Create 5-7 NEW and DIFFERENT detailed multiple-choice questions with 4 options each. Make sure these questions are different from any previous questions. Include an explanation for each correct answer. You MUST respond in "
       ++ language
       ++ lit ". Return ONLY valid JSON in this exact format: "
       ++ questions_format)
    (lit "Create NEW quiz questions from this text:" ++ newline ++ newline
       ++ slice0 4000 text).

(** ** Decoding the completions *)

(** The message of an error that the engine itself throws ([SyntaxError]
    of [JSON.parse], [TypeError] of a property read on [null]) is the
    engine's choice; every such error of the source is thrown inside a
    [try] whose [catch] does not read it, so the message is left empty. *)
Definition engine_error : Thrown := ErrorObject [].

Definition JSON_parse_js (text : list N) : Async JSON :=
  match JSON_parse text with
  | Some v => Ret v
  | None => Throw engine_error
  end.

(** [data.name || []]. *)
Definition field_or_empty (name : list N) (data : JSON) : Async JSON :=
  match get_field name data with
  | None => Throw engine_error
  | Some None => Ret (JArray [])
  | Some (Some v) => Ret (if truthy v then v else JArray [])
  end.

Definition overview_lesson (text : list N) : JSON :=
  JObject [ (lit "title", JString (lit "Overview"));
            (lit "content", JString text) ].

(** The three [try]/[catch] blocks that close [generateLearningContent]. *)
Definition parse_lessons (text : list N) : Async JSON :=
  try_catch
    (lessonsData ← JSON_parse_js text;
     field_or_empty (lit "lessons") lessonsData)
    (fun _ => Ret (JArray [overview_lesson text])).

Definition parse_questions (text : list N) : Async JSON :=
  try_catch
    (quizData ← JSON_parse_js text;
     field_or_empty (lit "questions") quizData)
    (fun _ => Ret (JArray [])).

Definition parse_flashcards (text : list N) : Async JSON :=
  try_catch
    (flashcardsData ← JSON_parse_js text;
     field_or_empty (lit "flashcards") flashcardsData)
    (fun _ => Ret (JArray [])).

(** The block of [generateNewQuestions]: [newQuestions] keeps its initial
    [[]] when the [try] throws. *)
Definition parse_newQuestions (text : list N) : Async JSON :=
  try_catch
    (quizData ← JSON_parse_js text;
     field_or_empty (lit "questions") quizData)
    (fun _ => act ConsoleError;; Ret (JArray [])).

(** ** Text extraction *)

Fixpoint join (sep : list N) (parts : list (list N)) : list N :=
  match parts with
  | [] => []
  | [p] => p
  | p :: rest => p ++ sep ++ join sep rest
  end.

Definition page_text (items : list PdfItem) : list N :=
  join (lit " ") (map (fun item => default [] item) items).

(** The awaits on pdf.js (document, pages, text contents) settle as one. *)
Definition extractTextFromPDF (file : File) : Async (list N) :=
  AwaitPdf file (fun settled =>
    pages ← settle settled;
    Ret (trim (concat (map (fun p => page_text p ++ newline ++ newline)
                           pages)))).

Definition extractTextFromFile (file : File) : Async (list N) :=
  AwaitReadAsText file (fun settled => settle settled).

Definition extractTextFromPPT (file : File) : Async (list N) :=
  extractTextFromFile file.

Definition transcribeMedia (fileUrl fileName : list N) : Async (list N) :=
  Ret (lit "[Transcription of " ++ fileName ++ lit "]" ++ newline ++ newline
         ++ lit "This is a simulated transcription. In production, this would use a speech-to-text API like OpenAI Whisper to transcribe the audio/video content.").

(** ** The generation pipeline *)

Definition detectLanguage (text : list N) : Async (list N) :=
  response ← mutationFn (detectLanguage_input text);
  Ret (trim (gpt_content response)).

Definition generateSuggestedTitle (text language : list N)
  : Async (list N) :=
  response ← mutationFn (generateSuggestedTitle_input text language);
  Ret (trim (gpt_content response)).

Definition categorizeContent (text language : list N) : Async (list N) :=
  response ← mutationFn (categorizeContent_input text language);
  Ret (trim (gpt_content response)).

Definition generateLearningContent (text : list N) (len : LessonLength)
  : Async LearningContent :=
  act (SetProcessingProgress 10);;
  language ← detectLanguage text;
  act (SetProcessingProgress 25);;
  let config := lessonConfig len in
  lessonsResponse ← mutationFn (lessons_input config text language);
  act (SetProcessingProgress 40);;
  quizResponse ← mutationFn (quiz_input text language);
  act (SetProcessingProgress 60);;
  summaryResponse ← mutationFn (summary_input text language);
  act (SetProcessingProgress 80);;
  flashcardsResponse ← mutationFn (flashcards_input text language);
  act (SetProcessingProgress 100);;
  lessons ← parse_lessons (gpt_content lessonsResponse);
  questions ← parse_questions (gpt_content quizResponse);
  cards ← parse_flashcards (gpt_content flashcardsResponse);
  Ret {| microLessons := lessons;
         quizQuestions := questions;
         summary := gpt_content summaryResponse;
         flashcards := cards;
         lc_detectedLanguage := language |}.

(** ** Upload limits *)

(** [currentUser?.isPremium || false]. *)
Definition effectiveIsPremium (cl : AppState) : bool :=
  match currentUser cl with
  | Some u => isPremium u
  | None => false
  end.

Definition canUpload (cl : AppState) : bool :=
  if effectiveIsPremium cl || sub_isPremium (subscription cl) then true
  else (todayUploadCount cl <? FREE_DAILY_LIMIT)%Z.

Definition incrementUploadCount (cl : AppState) (today : list N)
  : Async unit :=
  let newCount := (todayUploadCount cl + 1)%Z in
  act (SetTodayUploadCount newCount);;
  act (LocalStorageSetItem UPLOAD_LIMIT_KEY (StoredLimits today newCount)).

(** ** The upload handler *)

(** The change event of the file input, with what the handler reads from
    its environment: the value of [`${Date.now()}-${Math.random()}`], of
    [new Date()] and of [new Date().toDateString()]. *)
Record UploadEvent := {
  target_file : option File;
  fresh_id : list N;
  now : Z;
  today : list N
}.

Definition isValidFormat (file : File) : bool :=
  let fileName := toLowerCase (file_name file) in
  let fileType := toLowerCase (file_type file) in
  bool_decide (fileType = lit "application/pdf")
  || includes (lit "presentation") fileType
  || endsWith (lit ".ppt") fileName
  || endsWith (lit ".pptx") fileName
  || startsWith (lit "text/") fileType
  || endsWith (lit ".txt") fileName.

(** [file.type || file.name.split(".").pop() || "unknown"]. *)
Definition actualFileType (file : File) : list N :=
  str_or (file_type file) (str_or (split_dot_pop (file_name file))
                                  (lit "unknown")).

Definition newMaterial (file : File) (ev : UploadEvent) : UploadedMaterial :=
  {| id := fresh_id ev;
     fileName := file_name file;
     fileType := actualFileType file;
     fileUrl := [];
     uploadedAt := now ev;
     extractedText := [];
     detectedLanguage := None;
     suggestedTitle := None;
     thematicCategory := None;
     content := None;
     processingStatus := pending;
     error := None;
     quizResults := None |}.

(** The text extraction chosen by the file's type and name. *)
Definition extractText (file : File) (fileUrl : list N) : Async (list N) :=
  if bool_decide (file_type file = lit "application/pdf")
  then extractTextFromPDF file
  else if includes (lit "presentation") (file_type file)
          || endsWith (lit ".ppt") (file_name file)
          || endsWith (lit ".pptx") (file_name file)
  then extractTextFromPPT file
  else if startsWith (lit "text/") (file_type file)
  then extractTextFromFile file
  else if startsWith (lit "audio/") (file_type file)
          || startsWith (lit "video/") (file_type file)
  then text ← transcribeMedia fileUrl (file_name file); Tick (Ret text)
  else extractTextFromFile file.

(** [error instanceof Error ? error.message : "Unknown error"]. *)
Definition error_message (e : Thrown) : list N :=
  match e with
  | ErrorObject msg => msg
  | NotAnError => lit "Unknown error"
  end.

(** The body of the [try] of [handleFileUpload]. *)
Definition processUpload (cl : AppState) (file : File) (materialId : list N)
  : Async unit :=
  uploadResult ← AwaitUpload file (fun settled => settle settled);
  act (SetMaterials (map_where materialId (fun m =>
         spread_processingStatus processing
           (spread_fileUrl (upload_fileUrl uploadResult) m))));;
  act (SetProcessingProgress 10);;
  text ← extractText file (upload_fileUrl uploadResult);
  act (SetProcessingProgress 20);;
  act (SetMaterials (map_where materialId (spread_extractedText text)));;
  generated ← generateLearningContent text (lessonLength cl);
  title ← generateSuggestedTitle text (lc_detectedLanguage generated);
  category ← categorizeContent text (lc_detectedLanguage generated);
  act (SetMaterials (map_where materialId (fun m =>
         spread_thematicCategory (Some category)
           (spread_suggestedTitle (Some title)
              (spread_detectedLanguage
                 (Some (lc_detectedLanguage generated)) m)))));;
  act (SetMaterials (map_where materialId (fun m =>
         spread_processingStatus completed
           (spread_content (Some generated) m))));;
  act (SetSelectedMaterial (fun prev =>
         match prev with
         | Some p =>
             if decide (id p = materialId)
             then Some (spread_processingStatus completed
                          (spread_content (Some generated) p))
             else prev
         | None => prev
         end)).

Definition handleFileUpload (cl : AppState) (ev : UploadEvent) : Async unit :=
  match target_file ev with
  | None => Ret tt
  | Some file =>
      if negb (effectiveIsPremium cl) && negb (canUpload cl)
      then
        act (SetShowSubscriptionDialog true);;
        act ResetFileInput
      else if negb (isValidFormat file)
      then
        act (Alert (lit "Nur PDF, PPT und Text-Dateien sind erlaubt."));;
        act ResetFileInput
      else
        let materialId := fresh_id ev in
        act (SetMaterials (fun prev => prev ++ [newMaterial file ev]));;
        act (SetSelectedMaterial (fun _ => Some (newMaterial file ev)));;
        act (SetProcessingProgress 0);;
        incrementUploadCount cl (today ev);;
        try_catch (processUpload cl file materialId)
          (fun e =>
             act ConsoleError;;
             act (SetMaterials (map_where materialId (fun m =>
                    spread_error (Some (error_message e))
                      (spread_processingStatus error_status m)))))
  end.

(** ** The other handlers that write the materials *)

Definition selected_is (cl : AppState) (target : list N) : bool :=
  match selectedMaterial cl with
  | Some sel => bool_decide (id sel = target)
  | None => false
  end.

Definition deleteMaterial (cl : AppState) (target : list N) : Async unit :=
  act (SetMaterials (filter (fun m => id m <> target)));;
  if selected_is cl target
  then act (SetSelectedMaterial (fun _ => None))
  else Ret tt.

Definition renameMaterial (cl : AppState) (target newName : list N)
  : Async unit :=
  act (SetMaterials (map_where target (spread_fileName newName)));;
  (if selected_is cl target
   then act (SetSelectedMaterial (fun prev =>
               option_map (spread_fileName newName) prev))
   else Ret tt);;
  act (SetEditingMaterialId None);;
  act (SetEditingName []).

Definition applySuggestedTitle (cl : AppState) (target : list N)
  : Async unit :=
  match find (fun m => bool_decide (id m = target)) (materials cl) with
  | Some material =>
      match suggestedTitle material with
      | Some (c :: cs) =>
          let fileExtension := split_dot_pop (fileName material) in
          renameMaterial cl target ((c :: cs) ++ lit "." ++ fileExtension)
      | _ => Ret tt
      end
  | None => Ret tt
  end.

(** [[...(m.quizResults || []), r]]. *)
Definition append_result (r : QuizResult) (m : UploadedMaterial)
  : UploadedMaterial :=
  spread_quizResults (Some (default [] (quizResults m) ++ [r])) m.

(** The state updates of [saveQuizResult], once [newResult] is tallied
    from the answers given; the handler returns before them when the
    selected material has no quiz questions. *)
Definition saveQuizResult (cl : AppState) (newResult : QuizResult)
  : Async unit :=
  match selectedMaterial cl with
  | Some sel =>
      match content sel with
      | Some c =>
          if truthy (quizQuestions c)
          then
            act (SetMaterials (map_where (id sel) (append_result newResult)));;
            act (SetSelectedMaterial (fun _ =>
                   Some (append_result newResult sel)))
          else Ret tt
      | None => Ret tt
      end
  | None => Ret tt
  end.

(** [{ ...m, content: { ...m.content, quizQuestions: qs } }], for a
    material that has a content. *)
Definition replace_questions (qs : JSON) (m : UploadedMaterial)
  : UploadedMaterial :=
  match content m with
  | Some c => spread_content (Some (spread_quizQuestions qs c)) m
  | None => m
  end.

Section NewQuestions.

(** [x > 0] for the value of an own [length] member of a parsed object:
    the comparison coerces [x] to a number, and throws ([None]) when
    the coercion does. *)
Variable gt_zero : JSON -> option bool.

(** [v.length > 0]. *)
Definition length_gt_zero (v : JSON) : Async bool :=
  match v with
  | JArray items => Ret (bool_decide (items <> []))
  | JString s => Ret (nonempty s)
  | JObject ms =>
      match own_property (lit "length") ms with
      | None => Ret false
      | Some x =>
          match gt_zero x with
          | Some b => Ret b
          | None => Throw engine_error
          end
      end
  | JNull => Throw engine_error
  | JBool _ | JNumber _ => Ret false
  end.

Definition generateNewQuestions (cl : AppState) : Async unit :=
  match selectedMaterial cl with
  | None => Ret tt
  | Some sel =>
      match detectedLanguage sel with
      | Some (l :: ls) =>
          if negb (nonempty (extractedText sel)) then Ret tt
          else
            act (SetIsGeneratingQuestions true);;
            try_finally
              (try_catch
                 (quizResponse ←
                    mutationFn
                      (newQuestions_input (extractedText sel) (l :: ls));
                  newQuestions ←
                    parse_newQuestions (gpt_content quizResponse);
                  positive ← length_gt_zero newQuestions;
                  if positive : bool
                  then
                    act (SetMaterials
                           (map_where (id sel)
                              (replace_questions newQuestions)));;
                    (match content sel with
                     | Some _ =>
                         act (SetSelectedMaterial (fun _ =>
                                Some (replace_questions newQuestions sel)))
                     | None => Ret tt
                     end);;
                    act (SetQuizAnswers ∅);;
                    act (SetRevealedAnswers ∅)
                  else Ret tt)
                 (fun _ => act ConsoleError))
              (act (SetIsGeneratingQuestions false))
      | _ => Ret tt
      end
  end.

End NewQuestions.

(** ** The sort view *)

(** [Array.prototype.sort] with a comparator: a stable sort, in which
    [cmp x y > 0] puts [x] after [y]. (For a comparator that is not
    consistent the order is left to the engine; the properties below
    assume consistency.) *)
Fixpoint insert_stable {A : Type} (cmp : A -> A -> Z) (x : A) (l : list A)
  : list A :=
  match l with
  | [] => [x]
  | y :: l' =>
      if (0 <? cmp x y)%Z then y :: insert_stable cmp x l' else x :: l
  end.

Definition sort {A : Type} (cmp : A -> A -> Z) (l : list A) : list A :=
  foldr (insert_stable cmp) [] l.

Section SortView.

(** [String.prototype.localeCompare] of the host. *)
Variable localeCompare : list N -> list N -> Z.

(** [m.thematicCategory || "Other"]. *)
Definition category_of (m : UploadedMaterial) : list N :=
  match thematicCategory m with
  | Some (c :: cs) => c :: cs
  | _ => lit "Other"
  end.

Definition compare_theme (a b : UploadedMaterial) : Z :=
  let categoryA := category_of a in
  let categoryB := category_of b in
  if decide (categoryA <> categoryB)
  then localeCompare categoryA categoryB
  else (uploadedAt b - uploadedAt a)%Z.

Definition compare_name (a b : UploadedMaterial) : Z :=
  localeCompare (fileName a) (fileName b).

Definition compare_date (a b : UploadedMaterial) : Z :=
  (uploadedAt b - uploadedAt a)%Z.

Definition comparator (key : SortKey)
  : UploadedMaterial -> UploadedMaterial -> Z :=
  match key with
  | by_theme => compare_theme
  | by_name => compare_name
  | by_date => compare_date
  end.

(** The list [getSortedMaterials] returns for the materials [ms]. *)
Definition sorted_view (key : SortKey) (ms : list UploadedMaterial)
  : list UploadedMaterial :=
  sort (comparator key) ms.






End SortView.

(** ** Running one handler to completion

    The collaborators are an environment that settles every promise; the
    n-th chat completion of the run is settled by [env_chat n]. The run
    yields what the handler did, in order, the final state, and how the
    handler's own promise settled. *)

Record Env := {
  env_upload : File -> Outcome UploadFileResponse;
  env_pdf : File -> Outcome (list (list PdfItem));
  env_text : File -> Outcome (list N);
  env_chat : nat -> ChatRequest -> Outcome CompletionResponse
}.

Inductive Event :=
| EvDo (a : Action)
| EvTick
| EvUpload (f : File)
| EvPdf (f : File)
| EvReadAsText (f : File)
| EvCompletion (req : ChatRequest).

Fixpoint run {A : Type} (env : Env) (p : Async A) (calls : nat)
    (st : AppState) : list Event * AppState * Outcome A :=
  match p with
  | Ret a => ([], st, Resolved a)
  | Throw e => ([], st, Rejected e)
  | Do a k =>
      let '(tr, st', r) := run env k calls (apply_action a st) in
      (EvDo a :: tr, st', r)
  | Tick k =>
      let '(tr, st', r) := run env k calls st in (EvTick :: tr, st', r)
  | AwaitUpload f k =>
      let '(tr, st', r) := run env (k (env_upload env f)) calls st in
      (EvUpload f :: tr, st', r)
  | AwaitPdf f k =>
      let '(tr, st', r) := run env (k (env_pdf env f)) calls st in
      (EvPdf f :: tr, st', r)
  | AwaitReadAsText f k =>
      let '(tr, st', r) := run env (k (env_text env f)) calls st in
      (EvReadAsText f :: tr, st', r)
  | AwaitCompletion req k =>
      let '(tr, st', r) :=
        run env (k (env_chat env calls req)) (S calls) st in
      (EvCompletion req :: tr, st', r)
  end.

Definition trace_of {A : Type} (x : list Event * AppState * Outcome A)
  : list Event := x.1.1.

Definition state_of {A : Type} (x : list Event * AppState * Outcome A)
  : AppState := x.1.2.

(** The chat completions requested, in order. *)
Fixpoint chat_calls (tr : list Event) : list ChatRequest :=
  match tr with
  | [] => []
  | EvCompletion req :: tr' => req :: chat_calls tr'
  | _ :: tr' => chat_calls tr'
  end.

(** The values given to [setProcessingProgress], in order. *)
Fixpoint progress_values (tr : list Event) : list Z :=
  match tr with
  | [] => []
  | EvDo (SetProcessingProgress n) :: tr' => n :: progress_values tr'
  | _ :: tr' => progress_values tr'
  end.

(** The handler run by the component in state [st]: its closure is that
    state. *)
Definition upload_run (env : Env) (st : AppState) (ev : UploadEvent)
  : list Event * AppState * Outcome unit :=
  run env (handleFileUpload st ev) 0 st.

(** A click on "new questions" in state [st], run to completion. *)
Definition regeneration_run (gt_zero : JSON -> option bool) (env : Env)
    (st : AppState) : list Event * AppState * Outcome unit :=
  run env (generateNewQuestions gt_zero st) 0 st.

(** ** The component over time

    Between two suspension points a handler runs alone; while it waits,
    other handlers start and other waiting handlers resume. A world is
    the component state with the handlers that wait. *)

(** What the user does to the materials. *)
Inductive UserEvent :=
| ChooseFile (ev : UploadEvent)
| ClickDelete (target : list N)
| SubmitRename (target newName : list N)
| ClickApplyTitle (target : list N)
| FinishQuiz (newResult : QuizResult)
| ClickNewQuestions.

Section World.

Variable gt_zero : JSON -> option bool.

(** The handler an event starts; its closure is the state [cl] of the
    render that the user sees. *)
Definition handler (cl : AppState) (e : UserEvent) : Async unit :=
  match e with
  | ChooseFile ev => handleFileUpload cl ev
  | ClickDelete target => deleteMaterial cl target
  | SubmitRename target newName => renameMaterial cl target newName
  | ClickApplyTitle target => applySuggestedTitle cl target
  | FinishQuiz newResult => saveQuizResult cl newResult
  | ClickNewQuestions => generateNewQuestions gt_zero cl
  end.

(** The material a handler works for: the [materialId] an upload
    generated. *)
Definition owner_of (e : UserEvent) : option (list N) :=
  match e with
  | ChooseFile ev => Some (fresh_id ev)
  | _ => None
  end.

Record Task := { owner : option (list N); prog : Async unit }.

Record World := { app : AppState; waiting : list Task }.

(** The synchronous part of a program: its updates up to the next
    suspension point, and what is left. *)
Fixpoint advance (p : Async unit) (st : AppState) : AppState * Async unit :=
  match p with
  | Do a k => advance k (apply_action a st)
  | _ => (st, p)
  end.

Definition suspended (p : Async unit) : bool :=
  match p with
  | Ret _ | Throw _ | Do _ _ => false
  | _ => true
  end.

(** A waiting program resumes when its promise settles, one way or the
    other. *)
Inductive resumes : Async unit -> Async unit -> Prop :=
| resumes_tick k : resumes (Tick k) k
| resumes_upload f k o : resumes (AwaitUpload f k) (k o)
| resumes_pdf f k o : resumes (AwaitPdf f k) (k o)
| resumes_text f k o : resumes (AwaitReadAsText f k) (k o)
| resumes_completion req k o : resumes (AwaitCompletion req k) (k o).

(** A program that still waits stays among the pending tasks. *)
Definition park (o : option (list N)) (p : Async unit) : list Task :=
  if suspended p then [ {| owner := o; prog := p |} ] else [].

(** The identifier an upload generates is new: no material and no
    running upload has it. *)
Definition fresh_for (w : World) (e : UserEvent) : Prop :=
  match e with
  | ChooseFile ev =>
      (fresh_id ev ∉ map id (materials (app w)))
      /\ (Some (fresh_id ev) ∉ map owner (waiting w))
  | _ => True
  end.

Inductive step : World -> World -> Prop :=
| step_event w e :
    fresh_for w e ->
    step w
      {| app := (advance (handler (app w) e) (app w)).1;
         waiting :=
           waiting w
           ++ park (owner_of e) (advance (handler (app w) e) (app w)).2 |}
| step_resume w before t after q :
    waiting w = before ++ t :: after ->
    resumes (prog t) q ->
    step w
      {| app := (advance q (app w)).1;
         waiting :=
           before ++ park (owner t) (advance q (app w)).2 ++ after |}
| step_other w st :
    (* any other handler: it leaves the materials and their stored
       copy alone *)
    materials st = materials (app w) ->
    localStorage st !! STORAGE_KEY = localStorage (app w) !! STORAGE_KEY ->
    step w {| app := st; waiting := waiting w |}
| step_reload w st :
    (* the page is loaded again: the handlers that waited are gone and
       the materials are those of the stored copy *)
    materials st = load_materials (localStorage (app w)) ->
    localStorage st !! STORAGE_KEY = localStorage (app w) !! STORAGE_KEY ->
    step w {| app := st; waiting := [] |}.

(** The first load of the page, in a browser that stores nothing yet. *)
Definition first_load : World := {| app := initial_state; waiting := [] |}.

Definition reachable (w : World) : Prop := rtc step first_load w.

End World.

(** ** Vocabulary of the properties *)

(** The slice of the generated content a decoder fills. *)
Inductive Slice := Lessons | Questions | Flashcards.

Definition field_of (s : Slice) : list N :=
  match s with
  | Lessons => lit "lessons"
  | Questions => lit "questions"
  | Flashcards => lit "flashcards"
  end.

Definition decoder (s : Slice) : list N -> Async JSON :=
  match s with
  | Lessons => parse_lessons
  | Questions => parse_questions
  | Flashcards => parse_flashcards
  end.



(** Every state update a program can perform satisfies [P], however its
    promises settle. *)
Inductive ActionsIn {A : Type} (P : Action -> Prop) : Async A -> Prop :=
| AI_ret a : ActionsIn P (Ret a)
| AI_throw e : ActionsIn P (Throw e)
| AI_do a k : P a -> ActionsIn P k -> ActionsIn P (Do a k)
| AI_tick k : ActionsIn P k -> ActionsIn P (Tick k)
| AI_upload f k :
    (forall o, ActionsIn P (k o)) -> ActionsIn P (AwaitUpload f k)
| AI_pdf f k :
    (forall o, ActionsIn P (k o)) -> ActionsIn P (AwaitPdf f k)
| AI_text f k :
    (forall o, ActionsIn P (k o)) -> ActionsIn P (AwaitReadAsText f k)
| AI_completion req k :
    (forall o, ActionsIn P (k o)) -> ActionsIn P (AwaitCompletion req k).

(** The updates of the materials that respect a relation on materials. *)
Definition updates_respect (R : UploadedMaterial -> UploadedMaterial -> Prop)
    (a : Action) : Prop :=
  match a with
  | SetMaterials f => forall ms, Forall2 R ms (f ms)
  | _ => True
  end.

(** The actions of the upload after the counter was incremented. *)
Definition after_increment (a : Action) : Prop :=
  match a with
  | SetTodayUploadCount _ | LocalStorageSetItem _ _ => False
  | _ => True
  end.

(** The session is premium: the gate of [handleFileUpload] lets it pass
    whatever the counter. *)
Definition premium_session (st : AppState) : bool :=
  effectiveIsPremium st || sub_isPremium (subscription st).

(** The upload passes the limit gate. *)
Definition passes_gate (st : AppState) : bool :=
  effectiveIsPremium st || canUpload st.

(** How the n-th completion of a run settles for the hook's caller. *)
Definition completion (env : Env) (n : nat) (input : GPTChatInput)
  : Outcome GPTChatResponse :=
  match env_chat env n (request_of input) with
  | Resolved r => read_completion r
  | Rejected e => Rejected e
  end.

(** The chat completions a run requests, in order. *)
Definition calls {A : Type} (env : Env) (p : Async A) (n : nat)
    (st : AppState) : list ChatRequest :=
  chat_calls (trace_of (run env p n st)).

(** The hook's input validation accepts the messages. *)
Definition well_formed (input : GPTChatInput) : bool :=
  match messages input with
  | [] => false
  | _ :: _ =>
      negb (existsb (fun m => negb (nonempty (msg_content m)))
              (messages input))
  end.

(** The requests sent when the inputs are submitted one after the other,
    starting with the n-th completion of the run and stopping at the first
    one that fails. *)
Fixpoint issued (env : Env) (n : nat) (inputs : list GPTChatInput)
  : list ChatRequest :=
  match inputs with
  | [] => []
  | i :: rest =>
      request_of i ::
      match completion env n i with
      | Resolved _ => issued env (S n) rest
      | Rejected _ => []
      end
  end.

(** The stages that follow the language detection, in the order in which
    the upload handler reaches them; each builds its input from the
    language. *)
Definition later_builders (len : LessonLength) (text : list N)
  : list (list N -> GPTChatInput) :=
  [ lessons_input (lessonConfig len) text;
    quiz_input text;
    summary_input text;
    flashcards_input text;
    generateSuggestedTitle_input text;
    categorizeContent_input text ].

Definition later_inputs (len : LessonLength) (text language : list N)
  : list GPTChatInput :=
  map (fun build => build language) (later_builders len text).

Definition pipeline_inputs (len : LessonLength) (text language : list N)
  : list GPTChatInput :=
  detectLanguage_input text :: later_inputs len text language.

(** The order of the written specification: title and category right
    after the language detection. *)
Definition specified_inputs (len : LessonLength) (text language : list N)
  : list GPTChatInput :=
  [ detectLanguage_input text;
    generateSuggestedTitle_input text language;
    categorizeContent_input text language;
    lessons_input (lessonConfig len) text language;
    quiz_input text language;
    summary_input text language;
    flashcards_input text language ].

(** The language the first completion of a run yields for [text]. *)
Definition detected (env : Env) (text : list N) : list N :=
  match completion env 0 (detectLanguage_input text) with
  | Resolved g => trim (gpt_content g)
  | Rejected _ => []
  end.

(** [s] is [raw] without its surrounding white space: what was removed
    at either end is white space, and [s] neither starts nor ends with
    white space. *)
Definition trimmed_of (raw s : list N) : Prop :=
  (exists l r, raw = l ++ s ++ r
     /\ Forall (fun c => is_js_space c = true) l
     /\ Forall (fun c => is_js_space c = true) r)
  /\ (forall c t, s = c :: t -> is_js_space c = false)
  /\ (forall t c, s = t ++ [c] -> is_js_space c = false).

(** The system prompt of an input. *)
Definition system_prompt (input : GPTChatInput) : list N :=
  match messages input with
  | m :: _ => msg_content m
  | [] => []
  end.

(** The system prompt is a fixed text around the language. *)
Definition embeds_language (build : list N -> GPTChatInput) : Prop :=
  exists before after,
    forall language,
      system_prompt (build language) = before ++ language ++ after.

(** Two versions of a material that differ at most in the quiz questions
    of their content. *)
Definition only_questions_differ (m m' : UploadedMaterial) : Prop :=
  id m' = id m /\ fileName m' = fileName m /\ fileType m' = fileType m
  /\ fileUrl m' = fileUrl m /\ uploadedAt m' = uploadedAt m
  /\ extractedText m' = extractedText m
  /\ detectedLanguage m' = detectedLanguage m
  /\ suggestedTitle m' = suggestedTitle m
  /\ thematicCategory m' = thematicCategory m
  /\ processingStatus m' = processingStatus m
  /\ error m' = error m /\ quizResults m' = quizResults m
  /\ match content m, content m' with
     | Some c, Some c' =>
         microLessons c' = microLessons c /\ summary c' = summary c
         /\ flashcards c' = flashcards c
         /\ lc_detectedLanguage c' = lc_detectedLanguage c
     | None, None => True
     | _, _ => False
     end.

(** The regeneration frame: only the questions may differ, and only in a
    material that the selection names. *)
Definition regenerated (target : option (list N)) (m m' : UploadedMaterial)
  : Prop :=
  only_questions_differ m m' /\ (Some (id m) <> target -> m' = m).

(** The identifier of the selected material, when there is one. *)
Definition selected_id (st : AppState) : option (list N) :=
  option_map id (selectedMaterial st).

(** The comparator is consistent on the elements of [l]: two elements
    are not each after the other, and "not after" is transitive. *)
Definition consistent_on {A : Type} (cmp : A -> A -> Z) (l : list A)
  : Prop :=
  (forall a b, a ∈ l -> b ∈ l -> (0 < cmp a b)%Z -> (cmp b a <= 0)%Z)
  /\ (forall a b c, a ∈ l -> b ∈ l -> c ∈ l ->
        (cmp a b <= 0)%Z -> (cmp b c <= 0)%Z -> (cmp a c <= 0)%Z).

(** The invariant of a material: a content exactly when completed, an
    error exactly when in error. *)
Definition material_inv (m : UploadedMaterial) : Prop :=
  (is_Some (content m) <-> processingStatus m = completed)
  /\ (is_Some (error m) <-> processingStatus m = error_status).

(** A material whose upload runs: pending or processing, with neither
    content nor error. *)
Definition inflight (m : UploadedMaterial) : Prop :=
  (processingStatus m = pending \/ processingStatus m = processing)
  /\ content m = None /\ error m = None.

(** Same identifier, same status, and a content and an error present in
    the one exactly when present in the other. *)
Definition same_shape (m m' : UploadedMaterial) : Prop :=
  id m' = id m /\ processingStatus m' = processingStatus m
  /\ (is_Some (content m') <-> is_Some (content m))
  /\ (is_Some (error m') <-> is_Some (error m)).

(** Every material named [i] is in flight. *)
Definition inflight_in (ms : list UploadedMaterial) (i : list N) : Prop :=
  forall m, m ∈ ms -> id m = i -> inflight m.

(** An update on behalf of the upload [i]: what it adds or rewrites is
    named [i], and satisfies [Q] if the materials named [i] were in
    flight. *)
Definition updates_for (i : list N) (Q : UploadedMaterial -> Prop)
    (f : list UploadedMaterial -> list UploadedMaterial) : Prop :=
  forall ms m', m' ∈ f ms ->
    m' ∈ ms \/ (id m' = i /\ (inflight_in ms i -> Q m')).

(** An update that keeps every material in shape. *)
Definition harmless_update
    (f : list UploadedMaterial -> list UploadedMaterial) : Prop :=
  forall ms m', m' ∈ f ms -> exists m, m ∈ ms /\ same_shape m m'.

Definition spares_store (a : Action) : Prop :=
  match a with
  | SetMaterials _ => False
  | LocalStorageSetItem k _ => k <> STORAGE_KEY
  | _ => True
  end.

Definition calm (i : list N) (a : Action) : Prop :=
  match a with
  | SetMaterials f => updates_for i inflight f
  | _ => spares_store a
  end.

Definition harmless (a : Action) : Prop :=
  match a with
  | SetMaterials f => harmless_update f
  | _ => spares_store a
  end.

(** The rest of a handler after its last update of the materials. *)
Inductive Finished : Async unit -> Prop :=
| Finished_ret u : Finished (Ret u)
| Finished_do a k : spares_store a -> Finished k -> Finished (Do a k).

(** A handler that works for the upload [i]: it keeps the materials named
    [i] in flight until one last update, which completes them or records
    their error. *)
Inductive Live (i : list N) : Async unit -> Prop :=
| Live_ret u : Live i (Ret u)
| Live_throw e : Live i (Throw e)
| Live_do a k : calm i a -> Live i k -> Live i (Do a k)
| Live_finish f k :
    updates_for i material_inv f -> Finished k ->
    Live i (Do (SetMaterials f) k)
| Live_tick k : Live i k -> Live i (Tick k)
| Live_upload x k : (forall o, Live i (k o)) -> Live i (AwaitUpload x k)
| Live_pdf x k : (forall o, Live i (k o)) -> Live i (AwaitPdf x k)
| Live_text x k : (forall o, Live i (k o)) -> Live i (AwaitReadAsText x k)
| Live_completion x k :
    (forall o, Live i (k o)) -> Live i (AwaitCompletion x k).

(** The materials in memory and those of the stored copy satisfy the
    invariant. *)
Definition good_store (st : AppState) : Prop :=
  Forall material_inv (materials st)
  /\ Forall material_inv (load_materials (localStorage st)).

Definition task_ok (ms : list UploadedMaterial) (t : Task) : Prop :=
  match owner t with
  | Some i => Live i (prog t) /\ inflight_in ms i
  | None => ActionsIn harmless (prog t)
  end.

(** What holds of every reachable world. *)
Definition world_inv (w : World) : Prop :=
  good_store (app w)
  /\ Forall (task_ok (materials (app w))) (waiting w)
  /\ NoDup (omap owner (waiting w)).

(** ** A sample session *)

(** A back end that answers every completion with [text]. *)
Definition answer (text : list N) : Outcome CompletionResponse :=
  Resolved
    {| response_error := false;
       response_data :=
         Some {| data_id := lit "cmpl-1"; data_model := lit "MaaS_4.1";
                 choices := Some [ {| message := Some (Some text);
                                      finish_reason := lit "stop" |} ];
                 usage := {| prompt_tokens := 0; completion_tokens := 0;
                             total_tokens := 0 |} |} |}.

(** Collaborators that all succeed: the language detection answers
    [" English "], every later completion [{}]. *)
Definition sample_env : Env :=
  {| env_upload := fun _ =>
       Resolved {| upload_fileUrl := lit "https://files.example/notes.txt";
                   upload_fileKey := lit "notes.txt";
                   upload_success := true |};
     env_pdf := fun _ => Resolved [];
     env_text := fun _ => Resolved (lit "Photosynthesis turns light into sugar.");
     env_chat := fun n _ =>
       match n with
       | O => answer (lit " English ")
       | S _ => answer (lit "{}")
       end |}.

Definition sample_file : File :=
  {| file_name := lit "notes.txt"; file_type := lit "text/plain" |}.

Definition sample_event : UploadEvent :=
  {| target_file := Some sample_file;
     fresh_id := lit "1700000000000-0.25";
     now := 1700000000000;
     today := lit "Tue Nov 14 2023" |}.

(** The initial state with the free tier's three uploads used. *)
Definition at_limit : AppState := with_todayUploadCount 3 initial_state.

(** The state once the sample upload has run to its end. *)
Definition after_sample_upload : AppState :=
  state_of (upload_run sample_env initial_state sample_event).

(** That state after a click on "delete" for the uploaded material. *)
Definition after_delete : AppState :=
  state_of (run sample_env
              (deleteMaterial after_sample_upload (fresh_id sample_event))
              0 after_sample_upload).

(** The sample session once the user has picked the uploaded material in
    the list again: the selection is the material of the store. *)
Definition reselected : AppState :=
  with_selectedMaterial (head (materials after_sample_upload))
    after_sample_upload.

(** A back end whose completions hold two quiz questions. *)
Definition quiz_env : Env :=
  {| env_upload := env_upload sample_env;
     env_pdf := env_pdf sample_env;
     env_text := env_text sample_env;
     env_chat := fun _ _ =>
       answer (lit "{" ++ quoted "questions" ++ lit ": [1, 2]}") |}.

(** The world once the sample file is chosen on the first load: the
    material is created and its upload waits. *)
Definition sample_upload_started : World :=
  {| app := (advance (handleFileUpload initial_state sample_event)
               initial_state).1;
     waiting :=
       park (Some (fresh_id sample_event))
         (advance (handleFileUpload initial_state sample_event)
            initial_state).2 |}.

(** A collation to run the sort view with: code units compared one by
    one. *)
Fixpoint code_unit_compare (a b : list N) : Z :=
  match a, b with
  | [], [] => 0
  | [], _ :: _ => -1
  | _ :: _, [] => 1
  | x :: a', y :: b' =>
      if x <? y then -1
      else if y <? x then 1
      else code_unit_compare a' b'
  end.

(** Three materials to sort: two in "Science", one without a category. *)
Definition sample_material (name : string) (category : option (list N))
    (time : Z) : UploadedMaterial :=
  {| id := lit name; fileName := lit name; fileType := lit "text/plain";
     fileUrl := []; uploadedAt := time; extractedText := [];
     detectedLanguage := None; suggestedTitle := None;
     thematicCategory := category; content := None;
     processingStatus := pending; error := None; quizResults := None |}.

Definition sample_materials : list UploadedMaterial :=
  [ sample_material "b.txt" (Some (lit "Science")) 10;
    sample_material "a.txt" None 30;
    sample_material "c.txt" (Some (lit "Science")) 20 ].





(** ** Vocabulary of the further properties *)

(** However the collaborators settle and whatever the state it starts
    in, the run of [p] ends in a state and with an outcome that satisfy
    [post]. *)
Definition ensures {A : Type} (p : Async A)
    (post : AppState -> Outcome A -> Prop) : Prop :=
  forall env n st, post (state_of (run env p n st)) (run env p n st).2.

(** The upload handler accepts the chosen file: there is one, the limit
    gate lets it pass, and its format is allowed. *)
Definition accepts (st : AppState) (ev : UploadEvent) (file : File) : Prop :=
  target_file ev = Some file
  /\ passes_gate st = true
  /\ isValidFormat file = true.

(** The [catch] block of [handleFileUpload]. *)
Definition upload_failed (materialId : list N) (e : Thrown) : Async unit :=
  act ConsoleError;;
  act (SetMaterials (map_where materialId (fun m =>
         spread_error (Some (error_message e))
           (spread_processingStatus error_status m)))).

(** What an accepted upload does before its first [await]. *)
Definition upload_prologue (st : AppState) (ev : UploadEvent) (file : File)
  : list Action :=
  [ SetMaterials (fun prev => prev ++ [newMaterial file ev]);
    SetSelectedMaterial (fun _ => Some (newMaterial file ev));
    SetProcessingProgress 0;
    SetTodayUploadCount (todayUploadCount st + 1);
    LocalStorageSetItem UPLOAD_LIMIT_KEY
      (StoredLimits (today ev) (todayUploadCount st + 1)) ].

(** The state after a list of updates. *)
Definition apply_actions (l : list Action) (st : AppState) : AppState :=
  foldl (fun s a => apply_action a s) st l.

(** The processing of a material has ended, one way or the other. *)
Definition settled (m : UploadedMaterial) : Prop :=
  processingStatus m = completed \/ processingStatus m = error_status.

(** What the pipeline never changes in a material: its identifier, its
    name, its type, its date and its quiz results. *)
Definition keeps_identity (m m' : UploadedMaterial) : Prop :=
  id m' = id m /\ fileName m' = fileName m /\ fileType m' = fileType m
  /\ uploadedAt m' = uploadedAt m /\ quizResults m' = quizResults m.

(** The frame of the upload [i]: it keeps the identity of every material,
    and a material that is not named [i] entirely. *)
Definition processed_from (i : list N) (m m' : UploadedMaterial) : Prop :=
  keeps_identity m m' /\ (id m <> i -> m' = m).

(** The update of the selection that ends a successful upload. *)
Definition select_completed (materialId : list N) (generated : LearningContent)
    (prev : option UploadedMaterial) : option UploadedMaterial :=
  match prev with
  | Some p =>
      if decide (id p = materialId)
      then Some (spread_processingStatus completed
                   (spread_content (Some generated) p))
      else prev
  | None => prev
  end.

(** A back end that fails: the upload resolves, and every completion is
    rejected. *)
Definition offline_env : Env :=
  {| env_upload := env_upload sample_env;
     env_pdf := env_pdf sample_env;
     env_text := env_text sample_env;
     env_chat := fun _ _ => Rejected (ErrorObject (lit "Failed to fetch")) |}.


(** Collaborators whose file upload fails. *)
Definition upload_down_env : Env :=
  {| env_upload := fun _ =>
       Rejected (ErrorObject (lit "S3 upload failed with status 403: Forbidden"));
     env_pdf := env_pdf sample_env;
     env_text := env_text sample_env;
     env_chat := env_chat sample_env |}.

(** A picture: neither a PDF, nor a presentation, nor a text. *)
Definition sample_picture : File :=
  {| file_name := lit "holiday.png"; file_type := lit "image/png" |}.

(** The click on "new questions" passes the guard of the handler: the
    selected material has an extracted text and a detected language. *)
Definition can_regenerate (st : AppState) (sel : UploadedMaterial)
    (language : list N) : Prop :=
  selectedMaterial st = Some sel
  /\ detectedLanguage sel = Some language
  /\ language <> []
  /\ extractedText sel <> [].

(** The material of the sample session, as the store holds it after the
    upload. *)
Definition uploaded_sample : UploadedMaterial :=
  default (newMaterial sample_file sample_event)
    (head (materials after_sample_upload)).


(** The message of the error that the hook's validation throws. *)
Definition validation_error (input : GPTChatInput) : list N :=
  match messages input with
  | [] => lit "At least one message is required"
  | _ :: _ => lit "Each message must have a role and content"
  end.

(** The values that [generateLearningContent] gives to
    [setProcessingProgress] when every completion succeeds. *)
Definition pipeline_progress : list Z := [10; 25; 40; 60; 80; 100]%Z.


(** ** The mount effect: today's upload count

    The stored item decodes to an object whose [date] is compared with
    today's; any other value has no [date] and takes the branch that
    resets the counter. Without a stored item the state keeps its initial
    0. *)
Definition load_upload_limits (today : list N) (ls : gmap string Stored)
  : Z * gmap string Stored :=
  match ls !! UPLOAD_LIMIT_KEY with
  | None => (0%Z, ls)
  | Some (StoredLimits date count) =>
      if decide (date = today)
      then ((if (count =? 0)%Z then 0 else count)%Z, ls)
      else (0%Z, <[UPLOAD_LIMIT_KEY := StoredLimits today 0]> ls)
  | Some _ => (0%Z, <[UPLOAD_LIMIT_KEY := StoredLimits today 0]> ls)
  end.

(** The name [applySuggestedTitle] gives to a material. *)
Definition titled_name (title : list N) (m : UploadedMaterial) : list N :=
  title ++ lit "." ++ split_dot_pop (fileName m).

(** The suggested title of the first material named [target], when it
    has one that is not empty. *)
Definition title_to_apply (st : AppState) (target : list N)
  : option (list N * UploadedMaterial) :=
  match find (fun m => bool_decide (id m = target)) (materials st) with
  | Some material =>
      match suggestedTitle material with
      | Some (c :: cs) => Some (c :: cs, material)
      | _ => None
      end
  | None => None
  end.

(** An update that keeps a stored copy of the materials in step: it
    leaves at least one material, so that the save effect writes, and no
    other write goes to the item of the materials. *)
Definition keeps_copy (a : Action) : Prop :=
  match a with
  | SetMaterials f => forall ms, ms <> [] -> f ms <> []
  | LocalStorageSetItem k _ => k <> STORAGE_KEY
  | _ => True
  end.

(** The stored copy is that of the materials, of which there is one at
    least: loading it gives each of them as it is read back. *)
Definition copy_in_step (st : AppState) : Prop :=
  materials st <> []
  /\ load_materials (localStorage st) = map reloaded (materials st).


(** ** Regular expressions

    Patterns over UTF-16 code units, as far as the components use them
    with [test]: character classes, concatenation and repetition,
    anchored at both ends. [matches r s] follows the derivatives of [r]
    along [s]. *)

Inductive Regex :=
| Re_none
| Re_eps
| Re_class (p : N -> bool)
| Re_seq (r1 r2 : Regex)
| Re_alt (r1 r2 : Regex)
| Re_star (r : Regex).

Definition Re_plus (r : Regex) : Regex := Re_seq r (Re_star r).

Definition Re_char (c : N) : Regex := Re_class (N.eqb c).

Fixpoint nullable (r : Regex) : bool :=
  match r with
  | Re_none | Re_class _ => false
  | Re_eps | Re_star _ => true
  | Re_seq r1 r2 => nullable r1 && nullable r2
  | Re_alt r1 r2 => nullable r1 || nullable r2
  end.

Fixpoint derive (c : N) (r : Regex) : Regex :=
  match r with
  | Re_none | Re_eps => Re_none
  | Re_class p => if p c then Re_eps else Re_none
  | Re_seq r1 r2 =>
      if nullable r1
      then Re_alt (Re_seq (derive c r1) r2) (derive c r2)
      else Re_seq (derive c r1) r2
  | Re_alt r1 r2 => Re_alt (derive c r1) (derive c r2)
  | Re_star r1 => Re_seq (derive c r1) (Re_star r1)
  end.

Fixpoint matches (r : Regex) (s : list N) : bool :=
  match s with
  | [] => nullable r
  | c :: s' => matches (derive c r) s'
  end.

(** The strings of a pattern. *)
Inductive lang : Regex -> list N -> Prop :=
| lang_eps : lang Re_eps []
| lang_class p c : p c = true -> lang (Re_class p) [c]
| lang_seq r1 r2 s1 s2 :
    lang r1 s1 -> lang r2 s2 -> lang (Re_seq r1 r2) (s1 ++ s2)
| lang_alt_l r1 r2 s : lang r1 s -> lang (Re_alt r1 r2) s
| lang_alt_r r1 r2 s : lang r2 s -> lang (Re_alt r1 r2) s
| lang_star_nil r : lang (Re_star r) []
| lang_star_more r s1 s2 :
    lang r s1 -> lang (Re_star r) s2 -> lang (Re_star r) (s1 ++ s2).

(** ** Accounts ([AuthDialog])

    The accounts live in [localStorage] under two keys: the table of
    all accounts, keyed by e-mail address, under [AUTH_STORAGE_KEY], and
    the address of the user who is logged in under
    ["knowly-current-user"]. *)

Definition AUTH_STORAGE_KEY : string := "knowly-user-auth".

(** The user data of an entry as stored: [createdAt] is an ISO string. *)
Record StoredUserData := {
  st_createdAt : IsoDate;
  st_userData : UserData
}.

Record UserEntry := {
  password : list N;
  userData : StoredUserData
}.

(** The two items, as the values their texts decode to. *)
Record AuthItems := {
  user_auth : option (gmap (list N) UserEntry);
  current_user : option (list N)
}.

Definition toJSON_userData (u : UserData) : StoredUserData :=
  {| st_createdAt := Iso (createdAt u); st_userData := u |}.

(** [{ ...userEntry.userData, createdAt: new Date(userEntry.userData.createdAt) }]. *)
Definition revive_userData (su : StoredUserData) : UserData :=
  {| email := email (st_userData su);
     userId := userId (st_userData su);
     isPremium := isPremium (st_userData su);
     createdAt := new_Date (st_createdAt su) |}.

(** [[^\s@]]. *)
Definition not_space_or_at (c : N) : bool :=
  negb (is_js_space c || (c =? 64)).

(** [/^[^\s@]+@[^\s@]+\.[^\s@]+$/]. *)
Definition emailRegex : Regex :=
  Re_seq (Re_plus (Re_class not_space_or_at))
    (Re_seq (Re_char 64)
       (Re_seq (Re_plus (Re_class not_space_or_at))
          (Re_seq (Re_char 46) (Re_plus (Re_class not_space_or_at))))).

Definition validateEmail (address : list N) : bool :=
  matches emailRegex address.

Definition validatePassword (pw : list N) : bool :=
  (6 <=? length pw)%nat.

Inductive AuthTab := tab_login | tab_register.

(** The state of the dialog. *)
Record AuthDialogState := {
  auth_email : list N;
  auth_password : list N;
  confirmPassword : list N;
  isLoading : bool;
  auth_error : list N;
  activeTab : AuthTab
}.

(** What a handler of the dialog leaves behind: the state of the
    dialog, the stored items, and the user it passed to [onAuthSuccess]
    when it did (it then closed the dialog with [onOpenChange(false)]). *)
Record AuthResult := {
  dialog : AuthDialogState;
  items : AuthItems;
  authenticated : option UserData
}.

Definition msg_invalid_email : list N :=
  lit "Bitte geben Sie eine g" ++ [252] ++ lit "ltige E-Mail-Adresse ein".
Definition msg_short_password : list N :=
  lit "Das Passwort muss mindestens 6 Zeichen lang sein".
Definition msg_no_account : list N :=
  lit "Kein Konto mit dieser E-Mail-Adresse gefunden".
Definition msg_wrong_password : list N := lit "Falsches Passwort".
Definition msg_mismatch : list N :=
  lit "Die Passw" ++ [246] ++ lit "rter stimmen nicht " ++ [252]
    ++ lit "berein".
Definition msg_exists : list N :=
  lit "Ein Konto mit dieser E-Mail-Adresse existiert bereits".

(** [storedUsers ? JSON.parse(storedUsers) : {}]. *)
Definition users_of (stored : AuthItems) : gmap (list N) UserEntry :=
  default ∅ (user_auth stored).

(** The handler failed: the [catch] shows the message, the [finally]
    ends the loading. *)
Definition auth_failed (st : AuthDialogState) (stored : AuthItems)
    (message : list N) : AuthResult :=
  {| dialog := {| auth_email := auth_email st;
                  auth_password := auth_password st;
                  confirmPassword := confirmPassword st;
                  isLoading := false;
                  auth_error := message;
                  activeTab := activeTab st |};
     items := stored;
     authenticated := None |}.

(** The handler succeeded: [onAuthSuccess], [onOpenChange(false)],
    [resetForm], and the [finally]. *)
Definition auth_succeeded (st : AuthDialogState) (stored : AuthItems)
    (u : UserData) : AuthResult :=
  {| dialog := {| auth_email := []; auth_password := [];
                  confirmPassword := []; isLoading := false;
                  auth_error := []; activeTab := activeTab st |};
     items := stored;
     authenticated := Some u |}.

Definition handleLogin (st : AuthDialogState) (stored : AuthItems)
  : AuthResult :=
  if negb (validateEmail (auth_email st))
  then auth_failed st stored msg_invalid_email
  else if negb (validatePassword (auth_password st))
  then auth_failed st stored msg_short_password
  else
    match users_of stored !! auth_email st with
    | None => auth_failed st stored msg_no_account
    | Some userEntry =>
        if decide (password userEntry <> auth_password st)
        then auth_failed st stored msg_wrong_password
        else auth_succeeded st stored (revive_userData (userData userEntry))
    end.

(** What [handleRegister] reads from its environment: the value of
    [`user_${Date.now()}_${Math.random().toString(36).substr(2, 9)}`]
    and of [new Date()]. *)
Record RegisterEvent := {
  new_userId : list N;
  registered_at : Z
}.

Definition handleRegister (st : AuthDialogState) (stored : AuthItems)
    (ev : RegisterEvent) : AuthResult :=
  if negb (validateEmail (auth_email st))
  then auth_failed st stored msg_invalid_email
  else if negb (validatePassword (auth_password st))
  then auth_failed st stored msg_short_password
  else if decide (auth_password st <> confirmPassword st)
  then auth_failed st stored msg_mismatch
  else
    match users_of stored !! auth_email st with
    | Some _ => auth_failed st stored msg_exists
    | None =>
        let u := {| email := auth_email st;
                    userId := new_userId ev;
                    isPremium := false;
                    createdAt := registered_at ev |} in
        auth_succeeded st
          {| user_auth :=
               Some (<[auth_email st :=
                         {| password := auth_password st;
                            userData := toJSON_userData u |}]>
                       (users_of stored));
             current_user := current_user stored |}
          u
    end.

Definition getCurrentUser (stored : AuthItems) : option UserData :=
  match current_user stored with
  | None | Some [] => None
  | Some currentUserEmail =>
      match user_auth stored with
      | None => None
      | Some users =>
          match users !! currentUserEmail with
          | Some userEntry => Some (revive_userData (userData userEntry))
          | None => None
          end
      end
  end.

Definition logoutUser (stored : AuthItems) : AuthItems :=
  {| user_auth := user_auth stored; current_user := None |}.

(** [users[email].userData.isPremium = isPremium]. *)
Definition set_isPremium (v : bool) (e : UserEntry) : UserEntry :=
  {| password := password e;
     userData :=
       {| st_createdAt := st_createdAt (userData e);
          st_userData :=
            {| email := email (st_userData (userData e));
               userId := userId (st_userData (userData e));
               isPremium := v;
               createdAt := createdAt (st_userData (userData e)) |} |} |}.

Definition updateUserPremiumStatus (address : list N) (v : bool)
    (stored : AuthItems) : AuthItems :=
  match user_auth stored with
  | None => stored
  | Some users =>
      match users !! address with
      | Some e =>
          {| user_auth := Some (<[address := set_isPremium v e]> users);
             current_user := current_user stored |}
      | None => stored
      end
  end.

(** ** The session handlers of [App] *)

Definition with_currentUser (v : option UserData) (st : AppState) : AppState :=
  {| materials := materials st; selectedMaterial := selectedMaterial st;
     processingProgress := processingProgress st;
     lessonLength := lessonLength st; quizAnswers := quizAnswers st;
     revealedAnswers := revealedAnswers st; sortBy := sortBy st;
     editingMaterialId := editingMaterialId st;
     editingName := editingName st;
     isGeneratingQuestions := isGeneratingQuestions st;
     subscription := subscription st;
     showSubscriptionDialog := showSubscriptionDialog st;
     todayUploadCount := todayUploadCount st; currentUser := v;
     localStorage := localStorage st |}.

(** [setSubscription(v)], and the effect that stores the subscription
    whenever it changes. *)
Definition setSubscription (v : SubscriptionStatus) (st : AppState)
  : AppState :=
  {| materials := materials st; selectedMaterial := selectedMaterial st;
     processingProgress := processingProgress st;
     lessonLength := lessonLength st; quizAnswers := quizAnswers st;
     revealedAnswers := revealedAnswers st; sortBy := sortBy st;
     editingMaterialId := editingMaterialId st;
     editingName := editingName st;
     isGeneratingQuestions := isGeneratingQuestions st;
     subscription := v;
     showSubscriptionDialog := showSubscriptionDialog st;
     todayUploadCount := todayUploadCount st; currentUser := currentUser st;
     localStorage :=
       <[SUBSCRIPTION_KEY := StoredSubscription v]> (localStorage st) |}.

Definition handleAuthSuccess (u : UserData) (st : AppState)
    (stored : AuthItems) : AppState * AuthItems :=
  (setSubscription {| sub_isPremium := isPremium u |}
     (with_currentUser (Some u) st),
   {| user_auth := user_auth stored; current_user := Some (email u) |}).

Definition handleLogout (st : AppState) (stored : AuthItems)
  : AppState * AuthItems :=
  (setSubscription {| sub_isPremium := false |} (with_currentUser None st),
   logoutUser stored).

Definition handlePremiumUpgrade (st : AppState) (stored : AuthItems)
  : AppState * AuthItems :=
  match currentUser st with
  | Some u =>
      (setSubscription {| sub_isPremium := true |}
         (with_currentUser
            (Some {| email := email u; userId := userId u;
                     isPremium := true; createdAt := createdAt u |}) st),
       updateUserPremiumStatus (email u) true stored)
  | None => (st, stored)
  end.

(** The part of the mount effect that restores the session: the user,
    and the subscription, which is the user's when there is one and the
    stored subscription otherwise. *)
Definition load_session (stored : AuthItems) (ls : gmap string Stored)
  : option UserData * SubscriptionStatus :=
  match getCurrentUser stored with
  | Some u => (Some u, {| sub_isPremium := isPremium u |})
  | None =>
      (None,
       match ls !! SUBSCRIPTION_KEY with
       | Some (StoredSubscription s) => s
       | _ => {| sub_isPremium := false |}
       end)
  end.

(** A sample registration. *)
Definition sample_form : AuthDialogState :=
  {| auth_email := lit "ada@example.org";
     auth_password := lit "secret1";
     confirmPassword := lit "secret1";
     isLoading := false; auth_error := []; activeTab := tab_register |}.

Definition no_accounts : AuthItems :=
  {| user_auth := None; current_user := None |}.

Definition sample_registration : RegisterEvent :=
  {| new_userId := lit "user_1700000000000_k3j9x0a1b";
     registered_at := 1700000000000 |}.

(** ** The file upload hook ([useFileUploadMutation])

    Two steps: a presigned URL is requested from the API, then the file
    is PUT to it. The hook is run against an environment that settles
    both requests, and yields the requests it made with what its promise
    settled to. *)

Record PresignRequest := {
  req_fileName : list N;
  req_contentType : list N
}.

Record PresignData := {
  presignedUrl : option (list N);
  realFileUrl : option (list N);
  fileKey : option (list N);
  success : option bool
}.

(** What [postMainOfficialApiPresignS3Upload] resolves to; the error,
    when there is one, with its [message] when it has one. *)
Record PresignResponse := {
  presign_error : option (option (list N));
  presign_data : option PresignData
}.

(** How [fetch] settles: with a response, with a [TypeError], or with
    anything else that is thrown. *)
Inductive FetchSettled :=
| FetchResponse (ok : bool) (status : N) (statusText : list N)
| FetchTypeError (message : list N)
| FetchThrown (e : Thrown).

Record UploadEnv := {
  presign : PresignRequest -> Outcome PresignResponse;
  put : list N -> list N -> FetchSettled
}.

Inductive UploadCall :=
| CallPresign (req : PresignRequest)
| CallPut (url contentType : list N).

(** [file.type || 'application/octet-stream']. *)
Definition contentType_of (file : File) : list N :=
  str_or (file_type file) (lit "application/octet-stream").

(** The decimal digits of a number, as [`${n}`] prints an integer. *)
Fixpoint uint_units (d : Decimal.uint) : list N :=
  match d with
  | Decimal.Nil => []
  | Decimal.D0 d' => 48 :: uint_units d'
  | Decimal.D1 d' => 49 :: uint_units d'
  | Decimal.D2 d' => 50 :: uint_units d'
  | Decimal.D3 d' => 51 :: uint_units d'
  | Decimal.D4 d' => 52 :: uint_units d'
  | Decimal.D5 d' => 53 :: uint_units d'
  | Decimal.D6 d' => 54 :: uint_units d'
  | Decimal.D7 d' => 55 :: uint_units d'
  | Decimal.D8 d' => 56 :: uint_units d'
  | Decimal.D9 d' => 57 :: uint_units d'
  end.

Definition decimal (n : N) : list N := uint_units (N.to_uint n).

(** The [try]/[catch] around [fetch]: what the second step throws, if
    it throws. *)
Definition put_failure (settled : FetchSettled) : option Thrown :=
  match settled with
  | FetchResponse ok status statusText =>
      if ok then None
      else Some (ErrorObject
                   (lit "S3 upload failed with status " ++ decimal status
                      ++ lit ": " ++ statusText))
  | FetchTypeError message =>
      if includes (lit "fetch") message
      then Some (ErrorObject (lit
             "Network error: Unable to upload file. Please check your internet connection and try again."))
      else Some (ErrorObject message)
  | FetchThrown e => Some e
  end.

Definition uploadFile (env : UploadEnv) (file : File)
  : list UploadCall * Outcome UploadFileResponse :=
  let req := {| req_fileName := file_name file;
                req_contentType := contentType_of file |} in
  match presign env req with
  | Rejected e => ([CallPresign req], Rejected e)
  | Resolved presignResponse =>
      match presign_error presignResponse with
      | Some err =>
          ([CallPresign req],
           Rejected (ErrorObject
                       (str_or (default [] err)
                          (lit "Failed to generate presigned URL"))))
      | None =>
          match presign_data presignResponse with
          | None =>
              ([CallPresign req],
               Rejected (ErrorObject (lit
                 "No response data received from presign API")))
          | Some data =>
              match presignedUrl data with
              | None | Some [] =>
                  ([CallPresign req],
                   Rejected (ErrorObject (lit
                     "No presigned URL returned from server")))
              | Some url =>
                  match realFileUrl data with
                  | None | Some [] =>
                      ([CallPresign req],
                       Rejected (ErrorObject (lit
                         "No file URL returned from server")))
                  | Some fileUrl =>
                      ([CallPresign req; CallPut url (contentType_of file)],
                       match put_failure (put env url (contentType_of file)) with
                       | Some e => Rejected e
                       | None =>
                           Resolved
                             {| upload_fileUrl := fileUrl;
                                upload_fileKey := default [] (fileKey data);
                                upload_success := default true (success data) |}
                       end)
                  end
              end
          end
      end
  end.

(** A storage that presigns every upload and accepts every PUT. *)
Definition sample_upload_env : UploadEnv :=
  {| presign := fun req =>
       Resolved
         {| presign_error := None;
            presign_data :=
              Some {| presignedUrl :=
                        Some (lit "https://s3.example/put/" ++ req_fileName req);
                      realFileUrl :=
                        Some (lit "https://files.example/" ++ req_fileName req);
                      fileKey := None;
                      success := None |} |};
     put := fun _ _ => FetchResponse true 200 (lit "OK") |}.


(** ** Math in text ([MathText])

    The component cuts its text into parts, first at display math
    ([$$...$$]), then each text part at inline math ([$...$]), and
    renders the math parts with KaTeX. *)

(** [.] without the [s] flag: any code unit but a line terminator. *)
Definition is_line_terminator (c : N) : bool :=
  (c =? 10) || (c =? 13) || (c =? 8232) || (c =? 8233).

(** The lazy [(.*?)\$\$] under the [s] flag: the shortest content that
    [$$] follows, and what comes after that [$$]. *)
Fixpoint until_dollars (s : list N) : option (list N * list N) :=
  match s with
  | [] => None
  | c :: s' =>
      if startsWith (lit "$$") s then Some ([], drop 2 s)
      else
        match until_dollars s' with
        | Some (content, rest) => Some (c :: content, rest)
        | None => None
        end
  end.

(** One [exec] of [/\$\$(.*?)\$\$/gs] on the text from [lastIndex] on:
    the text before the leftmost match, the content it captures, and the
    text from the new [lastIndex] on. *)
Fixpoint displayMathRegex_exec (s : list N)
  : option (list N * list N * list N) :=
  match s with
  | [] => None
  | c :: s' =>
      match (if startsWith (lit "$$") s then until_dollars (drop 2 s)
             else None) with
      | Some (content, rest) => Some ([], content, rest)
      | None =>
          match displayMathRegex_exec s' with
          | Some (before, content, rest) => Some (c :: before, content, rest)
          | None => None
          end
      end
  end.

(** The lazy [(.*?)\$] without the [s] flag: the content up to the next
    [$], if no line terminator comes first. *)
Fixpoint until_dollar (s : list N) : option (list N * list N) :=
  match s with
  | [] => None
  | c :: s' =>
      if c =? 36 then Some ([], s')
      else if is_line_terminator c then None
      else
        match until_dollar s' with
        | Some (content, rest) => Some (c :: content, rest)
        | None => None
        end
  end.

(** One [exec] of [/\$(.*?)\$/g]. *)
Fixpoint inlineMathRegex_exec (s : list N)
  : option (list N * list N * list N) :=
  match s with
  | [] => None
  | c :: s' =>
      match (if c =? 36 then until_dollar s' else None) with
      | Some (content, rest) => Some ([], content, rest)
      | None =>
          match inlineMathRegex_exec s' with
          | Some (before, content, rest) => Some (c :: before, content, rest)
          | None => None
          end
      end
  end.

(** The parts of the first pass. *)
Inductive Part :=
| TextPart (content : list N)
| MathPart (content : list N) (display : bool).

(** The parts the component renders. *)
Inductive FinalPart :=
| FinalText (content : list N)
| FinalMath (content : list N) (display : bool) (html : list N).

(** [if (lastIndex < text.length) parts.push(text)], and the same test
    for the text before a match. *)
Definition text_part {P : Type} (mk : list N -> P) (s : list N) : list P :=
  if nonempty s then [mk s] else [].

(** The [while] loop over the display math, on the text from
    [lastIndex] on; [fuel] bounds the iterations, and the length of the
    text is enough of it. *)
Fixpoint display_loop (fuel : nat) (s : list N) : list Part :=
  match fuel with
  | O => text_part TextPart s
  | S fuel' =>
      match displayMathRegex_exec s with
      | Some (before, content, rest) =>
          text_part TextPart before
            ++ MathPart content true :: display_loop fuel' rest
      | None => text_part TextPart s
      end
  end.

Section MathText.

(** [katex.renderToString(content, { displayMode, throwOnError: false })]:
    the markup, or [None] when it throws. *)
Variable renderToString : bool -> list N -> option (list N).

(** A math part, rendered; its source with the delimiters when the
    rendering throws. *)
Definition render_math (display : bool) (content : list N) : FinalPart :=
  match renderToString display content with
  | Some html => FinalMath content display html
  | None =>
      FinalText (if display then lit "$$" ++ content ++ lit "$$"
                 else lit "$" ++ content ++ lit "$")
  end.

(** The [while] loop over the inline math of a text part. *)
Fixpoint inline_loop (fuel : nat) (s : list N) : list FinalPart :=
  match fuel with
  | O => text_part FinalText s
  | S fuel' =>
      match inlineMathRegex_exec s with
      | Some (before, content, rest) =>
          text_part FinalText before
            ++ render_math false content :: inline_loop fuel' rest
      | None => text_part FinalText s
      end
  end.

Definition final_parts (part : Part) : list FinalPart :=
  match part with
  | MathPart content display => [render_math display content]
  | TextPart content => inline_loop (length content) content
  end.

(** The value of [processedText]. *)
Definition processedText (text : list N) : list FinalPart :=
  concat (map final_parts (display_loop (length text) text)).

End MathText.

(** The text a part stands for: its content, between its delimiters
    when it is math. *)
Definition source_of (p : FinalPart) : list N :=
  match p with
  | FinalText content => content
  | FinalMath content true _ => lit "$$" ++ content ++ lit "$$"
  | FinalMath content false _ => lit "$" ++ content ++ lit "$"
  end.

(** The content of a formula is free of its delimiter: a display
    formula holds no [$$] and does not end with [$]; an inline formula
    holds neither [$] nor a line terminator. *)
Definition well_delimited (p : FinalPart) : Prop :=
  match p with
  | FinalText _ => True
  | FinalMath content true _ =>
      includes (lit "$$") (content ++ lit "$") = false
  | FinalMath content false _ =>
      Forall (fun c => c <> 36 /\ is_line_terminator c = false) content
  end.

(** A KaTeX that renders every formula as itself. *)
Definition echo_katex (display : bool) (content : list N)
  : option (list N) := Some content.


(** ** What the stored copy gives back *)

(** The numbers of a decoded value are ones that JSON can write: finite,
    and no negative zero. *)
Fixpoint json_storable (v : JSON) : bool :=
  match v with
  | JNumber x => negb (num_overflows x) && negb (num_neg x && num_is_zero x)
  | JArray vs => forallb json_storable vs
  | JObject ms => forallb (fun kv => json_storable kv.2) ms
  | _ => true
  end.

Definition content_storable (c : LearningContent) : bool :=
  json_storable (microLessons c) && json_storable (quizQuestions c)
  && json_storable (flashcards c).

(** The percentage of a result is a finite number, and no negative
    zero: there was a question, and the counts are not a zero over a
    negative number. *)
Definition result_storable (r : QuizResult) : bool :=
  match percentage r with
  | Some (correct, total) =>
      negb (total =? 0)%Z && negb ((correct =? 0)%Z && (total <? 0)%Z)
  | None => true
  end.

(** Every number that the material holds is one that JSON can write. *)
Definition storable (m : UploadedMaterial) : bool :=
  from_option content_storable true (content m)
  && from_option (forallb result_storable) true (quizResults m).

(** [m'] has the fields of [m] that hold no number of a completion and
    no percentage: the identifier, the names, the URL, the dates, the
    texts, the status and the error; of a content the summary and the
    language; of each quiz result the time and the two counts. *)
Definition same_outside_numbers (m m' : UploadedMaterial) : Prop :=
  id m' = id m /\ fileName m' = fileName m /\ fileType m' = fileType m
  /\ fileUrl m' = fileUrl m /\ uploadedAt m' = uploadedAt m
  /\ extractedText m' = extractedText m
  /\ detectedLanguage m' = detectedLanguage m
  /\ suggestedTitle m' = suggestedTitle m
  /\ thematicCategory m' = thematicCategory m
  /\ processingStatus m' = processingStatus m
  /\ error m' = error m
  /\ option_Forall2
       (fun c c' =>
          summary c' = summary c
          /\ lc_detectedLanguage c' = lc_detectedLanguage c)
       (content m) (content m')
  /\ option_Forall2
       (Forall2
          (fun r r' =>
             timestamp r' = timestamp r
             /\ totalQuestions r' = totalQuestions r
             /\ correctAnswers r' = correctAnswers r))
       (quizResults m) (quizResults m').

(** [w] is the value [v] written to JSON and read back: the same
    value, except that a number in it that is not finite is [null], and
    a negative zero is [0]. *)
#[warnings="-register-all"] Inductive written_as : JSON -> JSON -> Prop :=
| written_null : written_as JNull JNull
| written_bool b : written_as (JBool b) (JBool b)
| written_string s : written_as (JString s) (JString s)
| written_finite x :
    num_overflows x = false -> num_neg x && num_is_zero x = false ->
    written_as (JNumber x) (JNumber x)
| written_negative_zero x :
    num_overflows x = false -> num_neg x && num_is_zero x = true ->
    written_as (JNumber x)
      (JNumber {| num_neg := false; num_mantissa := 0; num_exp10 := 0 |})
| written_infinite x :
    num_overflows x = true -> written_as (JNumber x) JNull
| written_array vs ws :
    Forall2 written_as vs ws -> written_as (JArray vs) (JArray ws)
| written_object ms ns :
    Forall2 (fun kv kw => kw.1 = kv.1 /\ written_as kv.2 kw.2) ms ns ->
    written_as (JObject ms) (JObject ns).


(** [p'] is the percentage [p] written to JSON and read back: [null]
    when there was no question to divide by, and the same quotient
    otherwise, a zero without a sign. *)
Definition percentage_read_back (p p' : option (Z * Z)) : Prop :=
  match p with
  | Some (correct, total) =>
      if decide (total = 0%Z) then p' = None
      else exists correct' total',
             p' = Some (correct', total') /\ total' <> 0%Z
             /\ (correct' * total = correct * total')%Z
             /\ (correct' = 0%Z -> (0 < total')%Z)
  | None => p' = None
  end.


(** The numbers of [m'] are those of [m] written to JSON and read
    back: the three decoded slices of the content, and the percentage of
    each quiz result. *)
Definition numbers_written (m m' : UploadedMaterial) : Prop :=
  option_Forall2
    (fun c c' =>
       written_as (microLessons c) (microLessons c')
       /\ written_as (quizQuestions c) (quizQuestions c')
       /\ written_as (flashcards c) (flashcards c'))
    (content m) (content m')
  /\ option_Forall2
       (Forall2 (fun r r' => percentage_read_back (percentage r) (percentage r')))
       (quizResults m) (quizResults m').


(** [m'] restores [m]: outside the numbers always, with its numbers as
    JSON writes them, and so in full when the numbers of [m] are ones
    that JSON can write. *)
Definition restored (m m' : UploadedMaterial) : Prop :=
  same_outside_numbers m m' /\ numbers_written m m'
  /\ (storable m = true -> m' = m).


(** The sample collaborators, but every completion after the first
    answers an object whose lessons are the number [1e999], which
    decodes to [Infinity]. *)
Definition overflow_env : Env :=
  {| env_upload := env_upload sample_env;
     env_pdf := env_pdf sample_env;
     env_text := env_text sample_env;
     env_chat := fun n _ =>
       match n with
       | O => answer (lit " English ")
       | S _ => answer (lit "{" ++ quoted "lessons" ++ lit ": 1e999}")
       end |}.


(** ** Processed uploads *)

(** How the extraction of the text of [file] settles. (It reads neither
    the state nor a completion.) *)
Definition extraction (env : Env) (file : File) (fileUrl : list N)
  : Outcome (list N) :=
  (run env (extractText file fileUrl) 0 initial_state).2.

(** The upload is processed: the handler accepts the file, the file is
    uploaded, and [text] is extracted from it, so that the pipeline
    starts on [text]. *)
Definition processed (env : Env) (st : AppState) (ev : UploadEvent)
    (file : File) (text : list N) : Prop :=
  accepts st ev file
  /\ exists uploaded,
       env_upload env file = Resolved uploaded
       /\ extraction env file (upload_fileUrl uploaded) = Resolved text.

(** The request [req] is the one that the stage [build] sends for
    [language], and the system message it carries is a text that is fixed
    for the stage, around [language] and nothing else. *)
Definition carries_language (language : list N)
    (build : list N -> GPTChatInput) (req : ChatRequest) : Prop :=
  req = request_of (build language)
  /\ exists before after,
       (forall l, system_prompt (build l) = before ++ l ++ after)
       /\ exists m rest,
            body_messages req = m :: rest
            /\ msg_content m = before ++ language ++ after.

(** The text of the sample file, and what the language detection
    answers for it. *)
Definition sample_text : list N :=
  lit "Photosynthesis turns light into sugar.".

Definition sample_detection : GPTChatResponse :=
  {| gpt_content := lit " English ";
     gpt_id := lit "cmpl-1"; gpt_model := lit "MaaS_4.1";
     gpt_usage := {| prompt_tokens := 0; completion_tokens := 0;
                     total_tokens := 0 |};
     finishReason := lit "stop" |}.


(** [m'] is [m] with the quiz questions replaced by [questions], when
    [m] has the identifier [target] and a content; otherwise it is [m].
    Every other field, and every other slice of the content, is that of
    [m] in both cases. *)
Definition questions_replaced (target : list N) (questions : JSON)
    (m m' : UploadedMaterial) : Prop :=
  only_questions_differ m m'
  /\ match content m with
     | Some _ =>
         if decide (id m = target)
         then option_map quizQuestions (content m') = Some questions
         else m' = m
     | None => m' = m
     end.

(** * Properties *)

(** ** Strings *)

Lemma trimStart_split (s : list N) :
  exists l, s = l ++ trimStart s /\ Forall (fun c => is_js_space c = true) l.
Proof.
  induction s as [|c s IH]; simpl.
  - exists []. split; [reflexivity | constructor].
  - destruct (is_js_space c) eqn:E.
    + destruct IH as (l & Hs & Hl). exists (c :: l). split.
      * simpl. congruence.
      * constructor; assumption.
    + exists []. split; [reflexivity | constructor].
Qed.

(** [trim] removes leading and trailing white space and nothing else. *)
Lemma trim_split (s : list N) :
  exists l r, s = l ++ trim s ++ r
    /\ Forall (fun c => is_js_space c = true) l
    /\ Forall (fun c => is_js_space c = true) r.
Proof.
  destruct (trimStart_split s) as (l & Hs & Hl).
  destruct (trimStart_split (rev (trimStart s))) as (r & Hr & Hrs).
  exists l, (rev r). repeat split.
  - unfold trim, trimEnd. rewrite <- rev_app_distr, <- Hr, rev_involutive.
    exact Hs.
  - exact Hl.
  - apply Forall_rev. exact Hrs.
Qed.

Lemma trimStart_head (s : list N) (c : N) (t : list N) :
  trimStart s = c :: t -> is_js_space c = false.
Proof.
  induction s as [|d s IH]; simpl; [discriminate|].
  destruct (is_js_space d) eqn:E; [exact IH|].
  intros [= <- _]. exact E.
Qed.

Lemma trimStart_app_last (l : list N) (c : N) :
  is_js_space c = false -> trimStart (l ++ [c]) = trimStart l ++ [c].
Proof.
  intros Hc. induction l as [|d l IH]; simpl.
  - rewrite Hc. reflexivity.
  - destruct (is_js_space d); [exact IH | reflexivity].
Qed.

Lemma trim_first (s : list N) (c : N) (t : list N) :
  trim s = c :: t -> is_js_space c = false.
Proof.
  unfold trim, trimEnd. destruct (trimStart s) as [|d u] eqn:E.
  - discriminate.
  - pose proof (trimStart_head _ _ _ E) as Hd. simpl.
    rewrite trimStart_app_last by exact Hd.
    rewrite rev_app_distr. simpl. intros [= <- _]. exact Hd.
Qed.

Lemma trim_last (s t : list N) (c : N) :
  trim s = t ++ [c] -> is_js_space c = false.
Proof.
  unfold trim, trimEnd. intros H.
  apply (f_equal (@rev N)) in H.
  rewrite rev_involutive, rev_app_distr in H. simpl in H.
  apply (trimStart_head _ _ _ H).
Qed.

(** [trim] gives the string without its surrounding white space. *)
Lemma trim_trimmed (s : list N) : trimmed_of s (trim s).
Proof.
  split; [apply trim_split|]. split.
  - intros c t. apply trim_first.
  - intros t c. apply trim_last.
Qed.

(** ** Decoding *)

Lemma mbind_bind {A B : Type} (m : Async A) (f : A -> Async B) :
  (m ≫= f) = bind m f.
Proof. reflexivity. Qed.


(** No decoder throws, whatever the text. *)
Lemma decoder_returns (s : Slice) (text : list N) :
  exists v, decoder s text = Ret v.
Proof.
  destruct s; unfold decoder, parse_lessons, parse_questions,
    parse_flashcards, JSON_parse_js, field_or_empty;
    rewrite mbind_bind;
    (destruct (JSON_parse text) as [v|]; simpl; [|eauto]);
    (match goal with
     | |- context [get_field ?n v] => destruct (get_field n v) as [[w|]|]
     end; simpl; eauto).
Qed.




(** ** Programs and their runs *)

Section ActionsInLemmas.
Context {A : Type} (P : Action -> Prop).

Lemma ActionsIn_mono (Q : Action -> Prop) (p : Async A) :
  (forall a, P a -> Q a) -> ActionsIn P p -> ActionsIn Q p.
Proof. intros HPQ H. induction H; constructor; auto. Qed.

Lemma ActionsIn_bind {B : Type} (m : Async A) (f : A -> Async B) :
  ActionsIn P m -> (forall a, ActionsIn P (f a)) -> ActionsIn P (bind m f).
Proof. intros Hm Hf. induction Hm; simpl; try constructor; auto. Qed.

Lemma ActionsIn_mbind {B : Type} (m : Async A) (f : A -> Async B) :
  ActionsIn P m -> (forall a, ActionsIn P (f a)) -> ActionsIn P (m ≫= f).
Proof. apply ActionsIn_bind. Qed.

Lemma ActionsIn_try_catch (m : Async A) (h : Thrown -> Async A) :
  ActionsIn P m -> (forall e, ActionsIn P (h e)) ->
  ActionsIn P (try_catch m h).
Proof. intros Hm Hh. induction Hm; simpl; try constructor; auto. Qed.

Lemma ActionsIn_settle (o : Outcome A) : ActionsIn P (settle o).
Proof. destruct o; constructor. Qed.
End ActionsInLemmas.

Lemma ActionsIn_try_finally {A : Type} (P : Action -> Prop) (m : Async A)
    (f : Async unit) :
  ActionsIn P m -> ActionsIn P f -> ActionsIn P (try_finally m f).
Proof.
  intros Hm Hf. induction Hm; simpl;
    try (apply ActionsIn_bind; [assumption | intros; constructor]);
    constructor; auto.
Qed.

Lemma ActionsIn_act (P : Action -> Prop) (a : Action) :
  P a -> ActionsIn P (act a).
Proof. intros H. constructor; [assumption | constructor]. Qed.

Lemma ActionsIn_mutationFn (P : Action -> Prop) (input : GPTChatInput) :
  ActionsIn P (mutationFn input).
Proof.
  unfold mutationFn. destruct (messages input); [constructor|].
  destruct (existsb _ _); [constructor|].
  constructor. intros o. apply ActionsIn_mbind; intros; apply ActionsIn_settle.
Qed.

Lemma ActionsIn_decoder (P : Action -> Prop) (s : Slice) (text : list N) :
  ActionsIn P (decoder s text).
Proof. destruct (decoder_returns s text) as [v ->]. constructor. Qed.

Lemma ActionsIn_extractText (P : Action -> Prop) (file : File)
    (url : list N) :
  ActionsIn P (extractText file url).
Proof.
  unfold extractText, extractTextFromPDF, extractTextFromPPT,
    extractTextFromFile, transcribeMedia.
  repeat case_match; repeat constructor; intros;
    try apply ActionsIn_mbind; try apply ActionsIn_settle;
    intros; repeat constructor.
Qed.

Ltac actions_in :=
  repeat first
    [ apply ActionsIn_mbind; [|intros]
    | apply ActionsIn_act
    | apply ActionsIn_mutationFn
    | apply ActionsIn_extractText
    | apply (ActionsIn_decoder _ Lessons)
    | apply (ActionsIn_decoder _ Questions)
    | apply (ActionsIn_decoder _ Flashcards)
    | apply ActionsIn_settle
    | apply AI_ret ].

Lemma ActionsIn_generateLearningContent (P : Action -> Prop)
    (text : list N) (len : LessonLength) :
  (forall n, P (SetProcessingProgress n)) ->
  ActionsIn P (generateLearningContent text len).
Proof.
  intros HP. unfold generateLearningContent, detectLanguage.
  actions_in; auto.
Qed.

Lemma ActionsIn_processUpload (P : Action -> Prop) (cl : AppState)
    (file : File) (i : list N) :
  (forall n, P (SetProcessingProgress n)) ->
  (forall f, P (SetMaterials f)) ->
  (forall f, P (SetSelectedMaterial f)) ->
  ActionsIn P (processUpload cl file i).
Proof.
  intros H1 H2 H3.
  unfold processUpload, generateSuggestedTitle, categorizeContent.
  apply ActionsIn_mbind; [constructor; intros; apply ActionsIn_settle|].
  intros. actions_in; auto.
Qed.

(** A field of the state that no action of a program writes is the same
    after the run. *)
Lemma run_frame {A B : Type} (F : AppState -> B) (P : Action -> Prop)
    (env : Env) (p : Async A) :
  (forall a st, P a -> F (apply_action a st) = F st) ->
  ActionsIn P p ->
  forall n st, F (state_of (run env p n st)) = F st.
Proof.
  intros HF Hp. unfold state_of.
  induction Hp; intros n st; simpl; try reflexivity.
  - specialize (IHHp n (apply_action a st)).
    destruct (run env k n (apply_action a st)) as [[tr st'] r]; simpl in *.
    rewrite IHHp. apply HF. assumption.
  - specialize (IHHp n st).
    destruct (run env k n st) as [[tr st'] r]; simpl in *. assumption.
  - specialize (H0 (env_upload env f) n st).
    destruct (run env (k (env_upload env f)) n st) as [[tr st'] r];
      simpl in *; assumption.
  - specialize (H0 (env_pdf env f) n st).
    destruct (run env (k (env_pdf env f)) n st) as [[tr st'] r];
      simpl in *; assumption.
  - specialize (H0 (env_text env f) n st).
    destruct (run env (k (env_text env f)) n st) as [[tr st'] r];
      simpl in *; assumption.
  - specialize (H0 (env_chat env n req) (S n) st).
    destruct (run env (k (env_chat env n req)) (S n) st) as [[tr st'] r];
      simpl in *; assumption.
Qed.

(** ** The limit gate and the upload counter *)

Lemma run_do {A : Type} (env : Env) (a : Action) (k : Async A) (n : nat)
    (st : AppState) :
  run env (Do a k) n st =
    (EvDo a :: trace_of (run env k n (apply_action a st)),
     state_of (run env k n (apply_action a st)),
     (run env k n (apply_action a st)).2).
Proof.
  simpl. destruct (run env k n (apply_action a st)) as [[tr st'] r].
  reflexivity.
Qed.

(** C8. In a session that is not premium and whose daily counter has
    reached 3, choosing a file only opens the subscription dialog and
    clears the file input: no material is created, nothing is uploaded,
    no completion is requested, and the counter and its stored copy stay
    as they are. *)
Theorem free_limit_blocks_upload (env : Env) (st : AppState)
    (ev : UploadEvent) (file : File) :
  target_file ev = Some file ->
  premium_session st = false ->
  todayUploadCount st = FREE_DAILY_LIMIT ->
  trace_of (upload_run env st ev)
    = [EvDo (SetShowSubscriptionDialog true); EvDo ResetFileInput]
  /\ materials (state_of (upload_run env st ev)) = materials st
  /\ todayUploadCount (state_of (upload_run env st ev)) = todayUploadCount st
  /\ localStorage (state_of (upload_run env st ev)) = localStorage st
  /\ showSubscriptionDialog (state_of (upload_run env st ev)) = true.
Proof.
  intros Hfile Hfree Hcount.
  unfold upload_run, handleFileUpload. rewrite Hfile.
  unfold premium_session in Hfree. apply orb_false_iff in Hfree as [Hu Hs].
  unfold canUpload. rewrite Hu, Hs, Hcount. simpl.
  repeat split. exact Hcount.
Qed.

Lemma free_limit_blocks_upload_witness :
  trace_of (upload_run sample_env at_limit sample_event)
    = [EvDo (SetShowSubscriptionDialog true); EvDo ResetFileInput]
  /\ materials (state_of (upload_run sample_env at_limit sample_event))
     = materials at_limit
  /\ todayUploadCount (state_of (upload_run sample_env at_limit sample_event))
     = todayUploadCount at_limit
  /\ localStorage (state_of (upload_run sample_env at_limit sample_event))
     = localStorage at_limit
  /\ showSubscriptionDialog
       (state_of (upload_run sample_env at_limit sample_event)) = true.
Proof.
  apply (free_limit_blocks_upload sample_env at_limit sample_event
           sample_file); reflexivity.
Defined.

Lemma after_increment_count (a : Action) (st : AppState) :
  after_increment a ->
  todayUploadCount (apply_action a st) = todayUploadCount st.
Proof.
  destruct a; simpl; try tauto; intros _; try reflexivity.
  unfold save_materials_effect. simpl. destruct (f (materials st)); reflexivity.
Qed.

Lemma after_increment_stored (a : Action) (st : AppState) :
  after_increment a ->
  localStorage (apply_action a st) !! UPLOAD_LIMIT_KEY
    = localStorage st !! UPLOAD_LIMIT_KEY.
Proof.
  destruct a; simpl; try tauto; intros _; try reflexivity.
  unfold save_materials_effect. simpl.
  destruct (f (materials st)); [reflexivity|]. simpl.
  apply lookup_insert_ne. discriminate.
Qed.

Lemma upload_body_after_increment (cl : AppState) (file : File)
    (i : list N) (h : Thrown -> list N) :
  ActionsIn after_increment
    (try_catch (processUpload cl file i)
       (fun e =>
          act ConsoleError;;
          act (SetMaterials (map_where i (fun m =>
                 spread_error (Some (h e))
                   (spread_processingStatus error_status m)))))).
Proof.
  apply ActionsIn_try_catch.
  - apply ActionsIn_processUpload; intros; exact I.
  - intros e. actions_in; exact I.
Qed.

Lemma upload_body_starts (cl : AppState) (file : File) (i : list N)
    (h : Thrown -> Async unit) :
  exists k, try_catch (processUpload cl file i) h = AwaitUpload file k.
Proof. eexists. reflexivity. Qed.

(** C10. An upload that passes the limit gate and the format check
    increments the daily counter by exactly one, in the state and in
    [localStorage], before the file is uploaded; and the counter keeps
    that value to the end of the run, however the upload, the extraction
    and the completions settle. *)
Theorem upload_consumes_one_slot (env : Env) (st : AppState)
    (ev : UploadEvent) (file : File) :
  target_file ev = Some file ->
  passes_gate st = true ->
  isValidFormat file = true ->
  (exists rest,
     trace_of (upload_run env st ev) =
       EvDo (SetMaterials (fun prev => prev ++ [newMaterial file ev]))
       :: EvDo (SetSelectedMaterial (fun _ => Some (newMaterial file ev)))
       :: EvDo (SetProcessingProgress 0)
       :: EvDo (SetTodayUploadCount (todayUploadCount st + 1))
       :: EvDo (LocalStorageSetItem UPLOAD_LIMIT_KEY
                  (StoredLimits (today ev) (todayUploadCount st + 1)))
       :: EvUpload file :: rest)
  /\ todayUploadCount (state_of (upload_run env st ev))
     = (todayUploadCount st + 1)%Z
  /\ localStorage (state_of (upload_run env st ev)) !! UPLOAD_LIMIT_KEY
     = Some (StoredLimits (today ev) (todayUploadCount st + 1)).
Proof.
  intros Hfile Hgate Hvalid.
  unfold upload_run, handleFileUpload. rewrite Hfile.
  unfold passes_gate in Hgate.
  assert (negb (effectiveIsPremium st) && negb (canUpload st) = false) as ->
    by (destruct (effectiveIsPremium st), (canUpload st); try discriminate;
        reflexivity).
  rewrite Hvalid. cbn [negb].
  pose proof (upload_body_after_increment st file (fresh_id ev) error_message)
    as Hbody.
  destruct (upload_body_starts st file (fresh_id ev)
              (fun e =>
                 act ConsoleError;;
                 act (SetMaterials (map_where (fresh_id ev) (fun m =>
                        spread_error (Some (error_message e))
                          (spread_processingStatus error_status m))))))
    as [k Hk].
  set (body := try_catch _ _) in *.
  unfold incrementUploadCount; rewrite !mbind_bind; cbn [act bind].
  rewrite !run_do. unfold trace_of, state_of. cbn [fst snd].
  split; [| split].
  - rewrite Hk. simpl.
    destruct (run env (k (env_upload env file)) 0 _) as [[tr st'] r].
    eexists. reflexivity.
  - fold (state_of (run env body 0
      (apply_action
         (LocalStorageSetItem UPLOAD_LIMIT_KEY
            (StoredLimits (today ev) (todayUploadCount st + 1)))
         (apply_action (SetTodayUploadCount (todayUploadCount st + 1))
            (apply_action (SetProcessingProgress 0)
               (apply_action
                  (SetSelectedMaterial
                     (fun _ => Some (newMaterial file ev)))
                  (apply_action
                     (SetMaterials
                        (fun prev => prev ++ [newMaterial file ev])) st))))))).
    rewrite (run_frame todayUploadCount after_increment env body
               after_increment_count Hbody).
    reflexivity.
  - fold (state_of (run env body 0
      (apply_action
         (LocalStorageSetItem UPLOAD_LIMIT_KEY
            (StoredLimits (today ev) (todayUploadCount st + 1)))
         (apply_action (SetTodayUploadCount (todayUploadCount st + 1))
            (apply_action (SetProcessingProgress 0)
               (apply_action
                  (SetSelectedMaterial
                     (fun _ => Some (newMaterial file ev)))
                  (apply_action
                     (SetMaterials
                        (fun prev => prev ++ [newMaterial file ev])) st))))))).
    rewrite (run_frame (fun s => localStorage s !! UPLOAD_LIMIT_KEY)
               after_increment env body after_increment_stored Hbody).
    simpl. apply lookup_insert_eq.
Qed.

Lemma upload_consumes_one_slot_witness :
  (exists rest,
     trace_of (upload_run sample_env initial_state sample_event) =
       EvDo (SetMaterials
               (fun prev => prev ++ [newMaterial sample_file sample_event]))
       :: EvDo (SetSelectedMaterial
                  (fun _ => Some (newMaterial sample_file sample_event)))
       :: EvDo (SetProcessingProgress 0)
       :: EvDo (SetTodayUploadCount (todayUploadCount initial_state + 1))
       :: EvDo (LocalStorageSetItem UPLOAD_LIMIT_KEY
                  (StoredLimits (today sample_event)
                     (todayUploadCount initial_state + 1)))
       :: EvUpload sample_file :: rest)
  /\ todayUploadCount (state_of (upload_run sample_env initial_state
                                   sample_event))
     = (todayUploadCount initial_state + 1)%Z
  /\ localStorage (state_of (upload_run sample_env initial_state
                               sample_event)) !! UPLOAD_LIMIT_KEY
     = Some (StoredLimits (today sample_event)
               (todayUploadCount initial_state + 1)).
Proof.
  apply (upload_consumes_one_slot sample_env initial_state sample_event
           sample_file); reflexivity.
Defined.

(** ** The order of the completions *)

Lemma run_bind {A B : Type} (env : Env) (m : Async A) (f : A -> Async B) :
  forall n st,
  run env (bind m f) n st =
    let '(tr, st', r) := run env m n st in
    match r with
    | Resolved a =>
        let '(tr2, st2, r2) :=
          run env (f a) (n + length (chat_calls tr)) st' in
        (tr ++ tr2, st2, r2)
    | Rejected e => (tr, st', Rejected e)
    end.
Proof.
  induction m as [a|e|a k IH|k IH|x k IH|x k IH|x k IH|x k IH];
    intros n st; simpl.
  - rewrite Nat.add_0_r. destruct (run env (f a) n st) as [[tr st'] r].
    reflexivity.
  - reflexivity.
  - rewrite IH. destruct (run env k n _) as [[tr st'] [b|e]]; simpl;
      [destruct (run env (f b) _ st') as [[tr2 st2] r2]|]; reflexivity.
  - rewrite IH. destruct (run env k n _) as [[tr st'] [b|e]]; simpl;
      [destruct (run env (f b) _ st') as [[tr2 st2] r2]|]; reflexivity.
  - rewrite IH. destruct (run env (k _) n _) as [[tr st'] [b|e]]; simpl;
      [destruct (run env (f b) _ st') as [[tr2 st2] r2]|]; reflexivity.
  - rewrite IH. destruct (run env (k _) n _) as [[tr st'] [b|e]]; simpl;
      [destruct (run env (f b) _ st') as [[tr2 st2] r2]|]; reflexivity.
  - rewrite IH. destruct (run env (k _) n _) as [[tr st'] [b|e]]; simpl;
      [destruct (run env (f b) _ st') as [[tr2 st2] r2]|]; reflexivity.
  - rewrite IH. destruct (run env (k _) (S n) _) as [[tr st'] [b|e]]; simpl;
      [rewrite Nat.add_succ_r;
       destruct (run env (f b) _ st') as [[tr2 st2] r2]|]; reflexivity.
Qed.

Lemma chat_calls_app (tr1 tr2 : list Event) :
  chat_calls (tr1 ++ tr2) = chat_calls tr1 ++ chat_calls tr2.
Proof.
  induction tr1 as [|[]]; simpl; try assumption; [reflexivity|].
  f_equal. assumption.
Qed.

Lemma calls_bind {A B : Type} (env : Env) (m : Async A) (f : A -> Async B)
    (n : nat) (st : AppState) :
  calls env (bind m f) n st =
    calls env m n st ++
    match run env m n st with
    | (tr, st', Resolved a) =>
        calls env (f a) (n + length (chat_calls tr)) st'
    | _ => []
    end.
Proof.
  unfold calls, trace_of. rewrite run_bind.
  destruct (run env m n st) as [[tr st'] [a|e]]; simpl.
  - destruct (run env (f a) _ st') as [[tr2 st2] r2]. simpl.
    apply chat_calls_app.
  - rewrite app_nil_r. reflexivity.
Qed.

Lemma calls_try_catch {A : Type} (env : Env) (m : Async A)
    (h : Thrown -> Async A) :
  (forall e n st, calls env (h e) n st = []) ->
  forall n st, calls env (try_catch m h) n st = calls env m n st.
Proof.
  intros Hh. unfold calls, trace_of in *.
  induction m as [a|e|a k IH|k IH|x k IH|x k IH|x k IH|x k IH];
    intros n st; simpl.
  - reflexivity.
  - apply Hh.
  - specialize (IH n (apply_action a st)).
    destruct (run env (try_catch k h) n _) as [[tr st'] r],
             (run env k n _) as [[tr2 st2] r2]. exact IH.
  - specialize (IH n st).
    destruct (run env (try_catch k h) n _) as [[tr st'] r],
             (run env k n _) as [[tr2 st2] r2]. exact IH.
  - specialize (IH (env_upload env x) n st).
    destruct (run env (try_catch _ h) n _) as [[tr st'] r],
             (run env (k _) n _) as [[tr2 st2] r2]. exact IH.
  - specialize (IH (env_pdf env x) n st).
    destruct (run env (try_catch _ h) n _) as [[tr st'] r],
             (run env (k _) n _) as [[tr2 st2] r2]. exact IH.
  - specialize (IH (env_text env x) n st).
    destruct (run env (try_catch _ h) n _) as [[tr st'] r],
             (run env (k _) n _) as [[tr2 st2] r2]. exact IH.
  - specialize (IH (env_chat env n x) (S n) st).
    destruct (run env (try_catch _ h) (S n) _) as [[tr st'] r],
             (run env (k _) (S n) _) as [[tr2 st2] r2]. simpl in *.
    f_equal. exact IH.
Qed.

Lemma mutationFn_well_formed (input : GPTChatInput) :
  well_formed input = true ->
  mutationFn input =
    AwaitCompletion (request_of input) (fun settled =>
      response ← settle settled; settle (read_completion response)).
Proof.
  unfold well_formed, mutationFn. destruct (messages input); [discriminate|].
  destruct (existsb _ _); [discriminate|]. reflexivity.
Qed.

(** One completion: the request is sent, the state is left alone, and the
    caller sees how the hook settles. *)
Lemma run_mutationFn (env : Env) (input : GPTChatInput) (n : nat)
    (st : AppState) :
  well_formed input = true ->
  run env (mutationFn input) n st
    = ([EvCompletion (request_of input)], st, completion env n input).
Proof.
  intros Hwf. rewrite (mutationFn_well_formed _ Hwf). simpl.
  unfold completion.
  destruct (env_chat env n (request_of input)) as [r|e]; simpl;
    [destruct (read_completion r)|]; reflexivity.
Qed.

Lemma calls_stage {B : Type} (env : Env) (input : GPTChatInput)
    (f : GPTChatResponse -> Async B) (n : nat) (st : AppState) :
  well_formed input = true ->
  calls env (bind (mutationFn input) f) n st =
    request_of input ::
    match completion env n input with
    | Resolved g => calls env (f g) (S n) st
    | Rejected _ => []
    end.
Proof.
  intros Hwf. rewrite calls_bind. unfold calls at 1.
  rewrite (run_mutationFn _ _ _ _ Hwf). simpl.
  destruct (completion env n input); [|reflexivity].
  rewrite Nat.add_1_r. reflexivity.
Qed.

Lemma well_formed_inputs (len : LessonLength) (text language : list N) :
  Forall (fun i => well_formed i = true) (pipeline_inputs len text language).
Proof. repeat constructor. Qed.

Lemma well_formed_newQuestions (text language : list N) :
  well_formed (newQuestions_input text language) = true.
Proof. reflexivity. Qed.

Lemma calls_bind_ret {A B : Type} (env : Env) (a : A) (f : A -> Async B)
    (n : nat) (st : AppState) :
  calls env (bind (Ret a) f) n st = calls env (f a) n st.
Proof. reflexivity. Qed.

Lemma calls_bind_act {B : Type} (env : Env) (a : Action)
    (f : unit -> Async B) (n : nat) (st : AppState) :
  calls env (bind (act a) f) n st = calls env (f tt) n (apply_action a st).
Proof.
  unfold calls, trace_of. simpl.
  destruct (run env (f ()) n _) as [[tr st'] r]. reflexivity.
Qed.

Lemma run_bind_assoc {A B C : Type} (env : Env) (m : Async A)
    (f : A -> Async B) (g : B -> Async C) :
  forall n st,
  run env (bind (bind m f) g) n st
    = run env (bind m (fun x => bind (f x) g)) n st.
Proof.
  induction m as [a|e|a k IH|k IH|x k IH|x k IH|x k IH|x k IH];
    intros n st; simpl; try reflexivity; rewrite IH; reflexivity.
Qed.

Lemma calls_bind_assoc {A B C : Type} (env : Env) (m : Async A)
    (f : A -> Async B) (g : B -> Async C) (n : nat) (st : AppState) :
  calls env (bind (bind m f) g) n st
    = calls env (bind m (fun x => bind (f x) g)) n st.
Proof. unfold calls. rewrite run_bind_assoc. reflexivity. Qed.

Lemma calls_bind_decoder {B : Type} (env : Env) (s : Slice) (text : list N)
    (f : JSON -> Async B) (n : nat) (st : AppState) :
  exists v, calls env (bind (decoder s text) f) n st = calls env (f v) n st.
Proof.
  destruct (decoder_returns s text) as [v Hv]. exists v. rewrite Hv.
  reflexivity.
Qed.

(** The text extraction requests no completion. *)
Lemma calls_extractText (env : Env) (file : File) (url : list N) (n : nat)
    (st : AppState) :
  chat_calls (trace_of (run env (extractText file url) n st)) = []
  /\ state_of (run env (extractText file url) n st) = st.
Proof.
  unfold extractText, extractTextFromPDF, extractTextFromPPT,
    extractTextFromFile, transcribeMedia, trace_of, state_of.
  repeat case_match; simpl; unfold mbind, Async_bind; simpl;
    repeat match goal with
    | |- context [settle ?o] => destruct o; simpl
    end; auto.
Qed.

Ltac pipeline_stage :=
  rewrite ?calls_bind_assoc;
  rewrite calls_stage by reflexivity;
  f_equal;
  let g := fresh "g" in
  match goal with
  | |- context [completion ?env ?n ?i] =>
      destruct (completion env n i) as [g|]; [|reflexivity]
  end.

(** From the extracted text on, the handler requests the completions of
    [pipeline_inputs], in that order, until one fails. *)
Lemma calls_after_extraction (env : Env) (cl : AppState) (i : list N)
    (text : list N) (k : LearningContent -> Async unit) (st : AppState) :
  (forall u n st', calls env (k u) n st' = []) ->
  calls env
    (generated ← generateLearningContent text (lessonLength cl);
     title ← generateSuggestedTitle text (lc_detectedLanguage generated);
     category ← categorizeContent text (lc_detectedLanguage generated);
     act (SetMaterials (map_where i (fun m =>
            spread_thematicCategory (Some category)
              (spread_suggestedTitle (Some title)
                 (spread_detectedLanguage
                    (Some (lc_detectedLanguage generated)) m)))));;
     k generated) 0 st
  = issued env 0 (pipeline_inputs (lessonLength cl) text (detected env text)).
Proof.
  intros Hk.
  unfold pipeline_inputs, later_inputs, later_builders,
    generateLearningContent, detectLanguage, generateSuggestedTitle,
    categorizeContent, detected, mbind, Async_bind.
  cbn [issued map].
  rewrite !calls_bind_assoc, calls_bind_act.
  do 5 (pipeline_stage; rewrite ?calls_bind_ret, ?calls_bind_assoc,
          ?calls_bind_act).
  destruct (decoder_returns Lessons (gpt_content g0)) as [v1 Hv1].
  destruct (decoder_returns Questions (gpt_content g1)) as [v2 Hv2].
  destruct (decoder_returns Flashcards (gpt_content g3)) as [v3 Hv3].
  simpl in Hv1, Hv2, Hv3.
  rewrite !calls_bind_assoc, Hv1, calls_bind_ret.
  rewrite !calls_bind_assoc, Hv2, calls_bind_ret.
  rewrite !calls_bind_assoc, Hv3, calls_bind_ret.
  rewrite calls_bind_ret. cbn [lc_detectedLanguage].
  do 2 (pipeline_stage; rewrite ?calls_bind_ret, ?calls_bind_assoc,
          ?calls_bind_act).
  apply Hk.
Qed.

Lemma calls_act (env : Env) (a : Action) (n : nat) (st : AppState) :
  calls env (act a) n st = [].
Proof. reflexivity. Qed.

Lemma calls_bind_resolved {A B : Type} (env : Env) (m : Async A)
    (f : A -> Async B) (n : nat) (st : AppState) (a : A) :
  chat_calls (trace_of (run env m n st)) = [] ->
  (run env m n st).2 = Resolved a ->
  calls env (bind m f) n st = calls env (f a) n (state_of (run env m n st)).
Proof.
  intros H Hr. rewrite calls_bind.
  assert (calls env m n st = []) as -> by exact H.
  unfold trace_of, state_of in *.
  destruct (run env m n st) as [[tr st'] r]; simpl in *. subst r.
  rewrite H, Nat.add_0_r. reflexivity.
Qed.

Lemma extractText_outcome (env : Env) (file : File) (url : list N) (n : nat)
    (st : AppState) :
  (run env (extractText file url) n st).2 = extraction env file url.
Proof.
  unfold extraction, extractText, extractTextFromPDF, extractTextFromPPT,
    extractTextFromFile, transcribeMedia.
  repeat case_match; simpl; unfold mbind, Async_bind; simpl;
    repeat match goal with
    | |- context [settle ?o] => destruct o; simpl
    end; auto.
Qed.

(** The completions of a processed upload: those of the pipeline for the
    text that was extracted. *)
Lemma calls_processed (env : Env) (st : AppState) (ev : UploadEvent)
    (file : File) (text : list N) :
  processed env st ev file text ->
  calls env (handleFileUpload st ev) 0 st
  = issued env 0 (pipeline_inputs (lessonLength st) text (detected env text)).
Proof.
  intros [(Hfile & Hgate & Hfmt) (uploaded & Hup & Hext)].
  unfold handleFileUpload. rewrite Hfile.
  replace (negb (effectiveIsPremium st) && negb (canUpload st)) with false
    by (unfold passes_gate in Hgate;
        destruct (effectiveIsPremium st), (canUpload st);
        first [reflexivity | discriminate]).
  rewrite Hfmt. cbn [negb].
  unfold incrementUploadCount, mbind, Async_bind.
  rewrite !calls_bind_act, calls_bind_assoc, !calls_bind_act.
  rewrite calls_try_catch
    by (intros; rewrite calls_bind_act; apply calls_act).
  unfold processUpload, mbind, Async_bind.
  match goal with
  | |- context [calls env (bind ?m ?f) 0 ?s] =>
      rewrite (calls_bind_resolved env m f 0 s uploaded)
        by (simpl; unfold trace_of; simpl; rewrite Hup; reflexivity)
  end.
  rewrite !calls_bind_act.
  match goal with
  | |- context [calls env (bind ?m ?f) 0 ?s] =>
      rewrite (calls_bind_resolved env m f 0 s text)
        by (first [apply calls_extractText
                  | rewrite extractText_outcome; exact Hext])
  end.
  rewrite !calls_bind_act.
  pose proof (fun H s => calls_after_extraction env st (fresh_id ev) text
           (fun generated =>
              act (SetMaterials (map_where (fresh_id ev) (fun m =>
                     spread_processingStatus completed
                       (spread_content (Some generated) m))));;
              act (SetSelectedMaterial (fun prev =>
                     match prev with
                     | Some p =>
                         if decide (id p = fresh_id ev)
                         then Some (spread_processingStatus completed
                                      (spread_content (Some generated) p))
                         else prev
                     | None => prev
                     end))) s H) as Hcalls.
  unfold mbind, Async_bind in Hcalls. apply Hcalls.
  intros. rewrite calls_bind_act. apply calls_act.
Qed.

Lemma issued_prefix (env : Env) (inputs : list GPTChatInput) :
  forall n, issued env n inputs `prefix_of` map request_of inputs.
Proof.
  induction inputs as [|i rest IH]; intros n; simpl.
  - exists []. reflexivity.
  - destruct (completion env n i).
    + destruct (IH (S n)) as [k Hk]. exists k. simpl. rewrite Hk at 1.
      reflexivity.
    + exists (map request_of rest). reflexivity.
Qed.

Lemma issued_all_from (env : Env) (inputs : list GPTChatInput) :
  forall n,
    (forall k i, inputs !! k = Some i ->
       exists g, completion env (n + k) i = Resolved g) ->
    issued env n inputs = map request_of inputs.
Proof.
  induction inputs as [|i rest IH]; intros n Hok; simpl; [reflexivity|].
  destruct (Hok 0%nat i eq_refl) as [g Hg]. rewrite Nat.add_0_r in Hg.
  rewrite Hg, IH; [reflexivity|].
  intros k j Hj. rewrite Nat.add_succ_l, <- Nat.add_succ_r.
  apply Hok. exact Hj.
Qed.

(** C3 (as amended). A processed upload (the handler accepts the file,
    the file is uploaded and its text extracted) requests its chat
    completions in the order: detect language, lessons, quiz, summary,
    flashcards, and only then title and category. The requests of the
    run are those of that list, one after the other up to the first
    completion that fails: the language detection is always requested,
    the requests are a prefix of the seven, and they are all seven when
    the seven completions succeed. *)
Theorem completions_in_pipeline_order (env : Env) (st : AppState)
    (ev : UploadEvent) (file : File) (text : list N) :
  processed env st ev file text ->
  chat_calls (trace_of (upload_run env st ev))
    = issued env 0
        (pipeline_inputs (lessonLength st) text (detected env text))
  /\ (exists rest,
        chat_calls (trace_of (upload_run env st ev))
        = request_of (detectLanguage_input text) :: rest)
  /\ chat_calls (trace_of (upload_run env st ev))
       `prefix_of` map request_of
                     (pipeline_inputs (lessonLength st) text
                        (detected env text))
  /\ ((forall k i,
         pipeline_inputs (lessonLength st) text (detected env text) !! k
           = Some i ->
         exists g, completion env k i = Resolved g) ->
      chat_calls (trace_of (upload_run env st ev))
      = map request_of
          (pipeline_inputs (lessonLength st) text (detected env text))).
Proof.
  intros Hp. pose proof (calls_processed env st ev file text Hp) as H.
  unfold calls in H. unfold upload_run. rewrite H.
  split; [reflexivity|]. split; [|split].
  - unfold pipeline_inputs. cbn [issued]. eexists. reflexivity.
  - apply issued_prefix.
  - intros Hok. apply issued_all_from. exact Hok.
Qed.

Lemma completions_in_pipeline_order_witness :
  chat_calls (trace_of (upload_run sample_env initial_state sample_event))
    = issued sample_env 0
        (pipeline_inputs (lessonLength initial_state) sample_text
           (detected sample_env sample_text))
  /\ (exists rest,
        chat_calls
          (trace_of (upload_run sample_env initial_state sample_event))
        = request_of (detectLanguage_input sample_text) :: rest)
  /\ chat_calls (trace_of (upload_run sample_env initial_state sample_event))
       `prefix_of` map request_of
                     (pipeline_inputs (lessonLength initial_state)
                        sample_text (detected sample_env sample_text))
  /\ ((forall k i,
         pipeline_inputs (lessonLength initial_state) sample_text
           (detected sample_env sample_text) !! k = Some i ->
         exists g, completion sample_env k i = Resolved g) ->
      chat_calls (trace_of (upload_run sample_env initial_state sample_event))
      = map request_of
          (pipeline_inputs (lessonLength initial_state) sample_text
             (detected sample_env sample_text))).
Proof.
  apply (completions_in_pipeline_order sample_env initial_state sample_event
           sample_file sample_text).
  split; [repeat split|].
  eexists. split; [reflexivity | vm_compute; reflexivity].
Defined.

(** C3 (as stated) fails on the sample run, in which every collaborator
    succeeds: the seven requests are those of [pipeline_inputs], with the
    lessons second and the title sixth, and for no text and language are
    they the requests in the specified order. *)
Lemma title_is_requested_after_flashcards :
  chat_calls (trace_of (upload_run sample_env initial_state sample_event))
    = map request_of
        (pipeline_inputs normal
           (lit "Photosynthesis turns light into sugar.") (lit "English"))
  /\ forall text language,
       chat_calls (trace_of (upload_run sample_env initial_state sample_event))
         <> map request_of (specified_inputs normal text language).
Proof.
  split; [vm_compute; reflexivity|].
  intros text language H.
  apply (f_equal (fun l => take 12 (match l !! 1%nat with
                                     | Some r =>
                                         match body_messages r with
                                         | m :: _ => msg_content m
                                         | [] => []
                                         end
                                     | None => []
                                     end))) in H.
  vm_compute in H. discriminate H.
Qed.

(** C4 on the sample run, in which every collaborator succeeds: after the
    20 that follows the text extraction, [generateLearningContent] sets
    the progress back to 10. *)
Lemma progress_steps_back_after_extraction :
  progress_values
    (trace_of (upload_run sample_env initial_state sample_event))
  = [0; 10; 20; 10; 25; 40; 60; 80; 100]%Z.
Proof. vm_compute. reflexivity. Qed.

Lemma embeds_language_later (len : LessonLength) (text : list N) :
  Forall embeds_language (later_builders len text).
Proof.
  unfold later_builders, embeds_language, system_prompt, lessons_input,
    quiz_input, summary_input, flashcards_input,
    generateSuggestedTitle_input, categorizeContent_input, chat.
  cbn [messages msg_content].
  repeat constructor.
  - exists (lit "You are an educational content creator. Create "
            ++ count (lessonConfig len) ++ lit " "
            ++ detail (lessonConfig len)
            ++ lit " micro-lessons from the provided text. You MUST respond in ").
    eexists. intros language. rewrite <- !app_assoc. reflexivity.
  - eexists _, _. intros language. reflexivity.
  - eexists _, _. intros language. reflexivity.
  - eexists _, _. intros language. reflexivity.
  - eexists _, _. intros language. reflexivity.
  - eexists _, _. intros language. reflexivity.
Qed.

Lemma embeds_language_nonempty (build : list N -> GPTChatInput)
    (language : list N) :
  embeds_language build -> well_formed (build language) = true ->
  carries_language language build (request_of (build language)).
Proof.
  intros (before & after & Hb) Hwf. split; [reflexivity|].
  exists before, after. split; [exact Hb|].
  specialize (Hb language). unfold system_prompt in Hb.
  unfold well_formed in Hwf. cbn [request_of body_messages].
  destruct (messages (build language)) as [|m rest]; [discriminate|].
  exists m, rest. split; [reflexivity | exact Hb].
Qed.

Lemma well_formed_later (len : LessonLength) (text language : list N) :
  Forall (fun build => well_formed (build language) = true)
    (later_builders len text).
Proof.
  unfold later_builders. repeat constructor.
Qed.

Lemma issued_carries (env : Env) (language : list N)
    (builders : list (list N -> GPTChatInput)) :
  Forall embeds_language builders ->
  Forall (fun build => well_formed (build language) = true) builders ->
  forall n,
    exists k,
      (builders <> [] -> (0 < k)%nat)
      /\ Forall2 (carries_language language) (take k builders)
           (issued env n (map (fun build => build language) builders)).
Proof.
  intros Hemb Hwf. induction builders as [|b bs IH]; intros n.
  - exists 0%nat. split; [congruence | constructor].
  - apply Forall_cons in Hemb as [Hb Hemb].
    apply Forall_cons in Hwf as [Hwb Hwf].
    cbn [map issued].
    destruct (completion env n (b language)) as [g|e].
    + destruct (IH Hemb Hwf (S n)) as (k & _ & Hk). exists (S k).
      split; [lia|]. cbn [take]. constructor; [|exact Hk].
      apply embeds_language_nonempty; assumption.
    + exists 1%nat. split; [lia|]. cbn [take]. rewrite take_0.
      constructor; [|constructor].
      apply embeds_language_nonempty; assumption.
Qed.

Lemma map_carries (language : list N)
    (builders : list (list N -> GPTChatInput)) :
  Forall embeds_language builders ->
  Forall (fun build => well_formed (build language) = true) builders ->
  Forall2 (carries_language language) builders
    (map request_of (map (fun build => build language) builders)).
Proof.
  intros Hemb Hwf. induction builders as [|b bs IH]; [constructor|].
  apply Forall_cons in Hemb as [Hb Hemb].
  apply Forall_cons in Hwf as [Hwb Hwf].
  cbn [map]. constructor; [|apply IH; assumption].
  apply embeds_language_nonempty; assumption.
Qed.

(** C7. In a processed upload whose language detection succeeds, every
    completion requested after it (lessons, quiz, summary, flashcards,
    title, category, as far as the run gets, and at least the lessons) is
    the request that its stage builds from the content the detection
    returned with its surrounding white space trimmed and nothing else
    changed, and carries that language inside the system message, which
    is otherwise a text fixed for the stage. When the later completions
    succeed too, these are the requests of all six stages. *)
Theorem detected_language_is_threaded (env : Env) (st : AppState)
    (ev : UploadEvent) (file : File) (text : list N) (g : GPTChatResponse) :
  processed env st ev file text ->
  completion env 0 (detectLanguage_input text) = Resolved g ->
  trimmed_of (gpt_content g) (trim (gpt_content g))
  /\ exists later,
       chat_calls (trace_of (upload_run env st ev))
         = request_of (detectLanguage_input text) :: later
       /\ (exists k,
             (0 < k)%nat
             /\ Forall2 (carries_language (trim (gpt_content g)))
                  (take k (later_builders (lessonLength st) text)) later)
       /\ ((forall k i,
              later_inputs (lessonLength st) text (trim (gpt_content g)) !! k
                = Some i ->
              exists g', completion env (S k) i = Resolved g') ->
           Forall2 (carries_language (trim (gpt_content g)))
             (later_builders (lessonLength st) text) later).
Proof.
  intros Hp Hg. pose proof (calls_processed env st ev file text Hp) as H.
  unfold calls in H. unfold upload_run. rewrite H.
  split; [apply trim_trimmed|].
  unfold pipeline_inputs, detected. cbn [issued]. rewrite Hg.
  eexists. split; [reflexivity|]. split.
  - destruct (issued_carries env (trim (gpt_content g))
                (later_builders (lessonLength st) text)
                (embeds_language_later _ _) (well_formed_later _ _ _) 1)
      as (k & Hk & Hall).
    exists k. split; [apply Hk; discriminate | exact Hall].
  - intros Hok. unfold later_inputs at 1.
    fold (later_inputs (lessonLength st) text (trim (gpt_content g))).
    rewrite issued_all_from by exact Hok.
    apply map_carries;
      [apply embeds_language_later | apply well_formed_later].
Qed.

Lemma detected_language_is_threaded_witness :
  trimmed_of (gpt_content sample_detection)
    (trim (gpt_content sample_detection))
  /\ exists later,
       chat_calls (trace_of (upload_run sample_env initial_state sample_event))
         = request_of (detectLanguage_input sample_text) :: later
       /\ (exists k,
             (0 < k)%nat
             /\ Forall2 (carries_language (trim (gpt_content sample_detection)))
                  (take k (later_builders (lessonLength initial_state)
                             sample_text))
                  later)
       /\ ((forall k i,
              later_inputs (lessonLength initial_state) sample_text
                (trim (gpt_content sample_detection)) !! k = Some i ->
              exists g', completion sample_env (S k) i = Resolved g') ->
           Forall2 (carries_language (trim (gpt_content sample_detection)))
             (later_builders (lessonLength initial_state) sample_text)
             later).
Proof.
  apply (detected_language_is_threaded sample_env initial_state sample_event
           sample_file sample_text sample_detection).
  - split; [repeat split|].
    eexists. split; [reflexivity | vm_compute; reflexivity].
  - vm_compute. reflexivity.
Defined.

(** ** Regenerating the quiz questions *)

Lemma materials_apply_action (a : Action) (st : AppState) :
  materials (apply_action a st) =
    match a with
    | SetMaterials f => f (materials st)
    | _ => materials st
    end.
Proof.
  destruct a; try reflexivity. simpl. unfold save_materials_effect. simpl.
  destruct (f (materials st)); reflexivity.
Qed.

(** A relation between states that every action of a program respects
    holds between the start and the end of a run. *)
Lemma run_related {A : Type} (R : AppState -> AppState -> Prop)
    (P : Action -> Prop) (env : Env) (p : Async A) :
  (forall st, R st st) ->
  (forall a st0 st, P a -> R st0 st -> R st0 (apply_action a st)) ->
  ActionsIn P p ->
  forall n st0 st, R st0 st -> R st0 (state_of (run env p n st)).
Proof.
  intros Hrefl Hstep Hp. unfold state_of.
  induction Hp; intros n st0 st HR; simpl; try assumption.
  - specialize (IHHp n st0 (apply_action a st) (Hstep _ _ _ H HR)).
    destruct (run env k n (apply_action a st)) as [[tr st'] r]. exact IHHp.
  - specialize (IHHp n st0 st HR).
    destruct (run env k n st) as [[tr st'] r]. exact IHHp.
  - specialize (H0 (env_upload env f) n st0 st HR).
    destruct (run env (k _) n st) as [[tr st'] r]. exact H0.
  - specialize (H0 (env_pdf env f) n st0 st HR).
    destruct (run env (k _) n st) as [[tr st'] r]. exact H0.
  - specialize (H0 (env_text env f) n st0 st HR).
    destruct (run env (k _) n st) as [[tr st'] r]. exact H0.
  - specialize (H0 (env_chat env n req) (S n) st0 st HR).
    destruct (run env (k _) (S n) st) as [[tr st'] r]. exact H0.
Qed.

Lemma only_questions_differ_refl (m : UploadedMaterial) :
  only_questions_differ m m.
Proof.
  unfold only_questions_differ. repeat split. destruct (content m); auto.
Qed.

Lemma only_questions_differ_trans (a b c : UploadedMaterial) :
  only_questions_differ a b -> only_questions_differ b c ->
  only_questions_differ a c.
Proof.
  unfold only_questions_differ. intros H1 H2.
  destruct_and!. repeat split; try congruence.
  destruct (content a), (content b), (content c); try tauto.
  destruct_and!. repeat split; congruence.
Qed.

Lemma regenerated_refl (t : option (list N)) (m : UploadedMaterial) :
  regenerated t m m.
Proof. split; [apply only_questions_differ_refl | reflexivity]. Qed.

Lemma regenerated_trans (t : option (list N)) (a b c : UploadedMaterial) :
  regenerated t a b -> regenerated t b c -> regenerated t a c.
Proof.
  intros [H1 K1] [H2 K2]. split.
  - eapply only_questions_differ_trans; eassumption.
  - intros Hne. pose proof (K1 Hne) as Hb. subst b. apply K2. exact Hne.
Qed.

Lemma replace_questions_only (qs : JSON) (m : UploadedMaterial) :
  only_questions_differ m (replace_questions qs m).
Proof.
  unfold only_questions_differ, replace_questions.
  destruct (content m) eqn:E; simpl; rewrite ?E; repeat split.
Qed.

Lemma map_where_replace_questions (sel : UploadedMaterial) (qs : JSON)
    (ms : list UploadedMaterial) :
  Forall2 (regenerated (Some (id sel))) ms
    (map_where (id sel) (replace_questions qs) ms).
Proof.
  unfold map_where. induction ms as [|m ms IH]; simpl; constructor; auto.
  destruct (decide (id m = id sel)) as [E|E].
  - split; [apply replace_questions_only | congruence].
  - apply regenerated_refl.
Qed.

Lemma Forall2_compose {A : Type} (R : A -> A -> Prop) (l1 l2 l3 : list A) :
  (forall a b c, R a b -> R b c -> R a c) ->
  Forall2 R l1 l2 -> Forall2 R l2 l3 -> Forall2 R l1 l3.
Proof.
  intros Htrans H12. revert l3.
  induction H12; intros l3 H23; inversion H23; subst; constructor; eauto.
Qed.

Lemma Forall2_same {A : Type} (R : A -> A -> Prop) (l : list A) :
  (forall a, R a a) -> Forall2 R l l.
Proof. intros Hrefl. induction l; constructor; auto. Qed.

(** A preorder on materials that every update of a program respects
    relates the materials before and after a run, one by one. *)
Lemma run_respects {A : Type}
    (R : UploadedMaterial -> UploadedMaterial -> Prop)
    (env : Env) (p : Async A) (n : nat) (st : AppState) :
  (forall a, R a a) ->
  (forall a b c, R a b -> R b c -> R a c) ->
  ActionsIn (updates_respect R) p ->
  Forall2 R (materials st) (materials (state_of (run env p n st))).
Proof.
  intros Hrefl Htrans Hp.
  apply (run_related
           (fun st0 st1 => Forall2 R (materials st0) (materials st1))
           (updates_respect R) env p).
  - intros. apply Forall2_same. exact Hrefl.
  - intros a st0 st1 Ha H01. rewrite materials_apply_action.
    destruct a; try exact H01. simpl in Ha.
    eapply Forall2_compose; [exact Htrans | exact H01 | apply Ha].
  - exact Hp.
  - apply Forall2_same. exact Hrefl.
Qed.

Lemma ActionsIn_parse_newQuestions (P : Action -> Prop) (text : list N) :
  P ConsoleError -> ActionsIn P (parse_newQuestions text).
Proof.
  intros HP. unfold parse_newQuestions, JSON_parse_js, field_or_empty.
  apply ActionsIn_try_catch.
  - apply ActionsIn_mbind.
    + destruct (JSON_parse text); constructor.
    + intros v. destruct (get_field _ v) as [[w|]|]; constructor.
  - intros e. actions_in. exact HP.
Qed.

Lemma ActionsIn_length_gt_zero (P : Action -> Prop)
    (gt_zero : JSON -> option bool) (v : JSON) :
  ActionsIn P (length_gt_zero gt_zero v).
Proof.
  destruct v; simpl; try constructor.
  destruct (own_property _ _); [destruct (gt_zero _)|]; constructor.
Qed.

Lemma ActionsIn_generateNewQuestions (gt_zero : JSON -> option bool)
    (st : AppState) :
  ActionsIn (updates_respect (regenerated (selected_id st)))
    (generateNewQuestions gt_zero st).
Proof.
  unfold generateNewQuestions, selected_id.
  destruct (selectedMaterial st) as [sel|]; [|constructor].
  cbn [option_map].
  destruct (detectedLanguage sel) as [[|l ls]|]; try constructor.
  destruct (negb (nonempty (extractedText sel))); [constructor|].
  apply ActionsIn_mbind; [apply ActionsIn_act; exact I|intros _].
  apply ActionsIn_try_finally; [|apply ActionsIn_act; exact I].
  apply ActionsIn_try_catch; [|intros; apply ActionsIn_act; exact I].
  apply ActionsIn_mbind; [apply ActionsIn_mutationFn|intros quizResponse].
  apply ActionsIn_mbind;
    [apply ActionsIn_parse_newQuestions; exact I|intros newQuestions].
  apply ActionsIn_mbind; [apply ActionsIn_length_gt_zero|intros [|]];
    [|constructor].
  apply ActionsIn_mbind.
  - apply ActionsIn_act. simpl. apply map_where_replace_questions.
  - intros _. apply ActionsIn_mbind.
    + destruct (content sel); [apply ActionsIn_act; exact I|constructor].
    + intros _. actions_in; exact I.
Qed.

(** C6. Regenerating the quiz questions leaves every material of the
    store as it was, except for the quiz questions of the content of the
    material that is selected: its micro-lessons, summary, flashcards and
    detected language, and all of its other fields, are the same before
    and after, whatever the completion returns. *)
Theorem regeneration_changes_only_questions
    (gt_zero : JSON -> option bool) (env : Env) (st : AppState) :
  Forall2 (regenerated (selected_id st))
    (materials st)
    (materials (state_of (regeneration_run gt_zero env st))).
Proof.
  unfold regeneration_run. apply run_respects.
  - apply regenerated_refl.
  - apply regenerated_trans.
  - apply ActionsIn_generateNewQuestions.
Qed.

(** ** Persistence *)

Lemma toJSON_value_storable :
  forall v : JSON, json_storable v = true -> toJSON_value v = v.
Proof.
  fix IH 1. intros [| b | x | s | vs | ms]; simpl; intros H;
    try reflexivity.
  - unfold toJSON_number. destruct (num_overflows x); [discriminate|].
    destruct (num_neg x && num_is_zero x); [discriminate | reflexivity].
  - f_equal. induction vs as [|v vs IHvs]; simpl in *; [reflexivity|].
    apply andb_true_iff in H as [H1 H2].
    f_equal; [apply IH, H1 | apply IHvs, H2].
  - f_equal. induction ms as [|[k v] ms IHms]; simpl in *; [reflexivity|].
    apply andb_true_iff in H as [H1 H2].
    f_equal; [f_equal; apply IH, H1 | apply IHms, H2].
Qed.

Lemma toJSON_content_storable (c : LearningContent) :
  content_storable c = true -> toJSON_content c = c.
Proof.
  unfold content_storable, toJSON_content. destruct c as [l q s f d].
  cbn [microLessons quizQuestions summary flashcards lc_detectedLanguage].
  rewrite !andb_true_iff. intros [[Hl Hq] Hf].
  rewrite !toJSON_value_storable by assumption. reflexivity.
Qed.

Lemma revive_toJSON_result (r : QuizResult) :
  result_storable r = true -> revive_result (toJSON_result r) = r.
Proof.
  destruct r as [t n c [[pc pt]|]]; unfold result_storable, revive_result;
    cbn; [|reflexivity].
  destruct (pt =? 0)%Z; [discriminate|].
  destruct ((pc =? 0)%Z && (pt <? 0)%Z); [discriminate|]. reflexivity.
Qed.

(** A material whose numbers JSON can write is read back as it was. *)
Lemma revive_toJSON (m : UploadedMaterial) :
  storable m = true -> reloaded m = m.
Proof.
  destruct m as [? ? ? ? ? ? ? ? ? c ? ? q].
  unfold storable, reloaded, revive_material.
  cbn. rewrite andb_true_iff. intros [Hc Hq]. f_equal.
  - destruct c as [c|]; [|reflexivity]. cbn. f_equal.
    apply toJSON_content_storable, Hc.
  - destruct q as [rs|]; [|reflexivity]. cbn in *. f_equal.
    induction rs as [|r rs IH]; cbn in *; [reflexivity|].
    apply andb_true_iff in Hq as [Hr Hrs].
    f_equal; [apply revive_toJSON_result, Hr | apply IH, Hrs].
Qed.

(** What a reload always gives back: every field but the numbers. *)
Lemma reloaded_same_outside_numbers (m : UploadedMaterial) :
  same_outside_numbers m (reloaded m).
Proof.
  destruct m as [? ? ? ? ? ? ? ? ? c ? ? q].
  unfold same_outside_numbers, reloaded, revive_material. cbn.
  repeat split.
  - destruct c as [c|]; constructor. split; reflexivity.
  - destruct q as [rs|]; constructor.
    induction rs as [|r rs IH]; cbn; constructor; [|exact IH].
    repeat split.
Qed.

Lemma written_as_toJSON : forall v : JSON, written_as v (toJSON_value v).
Proof.
  fix IH 1. intros [| b | x | s | vs | ms]; cbn [toJSON_value];
    try constructor.
  - unfold toJSON_number. destruct (num_overflows x) eqn:E1.
    + apply written_infinite, E1.
    + destruct (num_neg x && num_is_zero x) eqn:E2.
      * apply written_negative_zero; assumption.
      * apply written_finite; assumption.
  - induction vs as [|v vs IHvs]; cbn [map]; constructor;
      [apply IH | exact IHvs].
  - induction ms as [|[k v] ms IHms]; cbn [map]; constructor;
      [split; [reflexivity | apply IH] | exact IHms].
Qed.

Lemma percentage_read_back_toJSON (p : option (Z * Z)) :
  percentage_read_back p (toJSON_percentage p).
Proof.
  destruct p as [[c t]|]; cbn; [|reflexivity].
  case_decide as Ht.
  - subst t. reflexivity.
  - destruct (t =? 0)%Z eqn:E; [apply Z.eqb_eq in E; contradiction|].
    destruct (Z.eqb_spec c 0) as [Ec|Ec], (Z.ltb_spec t 0) as [El|El]; cbn;
      do 2 eexists; (split; [reflexivity|]); repeat split; lia.
Qed.

Lemma reloaded_numbers_written (m : UploadedMaterial) :
  numbers_written m (reloaded m).
Proof.
  destruct m as [? ? ? ? ? ? ? ? ? c ? ? q].
  unfold numbers_written, reloaded, revive_material. cbn. split.
  - destruct c as [c|]; constructor. cbn.
    repeat split; apply written_as_toJSON.
  - destruct q as [rs|]; constructor.
    induction rs as [|r rs IH]; cbn; constructor; [|exact IH].
    cbn. apply percentage_read_back_toJSON.
Qed.

Lemma reloaded_restores (m : UploadedMaterial) : restored m (reloaded m).
Proof.
  split; [apply reloaded_same_outside_numbers|].
  split; [apply reloaded_numbers_written | apply revive_toJSON].
Qed.

Lemma material_inv_reloaded (m : UploadedMaterial) :
  material_inv m -> material_inv (reloaded m).
Proof.
  unfold material_inv, reloaded, revive_material. cbn.
  intros [Hc He]. split; [|exact He]. rewrite <- Hc.
  destruct (content m); cbn; split; intros [? H]; eauto; discriminate.
Qed.

(** A change that leaves the collection non-empty is written to
    [localStorage] in full, and loading it back gives the collection as
    it is read back, with its dates revived. *)
Lemma persisted_when_nonempty
    (f : list UploadedMaterial -> list UploadedMaterial) (st : AppState) :
  f (materials st) <> [] ->
  localStorage (apply_action (SetMaterials f) st) !! STORAGE_KEY
    = Some (StoredMaterials (map toJSON_material (f (materials st))))
  /\ load_materials (localStorage (apply_action (SetMaterials f) st))
     = map reloaded (f (materials st)).
Proof.
  intros Hne. unfold load_materials. simpl. unfold save_materials_effect.
  simpl. destruct (f (materials st)) as [|m ms] eqn:E; [congruence|].
  simpl. rewrite lookup_insert_eq. split; [reflexivity|].
  change (map revive_material (map toJSON_material (m :: ms))
          = map reloaded (m :: ms)).
  rewrite map_map. reflexivity.
Qed.

(** C5 on the sample session: deleting the only material empties the
    collection in memory, but the stored copy is not written again, so
    the next load brings the deleted material back. *)
Lemma deleted_last_material_reappears :
  length (materials after_sample_upload) = 1%nat
  /\ materials after_delete = []
  /\ localStorage after_delete !! STORAGE_KEY
     = Some (StoredMaterials
               (map toJSON_material (materials after_sample_upload)))
  /\ load_materials (localStorage after_delete)
     = materials after_sample_upload.
Proof. vm_compute. repeat split. Qed.

(** ** The sort view *)

Section SortLemmas.
Context {A : Type} (cmp : A -> A -> Z).

Lemma insert_stable_perm (x : A) (l : list A) :
  insert_stable cmp x l ≡ₚ x :: l.
Proof.
  induction l as [|y l IH]; simpl; [reflexivity|].
  destruct (0 <? cmp x y)%Z; [|reflexivity].
  rewrite IH. apply Permutation_swap.
Qed.

Lemma sort_perm (l : list A) : sort cmp l ≡ₚ l.
Proof.
  induction l as [|x l IH]; simpl; [reflexivity|].
  rewrite insert_stable_perm, IH. reflexivity.
Qed.

Lemma insert_stable_sorted (u : list A) (x : A) (l : list A) :
  consistent_on cmp u -> x ∈ u -> (forall y, y ∈ l -> y ∈ u) ->
  StronglySorted (fun a b => (cmp a b <= 0)%Z) l ->
  StronglySorted (fun a b => (cmp a b <= 0)%Z) (insert_stable cmp x l).
Proof.
  intros [Hasym Htrans] Hx Hl Hs.
  induction Hs as [|y l Hs IH Hy]; simpl.
  - repeat constructor.
  - destruct (0 <? cmp x y)%Z eqn:E.
    + apply Z.ltb_lt in E. constructor.
      * apply IH. intros z Hz. apply Hl. right. exact Hz.
      * apply Forall_forall. intros z Hz.
        rewrite insert_stable_perm in Hz.
        apply elem_of_cons in Hz as [->|Hz].
        -- apply Hasym; [exact Hx | apply Hl; left | exact E].
        -- rewrite Forall_forall in Hy. apply Hy. exact Hz.
    + apply Z.ltb_ge in E. constructor.
      * constructor; assumption.
      * constructor; [exact E|].
        apply Forall_forall. intros z Hz.
        rewrite Forall_forall in Hy.
        apply (Htrans x y z); auto.
        -- apply Hl. left.
        -- apply Hl. right. exact Hz.
Qed.

Lemma sort_sorted_on (u l : list A) :
  consistent_on cmp u -> (forall y, y ∈ l -> y ∈ u) ->
  StronglySorted (fun a b => (cmp a b <= 0)%Z) (sort cmp l).
Proof.
  intros Hc. induction l as [|x l IH]; intros Hl; simpl.
  - constructor.
  - apply (insert_stable_sorted u); auto.
    + apply Hl. left.
    + intros y Hy. rewrite sort_perm in Hy. apply Hl. right. exact Hy.
    + apply IH. intros y Hy. apply Hl. right. exact Hy.
Qed.

End SortLemmas.

Lemma StronglySorted_weaken {A : Type} (R S : A -> A -> Prop) (l : list A) :
  (forall a b, a ∈ l -> b ∈ l -> R a b -> S a b) ->
  StronglySorted R l -> StronglySorted S l.
Proof.
  intros HRS Hs. induction Hs as [|x l Hs IH Hx]; constructor.
  - apply IH. intros a b Ha Hb. apply HRS; right; assumption.
  - rewrite Forall_forall in *. intros y Hy. apply HRS; auto.
    + left.
    + right. exact Hy.
Qed.










Example sample_theme_view :
  map fileName (sorted_view code_unit_compare by_theme sample_materials)
  = [lit "a.txt"; lit "c.txt"; lit "b.txt"].
Proof. vm_compute. reflexivity. Qed.




(** ** The invariant of the materials *)

Lemma inflight_inv (m : UploadedMaterial) : inflight m -> material_inv m.
Proof.
  intros [Hs [Hc He]]. unfold material_inv. rewrite Hc, He.
  split; split; intros H; try (destruct H; discriminate);
    destruct Hs as [Hs|Hs]; rewrite Hs in H; discriminate.
Qed.

Lemma same_shape_refl (m : UploadedMaterial) : same_shape m m.
Proof. unfold same_shape. tauto. Qed.

Lemma same_shape_inv (m m' : UploadedMaterial) :
  same_shape m m' -> material_inv m -> material_inv m'.
Proof.
  unfold same_shape, material_inv. intros (_ & -> & -> & ->). tauto.
Qed.

Lemma same_shape_inflight (m m' : UploadedMaterial) :
  same_shape m m' -> inflight m -> inflight m'.
Proof.
  unfold same_shape, inflight. intros (_ & -> & Hc & He) (Hs & Hc' & He').
  split; [exact Hs|]. rewrite Hc' in Hc. rewrite He' in He. split.
  - destruct (content m'); [|reflexivity].
    destruct Hc as [Hc _]. destruct Hc; eauto; discriminate.
  - destruct (error m'); [|reflexivity].
    destruct He as [He _]. destruct He; eauto; discriminate.
Qed.

(** The stored copy follows a change of the materials. *)
Lemma good_store_set
    (f : list UploadedMaterial -> list UploadedMaterial) (st : AppState) :
  good_store st -> Forall material_inv (f (materials st)) ->
  good_store (apply_action (SetMaterials f) st).
Proof.
  intros [_ Hls] Hnew. unfold good_store. rewrite materials_apply_action.
  split; [exact Hnew|].
  destruct (f (materials st)) as [|m ms] eqn:E.
  - simpl. unfold save_materials_effect. simpl. rewrite E. exact Hls.
  - rewrite (proj2 (persisted_when_nonempty f st ltac:(congruence))).
    rewrite E. apply Forall_map.
    eapply Forall_impl; [exact Hnew|]. apply material_inv_reloaded.
Qed.

Lemma good_store_spared (a : Action) (st : AppState) :
  spares_store a -> good_store st -> good_store (apply_action a st).
Proof.
  intros Ha [Hm Hls].
  destruct a; simpl in Ha; try tauto; try (split; assumption).
  split; [exact Hm|]. unfold load_materials in *. simpl.
  rewrite lookup_insert_ne by exact Ha. exact Hls.
Qed.

Lemma materials_spared (a : Action) (st : AppState) :
  spares_store a -> materials (apply_action a st) = materials st.
Proof. rewrite materials_apply_action. destruct a; simpl; tauto. Qed.

Lemma Live_bind {A : Type} (i : list N) (m : Async A)
    (f : A -> Async unit) :
  ActionsIn (calm i) m -> (forall a, Live i (f a)) -> Live i (bind m f).
Proof.
  intros Hm Hf. induction Hm; simpl; auto; constructor; auto.
Qed.

Lemma Live_mbind {A : Type} (i : list N) (m : Async A)
    (f : A -> Async unit) :
  ActionsIn (calm i) m -> (forall a, Live i (f a)) -> Live i (m ≫= f).
Proof. apply Live_bind. Qed.

Lemma Finished_try_catch (k : Async unit) (h : Thrown -> Async unit) :
  Finished k -> try_catch k h = k.
Proof. induction 1; simpl; congruence. Qed.

Lemma Live_try_catch (i : list N) (p : Async unit)
    (h : Thrown -> Async unit) :
  Live i p -> (forall e, Live i (h e)) -> Live i (try_catch p h).
Proof.
  intros Hp Hh. induction Hp; simpl; auto; try (constructor; auto; fail).
  - rewrite Finished_try_catch by assumption.
    apply Live_finish; assumption.
Qed.

Lemma updates_for_map_where (i : list N) (Q : UploadedMaterial -> Prop)
    (g : UploadedMaterial -> UploadedMaterial) :
  (forall m, id (g m) = id m) ->
  (forall m, inflight m -> Q (g m)) ->
  updates_for i Q (map_where i g).
Proof.
  intros Hid HQ ms m' Hm'. unfold map_where in Hm'.
  apply list_elem_of_fmap in Hm' as (m & -> & Hm).
  destruct (decide (id m = i)) as [E|E]; [right|left; exact Hm].
  split; [rewrite Hid; exact E|]. intros Hin. apply HQ, (Hin m Hm E).
Qed.

Lemma updates_for_append (i : list N) (new : UploadedMaterial) :
  id new = i -> inflight new ->
  updates_for i inflight (fun prev => prev ++ [new]).
Proof.
  intros Hid Hnew ms m' Hm'. apply elem_of_app in Hm' as [H|H];
    [left; exact H|right].
  apply list_elem_of_singleton in H as ->. auto.
Qed.

Lemma harmless_map_where (t : list N)
    (g : UploadedMaterial -> UploadedMaterial) :
  (forall m, same_shape m (g m)) -> harmless_update (map_where t g).
Proof.
  intros Hg ms m' Hm'. unfold map_where in Hm'.
  apply list_elem_of_fmap in Hm' as (m & -> & Hm). exists m.
  split; [exact Hm|]. destruct (decide (id m = t)); [apply Hg|].
  apply same_shape_refl.
Qed.

Lemma harmless_filter (P : UploadedMaterial -> Prop)
    `{forall m, Decision (P m)} :
  harmless_update (filter P).
Proof.
  intros ms m' Hm'. apply list_elem_of_filter in Hm' as [_ Hm'].
  exists m'. split; [exact Hm' | apply same_shape_refl].
Qed.

Ltac calm_actions :=
  repeat first
    [ apply ActionsIn_generateLearningContent; intros
    | apply ActionsIn_mutationFn
    | apply ActionsIn_extractText
    | apply ActionsIn_act
    | apply ActionsIn_settle
    | apply ActionsIn_mbind; [|intros]
    | apply AI_ret
    | apply AI_upload; intros
    | exact I ].

(** The upload handler works for the material it creates. *)
Lemma Live_handleFileUpload (cl : AppState) (ev : UploadEvent) :
  Live (fresh_id ev) (handleFileUpload cl ev).
Proof.
  unfold handleFileUpload.
  destruct (target_file ev) as [file|]; [|constructor].
  destruct (negb (effectiveIsPremium cl) && negb (canUpload cl)).
  { repeat constructor. }
  destruct (negb (isValidFormat file)).
  { repeat constructor. }
  apply Live_mbind.
  { apply ActionsIn_act. apply updates_for_append; [reflexivity|].
    unfold inflight. simpl. auto. }
  intros _. apply Live_mbind; [calm_actions|intros _].
  apply Live_mbind; [calm_actions|intros _].
  apply Live_mbind.
  { unfold incrementUploadCount. calm_actions. simpl. discriminate. }
  intros _. apply Live_try_catch.
  - unfold processUpload, generateSuggestedTitle, categorizeContent.
    apply Live_mbind; [calm_actions|intros uploadResult].
    apply Live_mbind.
    { apply ActionsIn_act. apply updates_for_map_where; [reflexivity|].
      unfold inflight. simpl. tauto. }
    intros _. apply Live_mbind; [calm_actions|intros _].
    apply Live_mbind; [calm_actions|intros text].
    apply Live_mbind; [calm_actions|intros _].
    apply Live_mbind.
    { apply ActionsIn_act. apply updates_for_map_where; [reflexivity|].
      unfold inflight. simpl. tauto. }
    intros _. apply Live_mbind; [calm_actions|intros generated].
    apply Live_mbind; [calm_actions|intros title].
    apply Live_mbind; [calm_actions|intros category].
    apply Live_mbind.
    { apply ActionsIn_act. apply updates_for_map_where; [reflexivity|].
      unfold inflight. simpl. tauto. }
    intros _. apply Live_finish; [|repeat constructor].
    apply updates_for_map_where; [reflexivity|].
    unfold inflight, material_inv. simpl. intros m (_ & _ & ->).
    split; split; intros H; try discriminate; eauto.
    destruct H; discriminate.
  - intros e. apply Live_do; [exact I|].
    apply Live_finish; [|repeat constructor].
    apply updates_for_map_where; [reflexivity|].
    unfold inflight, material_inv. simpl. intros m (_ & -> & _).
    split; split; intros H; try discriminate; eauto.
    destruct H; discriminate.
Qed.

Lemma harmless_deleteMaterial (cl : AppState) (target : list N) :
  ActionsIn harmless (deleteMaterial cl target).
Proof.
  unfold deleteMaterial. apply ActionsIn_mbind.
  - apply ActionsIn_act. simpl. apply harmless_filter.
  - intros _. destruct (selected_is cl target); repeat constructor.
Qed.

Lemma harmless_renameMaterial (cl : AppState) (target newName : list N) :
  ActionsIn harmless (renameMaterial cl target newName).
Proof.
  unfold renameMaterial. apply ActionsIn_mbind.
  - apply ActionsIn_act. simpl. apply harmless_map_where.
    intros m. unfold same_shape. simpl. tauto.
  - intros _. apply ActionsIn_mbind.
    + destruct (selected_is cl target); repeat constructor.
    + intros _. repeat constructor.
Qed.

Lemma harmless_applySuggestedTitle (cl : AppState) (target : list N) :
  ActionsIn harmless (applySuggestedTitle cl target).
Proof.
  unfold applySuggestedTitle.
  destruct (find _ _) as [material|]; [|constructor].
  destruct (suggestedTitle material) as [[|c cs]|];
    [constructor | apply harmless_renameMaterial | constructor].
Qed.

Lemma harmless_saveQuizResult (cl : AppState) (r : QuizResult) :
  ActionsIn harmless (saveQuizResult cl r).
Proof.
  unfold saveQuizResult.
  destruct (selectedMaterial cl) as [sel|]; [|constructor].
  destruct (content sel) as [c|]; [|constructor].
  destruct (truthy (quizQuestions c)); [|constructor].
  apply ActionsIn_mbind; [|intros; repeat constructor].
  apply ActionsIn_act. simpl. apply harmless_map_where.
  intros m. unfold same_shape. simpl. tauto.
Qed.

Lemma same_shape_replace_questions (qs : JSON) (m : UploadedMaterial) :
  same_shape m (replace_questions qs m).
Proof.
  unfold same_shape, replace_questions.
  destruct (content m) eqn:E; simpl; rewrite ?E; repeat split; eauto.
Qed.

Lemma harmless_generateNewQuestions (gt_zero : JSON -> option bool)
    (cl : AppState) :
  ActionsIn harmless (generateNewQuestions gt_zero cl).
Proof.
  unfold generateNewQuestions.
  destruct (selectedMaterial cl) as [sel|]; [|constructor].
  destruct (detectedLanguage sel) as [[|l ls]|]; try constructor.
  destruct (negb (nonempty (extractedText sel))); [constructor|].
  apply ActionsIn_mbind; [apply ActionsIn_act; exact I|intros _].
  apply ActionsIn_try_finally; [|apply ActionsIn_act; exact I].
  apply ActionsIn_try_catch; [|intros; apply ActionsIn_act; exact I].
  apply ActionsIn_mbind; [apply ActionsIn_mutationFn|intros quizResponse].
  apply ActionsIn_mbind;
    [apply ActionsIn_parse_newQuestions; exact I|intros newQuestions].
  apply ActionsIn_mbind; [apply ActionsIn_length_gt_zero|intros [|]];
    [|constructor].
  apply ActionsIn_mbind.
  - apply ActionsIn_act. simpl. apply harmless_map_where.
    apply same_shape_replace_questions.
  - intros _. apply ActionsIn_mbind.
    + destruct (content sel); [apply ActionsIn_act; exact I|constructor].
    + intros _. actions_in; exact I.
Qed.

Lemma harmless_handler (gt_zero : JSON -> option bool) (cl : AppState)
    (e : UserEvent) :
  owner_of e = None -> ActionsIn harmless (handler gt_zero cl e).
Proof.
  destruct e; simpl; try discriminate; intros _.
  - apply harmless_deleteMaterial.
  - apply harmless_renameMaterial.
  - apply harmless_applySuggestedTitle.
  - apply harmless_saveQuizResult.
  - apply harmless_generateNewQuestions.
Qed.

Lemma same_shape_trans (a b c : UploadedMaterial) :
  same_shape a b -> same_shape b c -> same_shape a c.
Proof.
  unfold same_shape. intros (-> & -> & <- & <-) (-> & -> & -> & ->). tauto.
Qed.

(** A handler that only makes harmless updates keeps the store good and
    every material in shape, up to its next suspension point. *)
Lemma advance_harmless (p : Async unit) :
  ActionsIn harmless p ->
  forall st, good_store st ->
    good_store (advance p st).1
    /\ (forall m', m' ∈ materials (advance p st).1 ->
          exists m, m ∈ materials st /\ same_shape m m')
    /\ ActionsIn harmless (advance p st).2.
Proof.
  induction 1 as [u|e|a k Ha Hk IH|k Hk IH|x k Hk IH|x k Hk IH|x k Hk IH
                  |x k Hk IH]; intros st Hst; simpl;
    try (split; [exact Hst|]; split;
         [intros m' Hm'; exists m'; split;
          [exact Hm' | apply same_shape_refl]
         | constructor; assumption]).
  assert (good_store (apply_action a st)
          /\ forall m', m' ∈ materials (apply_action a st) ->
               exists m, m ∈ materials st /\ same_shape m m') as [Hgood Hrel].
  { destruct a; simpl in Ha;
      try (split; [apply good_store_spared; [exact Ha | exact Hst]|];
           rewrite materials_spared by exact Ha;
           intros m' Hm'; exists m'; split;
           [exact Hm' | apply same_shape_refl]).
    split.
    - apply good_store_set; [exact Hst|]. apply Forall_forall.
      intros m' Hm'. destruct (Ha _ _ Hm') as (m & Hm & Hshape).
      eapply same_shape_inv; [exact Hshape|].
      destruct Hst as [Hms _]. rewrite Forall_forall in Hms. auto.
    - rewrite materials_apply_action. apply Ha. }
  destruct (IH _ Hgood) as (H1 & H2 & H3).
  split; [exact H1|]. split; [|exact H3].
  intros m' Hm'. destruct (H2 _ Hm') as (m1 & Hm1 & Hs1).
  destruct (Hrel _ Hm1) as (m & Hm & Hs).
  exists m. split; [exact Hm|]. eapply same_shape_trans; eassumption.
Qed.

Lemma advance_finished (k : Async unit) :
  Finished k ->
  forall st, good_store st ->
    good_store (advance k st).1
    /\ materials (advance k st).1 = materials st
    /\ suspended (advance k st).2 = false.
Proof.
  induction 1 as [u|a k Ha Hk IH]; intros st Hst; simpl; [auto|].
  destruct (IH _ (good_store_spared _ _ Ha Hst)) as (H1 & H2 & H3).
  rewrite materials_spared in H2 by exact Ha. auto.
Qed.

(** A handler that works for the upload [i] keeps the store good, touches
    only the materials named [i], and, while it waits, those are in
    flight. *)
Lemma advance_live (i : list N) (p : Async unit) :
  Live i p ->
  forall st, good_store st -> inflight_in (materials st) i ->
    good_store (advance p st).1
    /\ (forall m', m' ∈ materials (advance p st).1 ->
          m' ∈ materials st \/ id m' = i)
    /\ (suspended (advance p st).2 = true ->
        Live i (advance p st).2
        /\ inflight_in (materials (advance p st).1) i).
Proof.
  induction 1 as [u|e|a k Ha Hk IH|f k Hf Hk|k Hk IH|x k Hk IH|x k Hk IH
                  |x k Hk IH|x k Hk IH]; intros st Hst Hin;
    cbn [advance fst snd suspended];
    try (split; [exact Hst|]; split; [auto|]; intros Hs;
         first [discriminate Hs
               | split; [constructor; assumption | exact Hin]]).
  - assert (good_store (apply_action a st)
            /\ (forall m', m' ∈ materials (apply_action a st) ->
                  m' ∈ materials st \/ id m' = i)
            /\ inflight_in (materials (apply_action a st)) i)
      as (Hgood & Hrel & Hin').
    { destruct a; simpl in Ha;
        try (split; [apply good_store_spared; [exact Ha | exact Hst]|];
             rewrite materials_spared by exact Ha; auto).
      rewrite materials_apply_action. split; [|split].
      - apply good_store_set; [exact Hst|]. apply Forall_forall.
        intros m' Hm'. destruct (Ha _ _ Hm') as [Hm|[_ Hm]].
        + destruct Hst as [Hms _]. rewrite Forall_forall in Hms. auto.
        + apply inflight_inv, Hm, Hin.
      - intros m' Hm'. destruct (Ha _ _ Hm') as [Hm|[Hm _]]; auto.
      - intros m' Hm' Hid. destruct (Ha _ _ Hm') as [Hm|[_ Hm]]; auto. }
    destruct (IH _ Hgood Hin') as (H1 & H2 & H3).
    split; [exact H1|]. split; [|exact H3].
    intros m' Hm'. destruct (H2 _ Hm') as [Hm|Hm]; auto.
  - assert (good_store (apply_action (SetMaterials f) st)) as Hgood.
    { apply good_store_set; [exact Hst|]. apply Forall_forall.
      intros m' Hm'. destruct (Hf _ _ Hm') as [Hm|[_ Hm]].
      - destruct Hst as [Hms _]. rewrite Forall_forall in Hms. auto.
      - apply Hm, Hin. }
    destruct (advance_finished k Hk _ Hgood) as (H1 & H2 & H3).
    split; [exact H1|]. split.
    + rewrite H2, materials_apply_action. intros m' Hm'.
      destruct (Hf _ _ Hm') as [Hm|[Hm _]]; auto.
    + rewrite H3. discriminate.
Qed.

Lemma Live_resumes (i : list N) (p q : Async unit) :
  Live i p -> resumes p q -> Live i q.
Proof. intros Hp Hr. destruct Hr; inversion Hp; subst; auto. Qed.

Lemma harmless_resumes (p q : Async unit) :
  ActionsIn harmless p -> resumes p q -> ActionsIn harmless q.
Proof.
  intros Hp Hr. destruct Hr; inversion Hp; subst; auto;
    repeat match goal with
           | H : existT _ _ = existT _ _ |- _ =>
               apply Eqdep_dec.inj_pair2_eq_dec in H;
                 [subst | decide equality]
           end; auto.
Qed.

Lemma task_ok_other (ms ms' : list UploadedMaterial) (i : list N)
    (t : Task) :
  task_ok ms t -> owner t <> Some i ->
  (forall m', m' ∈ ms' -> m' ∈ ms \/ id m' = i) ->
  task_ok ms' t.
Proof.
  unfold task_ok. destruct (owner t) as [j|]; [|auto].
  intros [Hl Hin] Hne Hrel. split; [exact Hl|].
  intros m' Hm' Hid. destruct (Hrel _ Hm') as [Hm|Hm]; [auto|congruence].
Qed.

Lemma task_ok_shape (ms ms' : list UploadedMaterial) (t : Task) :
  task_ok ms t ->
  (forall m', m' ∈ ms' -> exists m, m ∈ ms /\ same_shape m m') ->
  task_ok ms' t.
Proof.
  unfold task_ok. destruct (owner t) as [j|]; [|auto].
  intros [Hl Hin] Hrel. split; [exact Hl|].
  intros m' Hm' Hid. destruct (Hrel _ Hm') as (m & Hm & Hs).
  eapply same_shape_inflight; [exact Hs|]. apply Hin; [exact Hm|].
  destruct Hs as [<- _]. exact Hid.
Qed.

Lemma good_store_ext (st st' : AppState) :
  materials st' = materials st ->
  localStorage st' !! STORAGE_KEY = localStorage st !! STORAGE_KEY ->
  good_store st -> good_store st'.
Proof.
  unfold good_store, load_materials. intros -> ->. auto.
Qed.

Lemma omap_owner_park (o : option (list N)) (p : Async unit) :
  omap owner (park o p) =
    if suspended p then match o with Some i => [i] | None => [] end else [].
Proof. unfold park. destruct (suspended p), o; reflexivity. Qed.

Lemma omap_owner_cons (t : Task) (l : list Task) :
  omap owner (t :: l) =
    match owner t with
    | Some i => i :: omap owner l
    | None => omap owner l
    end.
Proof. reflexivity. Qed.

Lemma owner_in_omap (i : list N) (l : list Task) :
  i ∈ omap owner l <-> Some i ∈ map owner l.
Proof.
  rewrite list_elem_of_omap, list_elem_of_fmap. split.
  - intros (t & Ht & Ho). exists t. auto.
  - intros (t & Ho & Ht). exists t. auto.
Qed.

Lemma Forall_task_ok_park (ms : list UploadedMaterial)
    (o : option (list N)) (p : Async unit) :
  (suspended p = true -> task_ok ms {| owner := o; prog := p |}) ->
  Forall (task_ok ms) (park o p).
Proof.
  unfold park. destruct (suspended p); [|constructor].
  intros H. repeat constructor. auto.
Qed.

Lemma app_nil_r_if {A : Type} (b : bool) (l : list A) :
  l ++ (if b then [] else []) = l.
Proof. destruct b; apply app_nil_r. Qed.

Lemma NoDup_shrink (l1 l2 l3 l2' : list (list N)) :
  NoDup (l1 ++ l2 ++ l3) -> (l2' = l2 \/ l2' = []) ->
  NoDup (l1 ++ l2' ++ l3).
Proof.
  intros H [->| ->]; [exact H|]. simpl.
  apply NoDup_app in H as (H1 & H2 & H3).
  apply NoDup_app in H3 as (_ & _ & H3).
  apply NoDup_app. repeat split; auto.
  intros x Hx Hx3. apply (H2 x Hx). apply elem_of_app. auto.
Qed.

(** Every step keeps the invariant of the world. *)
Lemma step_world_inv (gt_zero : JSON -> option bool) (w w' : World) :
  world_inv w -> step gt_zero w w' -> world_inv w'.
Proof.
  intros (Hgood & Htasks & Hdup) Hstep.
  rewrite Forall_forall in Htasks.
  destruct Hstep as [w e Hfresh|w before t after q Hw Hres|w st Hm Hls
                     |w st Hm Hls]; unfold world_inv; cbn [app waiting].
  - (* an event *)
    destruct (owner_of e) as [i|] eqn:Ho.
    + destruct e; try discriminate Ho. injection Ho as <-.
      cbn [handler] in *. destruct Hfresh as [Hfm Hfo].
      assert (inflight_in (materials (app w)) (fresh_id ev)) as Hin.
      { intros m Hm Hid. exfalso. apply Hfm. rewrite <- Hid.
        apply list_elem_of_fmap. eauto. }
      destruct (advance_live _ _ (Live_handleFileUpload (app w) ev)
                  _ Hgood Hin) as (H1 & H2 & H3).
      split; [exact H1|]. split.
      * apply Forall_app. split.
        -- apply Forall_forall. intros t Ht.
           apply (task_ok_other (materials (app w)) _ (fresh_id ev));
             [auto | | exact H2].
           intros Hot. apply Hfo. rewrite <- Hot.
           apply list_elem_of_fmap. eauto.
        -- apply Forall_task_ok_park. exact H3.
      * rewrite omap_app, omap_owner_park. apply NoDup_app.
        split; [exact Hdup|]. split.
        -- intros x Hx Hx'. destruct (suspended _); [|inversion Hx'].
           apply list_elem_of_singleton in Hx' as ->.
           apply Hfo, owner_in_omap, Hx.
        -- destruct (suspended _); [apply NoDup_singleton | constructor].
    + destruct (advance_harmless _ (harmless_handler gt_zero (app w) e Ho)
                  _ Hgood) as (H1 & H2 & H3).
      split; [exact H1|]. split.
      * apply Forall_app. split.
        -- apply Forall_forall. intros t Ht.
           eapply task_ok_shape; [apply Htasks, Ht | exact H2].
        -- apply Forall_task_ok_park. intros _. exact H3.
      * rewrite omap_app, omap_owner_park, app_nil_r_if. exact Hdup.
  - (* a waiting handler resumes *)
    rewrite Hw in Htasks, Hdup.
    assert (task_ok (materials (app w)) t) as Ht
      by (apply Htasks; rewrite elem_of_app, elem_of_cons; auto).
    assert (forall t', t' ∈ before ++ after ->
              task_ok (materials (app w)) t') as Hrest.
    { intros t' Ht'. apply Htasks. rewrite elem_of_app, elem_of_cons.
      apply elem_of_app in Ht' as [?|?]; auto. }
    rewrite omap_app, omap_owner_cons in Hdup.
    unfold task_ok in Ht. destruct (owner t) as [i|] eqn:Ho.
    + destruct Ht as [Hlive Hin].
      destruct (advance_live _ _ (Live_resumes _ _ _ Hlive Hres)
                  _ Hgood Hin) as (H1 & H2 & H3).
      assert (forall t', t' ∈ before ++ after -> owner t' <> Some i)
        as Hothers.
      { intros t' Ht' Hot. apply NoDup_app in Hdup as (_ & Hd1 & Hd2).
        apply NoDup_cons in Hd2 as [Hd2 _].
        apply elem_of_app in Ht' as [Ht'|Ht'].
        - apply (Hd1 i); [|left].
          apply list_elem_of_omap. eauto.
        - apply Hd2. apply list_elem_of_omap. eauto. }
      split; [exact H1|]. split.
      * rewrite !Forall_app. repeat split.
        -- apply Forall_forall. intros t' Ht'.
           apply (task_ok_other (materials (app w)) _ i);
             [apply Hrest | apply Hothers | exact H2];
             apply elem_of_app; auto.
        -- apply Forall_task_ok_park. exact H3.
        -- apply Forall_forall. intros t' Ht'.
           apply (task_ok_other (materials (app w)) _ i);
             [apply Hrest | apply Hothers | exact H2];
             apply elem_of_app; auto.
      * rewrite !omap_app, omap_owner_park.
        apply (NoDup_shrink _ [i]); [exact Hdup|].
        destruct (suspended _); auto.
    + destruct (advance_harmless _ (harmless_resumes _ _ Ht Hres)
                  _ Hgood) as (H1 & H2 & H3).
      split; [exact H1|]. split.
      * rewrite !Forall_app. repeat split.
        -- apply Forall_forall. intros t' Ht'.
           eapply task_ok_shape; [apply Hrest | exact H2].
           apply elem_of_app; auto.
        -- apply Forall_task_ok_park. intros _. exact H3.
        -- apply Forall_forall. intros t' Ht'.
           eapply task_ok_shape; [apply Hrest | exact H2].
           apply elem_of_app; auto.
      * rewrite !omap_app, omap_owner_park.
        destruct (suspended _); exact Hdup.
  - (* another handler *)
    split; [eapply good_store_ext; eassumption|]. split; [|exact Hdup].
    apply Forall_forall. rewrite Hm. exact Htasks.
  - (* the page is loaded again *)
    split; [|split; constructor].
    destruct Hgood as [_ Hstored]. unfold good_store, load_materials in *.
    rewrite Hm, Hls. unfold load_materials. auto.
Qed.

Lemma world_inv_first_load : world_inv first_load.
Proof.
  unfold world_inv, first_load, good_store. simpl.
  repeat split; constructor.
Qed.

Lemma reachable_world_inv (gt_zero : JSON -> option bool) (w : World) :
  reachable gt_zero w -> world_inv w.
Proof.
  unfold reachable. intros H.
  refine (rtc_ind_r (R := step gt_zero) (fun w => world_inv w) first_load
            _ _ w H).
  - apply world_inv_first_load.
  - intros w1 w2 _ Hstep IH. eapply step_world_inv; eassumption.
Qed.

(** C1. In every world the component can reach from its first load,
    through uploads (creation, upload, extracted text, generated content
    or recorded error, in any interleaving of the waiting handlers),
    regenerations of quiz questions, renames, deletions, quiz results and
    reloads of the page, every material of the store has a content
    exactly when its status is completed, and an error exactly when its
    status is error. *)
Theorem materials_keep_their_invariant (gt_zero : JSON -> option bool)
    (w : World) :
  reachable gt_zero w -> Forall material_inv (materials (app w)).
Proof.
  intros H. apply reachable_world_inv in H as ([Hms _] & _). exact Hms.
Qed.

Lemma sample_upload_started_reachable :
  reachable (fun _ => None) sample_upload_started.
Proof.
  apply rtc_once.
  apply (step_event (fun _ => None) first_load (ChooseFile sample_event)).
  split; simpl; apply not_elem_of_nil.
Qed.

Lemma materials_keep_their_invariant_witness :
  Forall material_inv (materials (app sample_upload_started)).
Proof.
  apply (materials_keep_their_invariant (fun _ => None)
           sample_upload_started).
  apply rtc_once.
  apply (step_event (fun _ => None) first_load (ChooseFile sample_event)).
  split; simpl; apply not_elem_of_nil.
Defined.

Example sample_upload_started_store :
  map processingStatus (materials (app sample_upload_started)) = [pending]
  /\ length (waiting sample_upload_started) = 1%nat.
Proof. vm_compute. split; reflexivity. Qed.

(** ** The sample session, evaluated *)

Example parse_lessons_object :
  JSON_parse (lit "{" ++ quoted "lessons" ++ lit ": [{" ++ quoted "title"
              ++ lit ": " ++ quoted "A" ++ lit "}], " ++ quoted "n"
              ++ lit ": -2.50e1}")
  = Some (JObject
            [ (lit "lessons", JArray [JObject [(lit "title", JString (lit "A"))]]);
              (lit "n", JNumber {| num_neg := true; num_mantissa := 250;
                                    num_exp10 := -1 |}) ]).
Proof. vm_compute. reflexivity. Qed.

Example parse_rejects_trailing_comma : JSON_parse (lit "[1, 2,]") = None.
Proof. vm_compute. reflexivity. Qed.

Example parse_rejects_prose :
  JSON_parse (lit "Here are your lessons: {}") = None.
Proof. vm_compute. reflexivity. Qed.

Example parse_escapes :
  JSON_parse (dquote ++ lit "a\nA" ++ dquote)
  = Some (JString [97; 10; 65]).
Proof. vm_compute. reflexivity. Qed.

Example last_key_wins :
  option_map (get_field (lit "a"))
    (JSON_parse (lit "{" ++ quoted "a" ++ lit ":1," ++ quoted "a"
                 ++ lit ":null}"))
  = Some (Some (Some JNull)).
Proof. vm_compute. reflexivity. Qed.

Example trim_language : trim (lit "  English ") = lit "English".
Proof. vm_compute. reflexivity. Qed.

(** The sample upload ends with one completed material that holds the
    generated content, and is stored. *)
Example sample_upload_completes :
  map processingStatus (materials after_sample_upload) = [completed]
  /\ map detectedLanguage (materials after_sample_upload)
     = [Some (lit "English")]
  /\ load_materials (localStorage after_sample_upload)
     = materials after_sample_upload.
Proof. vm_compute. repeat split. Qed.

(** A regeneration that succeeds does replace the questions. *)
Example sample_regeneration :
  map (fun m => option_map quizQuestions (content m))
    (materials after_sample_upload)
  = [Some (JArray [])]
  /\ map (fun m => option_map quizQuestions (content m))
       (materials (state_of (regeneration_run (fun _ => None) quiz_env
                               reselected)))
     = [Some (JArray
                [ JNumber {| num_neg := false; num_mantissa := 1;
                             num_exp10 := 0 |};
                  JNumber {| num_neg := false; num_mantissa := 2;
                             num_exp10 := 0 |} ])].
Proof. vm_compute. split; reflexivity. Qed.

(** ** Further properties: the run of a handler *)

Lemma run_try_catch {A : Type} (env : Env) (m : Async A)
    (h : Thrown -> Async A) :
  forall n st,
  run env (try_catch m h) n st =
    let '(tr, st', r) := run env m n st in
    match r with
    | Resolved a => (tr, st', Resolved a)
    | Rejected e =>
        let '(tr2, st2, r2) :=
          run env (h e) (n + length (chat_calls tr)) st' in
        (tr ++ tr2, st2, r2)
    end.
Proof.
  induction m as [a|e|a k IH|k IH|x k IH|x k IH|x k IH|x k IH];
    intros n st; simpl.
  - reflexivity.
  - rewrite Nat.add_0_r. destruct (run env (h e) n st) as [[tr st'] r].
    reflexivity.
  - rewrite IH. destruct (run env k n _) as [[tr st'] [b|e]]; simpl;
      [|destruct (run env (h e) _ st') as [[tr2 st2] r2]]; reflexivity.
  - rewrite IH. destruct (run env k n _) as [[tr st'] [b|e]]; simpl;
      [|destruct (run env (h e) _ st') as [[tr2 st2] r2]]; reflexivity.
  - rewrite IH. destruct (run env (k _) n _) as [[tr st'] [b|e]]; simpl;
      [|destruct (run env (h e) _ st') as [[tr2 st2] r2]]; reflexivity.
  - rewrite IH. destruct (run env (k _) n _) as [[tr st'] [b|e]]; simpl;
      [|destruct (run env (h e) _ st') as [[tr2 st2] r2]]; reflexivity.
  - rewrite IH. destruct (run env (k _) n _) as [[tr st'] [b|e]]; simpl;
      [|destruct (run env (h e) _ st') as [[tr2 st2] r2]]; reflexivity.
  - rewrite IH. destruct (run env (k _) (S n) _) as [[tr st'] [b|e]]; simpl;
      [|rewrite Nat.add_succ_r;
        destruct (run env (h e) _ st') as [[tr2 st2] r2]]; reflexivity.
Qed.

Lemma run_try_finally {A : Type} (env : Env) (m : Async A)
    (f : Async unit) :
  forall n st,
  run env (try_finally m f) n st =
    let '(tr, st', r) := run env m n st in
    let '(tr2, st2, r2) := run env f (n + length (chat_calls tr)) st' in
    (tr ++ tr2, st2,
     match r2 with
     | Resolved _ => r
     | Rejected e => Rejected e
     end).
Proof.
  induction m as [a|e|a k IH|k IH|x k IH|x k IH|x k IH|x k IH];
    intros n st; simpl.
  - rewrite run_bind, Nat.add_0_r.
    destruct (run env f n st) as [[tr st'] [u|e]]; simpl; reflexivity
      || (rewrite app_nil_r; reflexivity).
  - rewrite run_bind, Nat.add_0_r.
    destruct (run env f n st) as [[tr st'] [u|e']]; simpl; reflexivity
      || (rewrite app_nil_r; reflexivity).
  - rewrite IH. destruct (run env k n _) as [[tr st'] r]; simpl.
    destruct (run env f _ st') as [[tr2 st2] r2]; reflexivity.
  - rewrite IH. destruct (run env k n _) as [[tr st'] r]; simpl.
    destruct (run env f _ st') as [[tr2 st2] r2]; reflexivity.
  - rewrite IH. destruct (run env (k _) n _) as [[tr st'] r]; simpl.
    destruct (run env f _ st') as [[tr2 st2] r2]; reflexivity.
  - rewrite IH. destruct (run env (k _) n _) as [[tr st'] r]; simpl.
    destruct (run env f _ st') as [[tr2 st2] r2]; reflexivity.
  - rewrite IH. destruct (run env (k _) n _) as [[tr st'] r]; simpl.
    destruct (run env f _ st') as [[tr2 st2] r2]; reflexivity.
  - rewrite IH. destruct (run env (k _) (S n) _) as [[tr st'] r]; simpl.
    rewrite Nat.add_succ_r.
    destruct (run env f _ st') as [[tr2 st2] r2]; reflexivity.
Qed.

Section Ensures.
Context {A : Type}.

Lemma ensures_ret (a : A) (post : AppState -> Outcome A -> Prop) :
  (forall st, post st (Resolved a)) -> ensures (Ret a) post.
Proof. intros H env n st. apply H. Qed.

Lemma ensures_weaken (p : Async A) (post post' : AppState -> Outcome A -> Prop) :
  ensures p post -> (forall st r, post st r -> post' st r) -> ensures p post'.
Proof. intros H Hw env n st. apply Hw, H. Qed.

Lemma ensures_any (p : Async A) : ensures p (fun _ _ => True).
Proof. intros env n st. exact I. Qed.

Lemma ensures_bind {B : Type} (m : Async A) (f : A -> Async B)
    (mid : AppState -> Outcome A -> Prop)
    (post : AppState -> Outcome B -> Prop) :
  ensures m mid ->
  (forall a, ensures (f a) post) ->
  (forall st e, mid st (Rejected e) -> post st (Rejected e)) ->
  ensures (bind m f) post.
Proof.
  intros Hm Hf Hrej env n st. unfold state_of. rewrite run_bind.
  specialize (Hm env n st). unfold state_of in Hm.
  destruct (run env m n st) as [[tr st'] [a|e]]; simpl in *.
  - specialize (Hf a env (n + length (chat_calls tr))%nat st').
    unfold state_of in Hf.
    destruct (run env (f a) _ st') as [[tr2 st2] r2]. exact Hf.
  - apply Hrej, Hm.
Qed.

Lemma ensures_try_catch (m : Async A) (h : Thrown -> Async A)
    (mid post : AppState -> Outcome A -> Prop) :
  ensures m mid ->
  (forall st a, mid st (Resolved a) -> post st (Resolved a)) ->
  (forall e, ensures (h e) post) ->
  ensures (try_catch m h) post.
Proof.
  intros Hm Hres Hh env n st. unfold state_of. rewrite run_try_catch.
  specialize (Hm env n st). unfold state_of in Hm.
  destruct (run env m n st) as [[tr st'] [a|e]]; simpl in *.
  - apply Hres, Hm.
  - specialize (Hh e env (n + length (chat_calls tr))%nat st').
    unfold state_of in Hh.
    destruct (run env (h e) _ st') as [[tr2 st2] r2]. exact Hh.
Qed.

Lemma ensures_try_finally (m : Async A) (f : Async unit)
    (post : AppState -> Outcome A -> Prop) :
  (forall r, ensures f (fun st r2 =>
     post st match r2 with Resolved _ => r | Rejected e => Rejected e end)) ->
  ensures (try_finally m f) post.
Proof.
  intros Hf env n st. unfold state_of. rewrite run_try_finally.
  destruct (run env m n st) as [[tr st'] r]; simpl.
  specialize (Hf r env (n + length (chat_calls tr))%nat st').
  unfold state_of in Hf.
  destruct (run env f _ st') as [[tr2 st2] r2]. exact Hf.
Qed.

Lemma ensures_do (a : Action) (k : Async A)
    (post : AppState -> Outcome A -> Prop) :
  ensures k post -> ensures (Do a k) post.
Proof.
  intros Hk env n st. rewrite run_do. unfold state_of at 1. simpl.
  apply Hk.
Qed.

End Ensures.

Lemma ensures_mbind {A B : Type} (m : Async A) (f : A -> Async B)
    (post : AppState -> Outcome B -> Prop) :
  (forall a, ensures (f a) post) ->
  (forall st e, post st (Rejected e)) ->
  ensures (m ≫= f) post.
Proof.
  intros Hf Hrej. apply (ensures_bind m f (fun _ _ => True)).
  - apply ensures_any.
  - exact Hf.
  - intros st e _. apply Hrej.
Qed.

(** The two updates that end a handler or a [catch] block. *)
Lemma ensures_last_update (f : list UploadedMaterial -> list UploadedMaterial)
    (k : Async unit) (Q : list UploadedMaterial -> Prop) :
  (forall ms, Q (f ms)) ->
  ActionsIn (fun a => match a with SetMaterials _ => False | _ => True end) k ->
  ensures (Do (SetMaterials f) k) (fun st _ => Q (materials st)).
Proof.
  intros HQ Hk env n st. rewrite run_do. unfold state_of at 1.
  cbn [fst snd].
  rewrite (run_frame materials _ env k) with (2 := Hk).
  - rewrite materials_apply_action. apply HQ.
  - intros a s Ha. destruct a; try contradiction; reflexivity.
Qed.

Lemma map_where_settles (i : list N) (g : UploadedMaterial -> UploadedMaterial)
    (ms : list UploadedMaterial) :
  (forall m, settled (g m)) ->
  forall m, m ∈ map_where i g ms -> id m = i -> settled m.
Proof.
  intros Hg m Hin Hid. unfold map_where in Hin.
  apply list_elem_of_fmap in Hin as (m0 & -> & _).
  destruct (decide (id m0 = i)); [apply Hg | contradiction].
Qed.
(** ** Further properties: the upload handler *)

Lemma handleFileUpload_accepted (st : AppState) (ev : UploadEvent)
    (file : File) :
  accepts st ev file ->
  handleFileUpload st ev =
    foldr Do
      (try_catch (processUpload st file (fresh_id ev))
         (upload_failed (fresh_id ev)))
      (upload_prologue st ev file).
Proof.
  intros (Hfile & Hgate & Hvalid). unfold handleFileUpload. rewrite Hfile.
  unfold passes_gate in Hgate.
  assert (negb (effectiveIsPremium st) && negb (canUpload st) = false) as ->
    by (destruct (effectiveIsPremium st), (canUpload st); try discriminate;
        reflexivity).
  rewrite Hvalid. reflexivity.
Qed.

Lemma run_prologue {A : Type} (env : Env) (l : list Action) (k : Async A) :
  forall n st,
  run env (foldr Do k l) n st =
    (map EvDo l ++ trace_of (run env k n (apply_actions l st)),
     state_of (run env k n (apply_actions l st)),
     (run env k n (apply_actions l st)).2).
Proof.
  induction l as [|a l IH]; intros n st.
  - simpl. destruct (run env k n st) as [[tr st'] r]. reflexivity.
  - cbn [foldr]. rewrite run_do, IH. reflexivity.
Qed.

Lemma materials_upload_started (st : AppState) (ev : UploadEvent)
    (file : File) :
  materials (apply_actions (upload_prologue st ev file) st)
    = materials st ++ [newMaterial file ev].
Proof.
  unfold apply_actions, upload_prologue. cbn [foldl].
  rewrite !materials_apply_action. reflexivity.
Qed.

(** Every update of the body of an accepted upload is one of these. *)
Lemma ActionsIn_upload_body (P : Action -> Prop) (cl : AppState)
    (file : File) (i : list N) :
  P ConsoleError ->
  (forall n, P (SetProcessingProgress n)) ->
  (forall g, (forall m, keeps_identity m (g m)) ->
             P (SetMaterials (map_where i g))) ->
  (forall c, P (SetSelectedMaterial (select_completed i c))) ->
  ActionsIn P (try_catch (processUpload cl file i) (upload_failed i)).
Proof.
  intros Hlog Hprogress Hmap Hsel.
  assert (forall g, (forall m, keeps_identity m (g m)) ->
                    ActionsIn P (act (SetMaterials (map_where i g)))) as Hact
    by (intros g Hg; apply ActionsIn_act, Hmap, Hg).
  apply ActionsIn_try_catch.
  - unfold processUpload, generateSuggestedTitle, categorizeContent.
    apply ActionsIn_mbind; [constructor; intros; apply ActionsIn_settle|].
    intros u.
    apply ActionsIn_mbind; [apply Hact; intros m; repeat split|intros _].
    apply ActionsIn_mbind; [apply ActionsIn_act, Hprogress|intros _].
    apply ActionsIn_mbind; [apply ActionsIn_extractText|intros text].
    apply ActionsIn_mbind; [apply ActionsIn_act, Hprogress|intros _].
    apply ActionsIn_mbind; [apply Hact; intros m; repeat split|intros _].
    apply ActionsIn_mbind;
      [apply ActionsIn_generateLearningContent, Hprogress|intros generated].
    apply ActionsIn_mbind;
      [apply ActionsIn_mbind; [apply ActionsIn_mutationFn|intros; apply AI_ret]
      |intros title].
    apply ActionsIn_mbind;
      [apply ActionsIn_mbind; [apply ActionsIn_mutationFn|intros; apply AI_ret]
      |intros category].
    apply ActionsIn_mbind; [apply Hact; intros m; repeat split|intros _].
    apply ActionsIn_mbind; [apply Hact; intros m; repeat split|intros _].
    apply ActionsIn_act, (Hsel generated).
  - intros e. unfold upload_failed.
    apply ActionsIn_mbind; [apply ActionsIn_act, Hlog|intros _].
    apply Hact. intros m; repeat split.
Qed.

Lemma ensures_upload_body_resolves (cl : AppState) (file : File)
    (i : list N) :
  ensures (try_catch (processUpload cl file i) (upload_failed i))
    (fun _ r => r = Resolved tt).
Proof.
  apply (ensures_try_catch _ _ (fun _ _ => True)).
  - apply ensures_any.
  - intros st [] _. reflexivity.
  - intros e. unfold upload_failed, mbind, Async_bind. cbn [bind act].
    apply ensures_do, ensures_do, ensures_ret. reflexivity.
Qed.

(** X1. The promise of the upload handler never rejects: whatever the
    file, the state and the way the upload, the extraction and the
    completions settle, every error is caught inside the handler. *)
Theorem upload_handler_never_rejects (env : Env) (st : AppState)
    (ev : UploadEvent) :
  (upload_run env st ev).2 = Resolved tt.
Proof.
  unfold upload_run, handleFileUpload.
  destruct (target_file ev) as [file|]; [|reflexivity].
  destruct (negb (effectiveIsPremium st) && negb (canUpload st));
    [reflexivity|].
  destruct (negb (isValidFormat file)); [reflexivity|].
  unfold incrementUploadCount, mbind, Async_bind. cbn [bind act].
  rewrite !run_do. cbn [snd].
  apply (ensures_upload_body_resolves st file (fresh_id ev)).
Qed.
Lemma keeps_identity_refl (m : UploadedMaterial) : keeps_identity m m.
Proof. repeat split. Qed.

Lemma keeps_identity_trans (a b c : UploadedMaterial) :
  keeps_identity a b -> keeps_identity b c -> keeps_identity a c.
Proof.
  unfold keeps_identity. intros (?&?&?&?&?) (?&?&?&?&?).
  repeat split; congruence.
Qed.

Lemma processed_from_refl (i : list N) (m : UploadedMaterial) :
  processed_from i m m.
Proof. split; [apply keeps_identity_refl | reflexivity]. Qed.

Lemma processed_from_trans (i : list N) (a b c : UploadedMaterial) :
  processed_from i a b -> processed_from i b c -> processed_from i a c.
Proof.
  intros [Hab Hab'] [Hbc Hbc']. split.
  - eapply keeps_identity_trans; eassumption.
  - intros Hid. rewrite Hbc', Hab'; try assumption; [reflexivity|].
    rewrite (Hab' Hid). assumption.
Qed.

Lemma map_where_processed (i : list N)
    (g : UploadedMaterial -> UploadedMaterial) (ms : list UploadedMaterial) :
  (forall m, keeps_identity m (g m)) ->
  Forall2 (processed_from i) ms (map_where i g ms).
Proof.
  intros Hg. unfold map_where. apply Forall2_fmap_r, Forall_Forall2_diag.
  apply Forall_forall. intros m _. unfold compose.
  case_decide as Hid.
  - split; [apply Hg | intros Hne; contradiction].
  - apply processed_from_refl.
Qed.

Lemma upload_body_processes (cl : AppState) (file : File) (i : list N) :
  ActionsIn (updates_respect (processed_from i))
    (try_catch (processUpload cl file i) (upload_failed i)).
Proof.
  apply ActionsIn_upload_body; try exact I; try (intros; exact I).
  intros g Hg ms. apply map_where_processed, Hg.
Qed.

Lemma upload_body_settles (cl : AppState) (file : File) (i : list N) :
  ensures (try_catch (processUpload cl file i) (upload_failed i))
    (fun st _ => forall m, m ∈ materials st -> id m = i -> settled m).
Proof.
  apply (ensures_try_catch _ _
           (fun st r => match r with
                        | Resolved _ =>
                            forall m, m ∈ materials st -> id m = i -> settled m
                        | Rejected _ => True
                        end)).
  - unfold processUpload.
    do 10 (apply ensures_mbind; [intros ?|intros; exact I]).
    unfold mbind, Async_bind. cbn [bind act].
    apply (ensures_weaken _
             (fun st _ => forall m, m ∈ materials st -> id m = i -> settled m)).
    + apply (ensures_last_update _ _
               (fun ms => forall m, m ∈ ms -> id m = i -> settled m)).
      * intros ms. apply map_where_settles. intros m. left. reflexivity.
      * repeat constructor.
    + intros st [[]|e] H; [exact H | exact I].
  - intros st a H. exact H.
  - intros e. unfold upload_failed, mbind, Async_bind. cbn [bind act].
    apply ensures_do.
    apply (ensures_last_update _ _
             (fun ms => forall m, m ∈ ms -> id m = i -> settled m)).
    + intros ms. apply map_where_settles. intros m. right. reflexivity.
    + constructor.
Qed.

Lemma processed_from_fresh (i : list N) (ms ms' : list UploadedMaterial) :
  i ∉ map id ms -> Forall2 (processed_from i) ms ms' -> ms' = ms.
Proof.
  intros Hfresh H. induction H as [|m m' ms ms' [_ Hm] _ IH].
  - reflexivity.
  - cbn [map] in Hfresh. apply not_elem_of_cons in Hfresh as [Hne Hfresh].
    rewrite (Hm (not_eq_sym Hne)), (IH Hfresh). reflexivity.
Qed.

(** X2. An accepted upload whose identifier is new adds exactly one
    material, at the end of the list, and leaves every other material as
    it was. The new material has the generated identifier, the name and
    type of the file and the time of the upload, and when the handler
    returns its processing has ended: its status is [completed] or
    [error], however the collaborators settled. *)
Theorem upload_adds_one_settled_material (env : Env) (st : AppState)
    (ev : UploadEvent) (file : File) :
  accepts st ev file ->
  fresh_id ev ∉ map id (materials st) ->
  exists m,
    materials (state_of (upload_run env st ev)) = materials st ++ [m]
    /\ id m = fresh_id ev
    /\ fileName m = file_name file
    /\ fileType m = actualFileType file
    /\ uploadedAt m = now ev
    /\ settled m.
Proof.
  intros Hacc Hfresh. unfold upload_run.
  rewrite (handleFileUpload_accepted st ev file Hacc), run_prologue.
  unfold state_of at 1. cbn [fst snd].
  set (body := try_catch _ _).
  set (st1 := apply_actions _ st).
  pose proof (run_respects (processed_from (fresh_id ev)) env body 0 st1
                (processed_from_refl _) (processed_from_trans _)
                (upload_body_processes st file (fresh_id ev))) as Hframe.
  pose proof (upload_body_settles st file (fresh_id ev) env 0%nat st1)
    as Hsettled.
  fold body in Hsettled. cbn beta in Hsettled.
  unfold st1 in Hframe at 1. rewrite materials_upload_started in Hframe.
  apply Forall2_app_inv_l in Hframe as (old & new & Hold & Hnew & Heq).
  apply (processed_from_fresh _ _ _ Hfresh) in Hold. subst old.
  inversion Hnew as [|x m l l' [(Hid & Hname & Htype & Hdate & _) _] Hnil];
    subst.
  inversion Hnil; subst.
  exists m. split; [exact Heq|].
  repeat split; try assumption.
  apply Hsettled; [|exact Hid].
  rewrite Heq. apply elem_of_app. right. apply list_elem_of_singleton.
  reflexivity.
Qed.

Lemma upload_adds_one_settled_material_witness :
  exists m,
    materials (state_of (upload_run offline_env initial_state sample_event))
      = materials initial_state ++ [m]
    /\ id m = fresh_id sample_event
    /\ fileName m = file_name sample_file
    /\ fileType m = actualFileType sample_file
    /\ uploadedAt m = now sample_event
    /\ settled m.
Proof.
  apply (upload_adds_one_settled_material offline_env initial_state
           sample_event sample_file).
  - repeat split.
  - simpl. apply not_elem_of_nil.
Defined.
Lemma selectedMaterial_apply_action (a : Action) (st : AppState) :
  selectedMaterial (apply_action a st) =
    match a with
    | SetSelectedMaterial f => f (selectedMaterial st)
    | _ => selectedMaterial st
    end.
Proof.
  destruct a; try reflexivity. simpl. unfold save_materials_effect. simpl.
  destruct (f (materials st)); reflexivity.
Qed.

(** X3. When the file upload itself fails, nothing else is attempted: no
    text is extracted and no completion is requested. The handler logs
    the error and records it in the new material, whose status becomes
    [error] with the message of what was thrown; the selected copy made
    at the start stays as it was, still [pending]. *)
Theorem failed_upload_is_recorded (env : Env) (st : AppState)
    (ev : UploadEvent) (file : File) (e : Thrown) :
  accepts st ev file ->
  env_upload env file = Rejected e ->
  trace_of (upload_run env st ev)
    = map EvDo (upload_prologue st ev file)
      ++ [ EvUpload file; EvDo ConsoleError;
           EvDo (SetMaterials (map_where (fresh_id ev) (fun m =>
                   spread_error (Some (error_message e))
                     (spread_processingStatus error_status m)))) ]
  /\ materials (state_of (upload_run env st ev))
     = map_where (fresh_id ev)
         (fun m => spread_error (Some (error_message e))
                     (spread_processingStatus error_status m))
         (materials st ++ [newMaterial file ev])
  /\ selectedMaterial (state_of (upload_run env st ev))
     = Some (newMaterial file ev).
Proof.
  intros Hacc Hrej. unfold upload_run.
  rewrite (handleFileUpload_accepted st ev file Hacc), run_prologue.
  unfold trace_of at 1, state_of at 1 3. cbn [fst snd].
  set (st1 := apply_actions _ st).
  assert (run env (try_catch (processUpload st file (fresh_id ev))
                     (upload_failed (fresh_id ev))) 0 st1
          = ([ EvUpload file; EvDo ConsoleError;
               EvDo (SetMaterials (map_where (fresh_id ev) (fun m =>
                       spread_error (Some (error_message e))
                         (spread_processingStatus error_status m)))) ],
             apply_action
               (SetMaterials (map_where (fresh_id ev) (fun m =>
                  spread_error (Some (error_message e))
                    (spread_processingStatus error_status m))))
               st1,
             Resolved tt)) as ->.
  { rewrite run_try_catch. unfold processUpload, mbind, Async_bind.
    rewrite run_bind. cbn [run]. rewrite Hrej. reflexivity. }
  unfold trace_of, state_of. cbn [fst snd].
  rewrite materials_apply_action, selectedMaterial_apply_action. unfold st1.
  rewrite materials_upload_started.
  repeat split.
Qed.

Lemma failed_upload_is_recorded_witness :
  trace_of (upload_run upload_down_env initial_state sample_event)
    = map EvDo (upload_prologue initial_state sample_event sample_file)
      ++ [ EvUpload sample_file; EvDo ConsoleError;
           EvDo (SetMaterials (map_where (fresh_id sample_event) (fun m =>
                   spread_error
                     (Some (error_message
                              (ErrorObject
                                 (lit "S3 upload failed with status 403: Forbidden"))))
                     (spread_processingStatus error_status m)))) ]
  /\ materials (state_of (upload_run upload_down_env initial_state sample_event))
     = map_where (fresh_id sample_event)
         (fun m => spread_error
                     (Some (error_message
                              (ErrorObject
                                 (lit "S3 upload failed with status 403: Forbidden"))))
                     (spread_processingStatus error_status m))
         (materials initial_state ++ [newMaterial sample_file sample_event])
  /\ selectedMaterial
       (state_of (upload_run upload_down_env initial_state sample_event))
     = Some (newMaterial sample_file sample_event).
Proof.
  apply (failed_upload_is_recorded upload_down_env initial_state sample_event
           sample_file).
  - repeat split.
  - reflexivity.
Defined.

(** X4. A file whose format is not allowed is refused before anything
    happens: the handler only shows the alert and clears the file input.
    No material is created, nothing is uploaded, the daily counter is not
    consumed, and the whole state is as before. *)
Theorem invalid_format_is_refused (env : Env) (st : AppState)
    (ev : UploadEvent) (file : File) :
  target_file ev = Some file ->
  passes_gate st = true ->
  isValidFormat file = false ->
  trace_of (upload_run env st ev)
    = [ EvDo (Alert (lit "Nur PDF, PPT und Text-Dateien sind erlaubt."));
        EvDo ResetFileInput ]
  /\ state_of (upload_run env st ev) = st.
Proof.
  intros Hfile Hgate Hvalid. unfold upload_run, handleFileUpload.
  rewrite Hfile. unfold passes_gate in Hgate.
  assert (negb (effectiveIsPremium st) && negb (canUpload st) = false) as ->
    by (destruct (effectiveIsPremium st), (canUpload st); try discriminate;
        reflexivity).
  rewrite Hvalid. split; reflexivity.
Qed.

Lemma invalid_format_is_refused_witness :
  trace_of (upload_run sample_env initial_state
              {| target_file := Some sample_picture;
                 fresh_id := lit "1700000000001-0.5";
                 now := 1700000000001;
                 today := lit "Tue Nov 14 2023" |})
    = [ EvDo (Alert (lit "Nur PDF, PPT und Text-Dateien sind erlaubt."));
        EvDo ResetFileInput ]
  /\ state_of (upload_run sample_env initial_state
                 {| target_file := Some sample_picture;
                    fresh_id := lit "1700000000001-0.5";
                    now := 1700000000001;
                    today := lit "Tue Nov 14 2023" |})
     = initial_state.
Proof.
  apply (invalid_format_is_refused sample_env initial_state _ sample_picture);
    reflexivity.
Defined.

(** X5. The subscription dialog is all that happens exactly when a file
    was chosen in a session that is not premium and whose daily counter
    is at the limit or beyond it. The limit is checked before the format
    of the file. *)
Theorem limit_gate_decides (env : Env) (st : AppState) (ev : UploadEvent) :
  trace_of (upload_run env st ev)
    = [EvDo (SetShowSubscriptionDialog true); EvDo ResetFileInput]
  <-> (target_file ev <> None
       /\ premium_session st = false
       /\ (FREE_DAILY_LIMIT <= todayUploadCount st)%Z).
Proof.
  unfold upload_run, handleFileUpload, premium_session, canUpload.
  destruct (target_file ev) as [file|].
  2: { split; [discriminate | intros [H _]; contradiction]. }
  assert (trace_of
            (run env
               (if negb (isValidFormat file)
                then
                  act (Alert
                         (lit "Nur PDF, PPT und Text-Dateien sind erlaubt."));;
                  act ResetFileInput
                else
                  act (SetMaterials
                         (fun prev => prev ++ [newMaterial file ev]));;
                  act (SetSelectedMaterial
                         (fun _ => Some (newMaterial file ev)));;
                  act (SetProcessingProgress 0);;
                  incrementUploadCount st (today ev);;
                  try_catch (processUpload st file (fresh_id ev))
                    (fun e =>
                       act ConsoleError;;
                       act (SetMaterials (map_where (fresh_id ev) (fun m =>
                              spread_error (Some (error_message e))
                                (spread_processingStatus error_status m))))))
               0 st)
          <> [EvDo (SetShowSubscriptionDialog true); EvDo ResetFileInput])
    as Hother.
  { destruct (negb (isValidFormat file)).
    - unfold mbind, Async_bind. cbn [bind act]. rewrite run_do.
      unfold trace_of at 1. cbn [fst]. discriminate.
    - unfold mbind, Async_bind. cbn [bind act]. rewrite run_do.
      unfold trace_of at 1. cbn [fst]. discriminate. }
  destruct (effectiveIsPremium st) eqn:Hu; cbn [negb andb orb].
  { split; [intros H; contradiction | intros (_ & H & _); discriminate H]. }
  destruct (sub_isPremium (subscription st)) eqn:Hs; cbn [negb andb orb].
  { split; [intros H; contradiction | intros (_ & H & _); discriminate H]. }
  destruct (Z.ltb_spec (todayUploadCount st) FREE_DAILY_LIMIT) as [Hlt|Hge];
    cbn [negb].
  - split; [intros H; contradiction | intros (_ & _ & H); lia].
  - split; [intros _; repeat split; [discriminate | exact Hge] | reflexivity].
Qed.
Lemma run_invariant {A : Type} (Q : AppState -> Prop) (P : Action -> Prop)
    (env : Env) (p : Async A) :
  (forall a st, P a -> Q st -> Q (apply_action a st)) ->
  ActionsIn P p ->
  forall n st, Q st -> Q (state_of (run env p n st)).
Proof.
  intros Hstep Hp n st.
  apply (run_related (fun st0 st' => Q st0 -> Q st') P env p); auto.
Qed.

(** X6. Right after an upload, however it ended, a click on "new
    questions" does nothing at all: the selection is still the copy made
    when the file was chosen, which has no detected language, so the
    handler returns before it requests anything. The user has to pick
    the material in the list again first. *)
Theorem new_questions_need_reselection (gt_zero : JSON -> option bool)
    (env env' : Env) (st : AppState) (ev : UploadEvent) (file : File) :
  accepts st ev file ->
  regeneration_run gt_zero env' (state_of (upload_run env st ev))
    = ([], state_of (upload_run env st ev), Resolved tt).
Proof.
  intros Hacc.
  assert (exists p, selectedMaterial (state_of (upload_run env st ev)) = Some p
                    /\ detectedLanguage p = None) as (p & Hsel & Hlang).
  { unfold upload_run.
    rewrite (handleFileUpload_accepted st ev file Hacc), run_prologue.
    unfold state_of at 1. cbn [fst snd].
    apply (run_invariant
             (fun s => exists p, selectedMaterial s = Some p
                                 /\ detectedLanguage p = None)
             (fun a => match a with
                       | SetSelectedMaterial f =>
                           forall p, detectedLanguage p = None ->
                             exists p', f (Some p) = Some p'
                                        /\ detectedLanguage p' = None
                       | _ => True
                       end)).
    - intros a s Ha (p & Hp & Hl). rewrite selectedMaterial_apply_action.
      destruct a; try (exists p; split; assumption).
      rewrite Hp. apply Ha, Hl.
    - apply ActionsIn_upload_body; try exact I; try (intros; exact I).
      intros c p Hl. unfold select_completed.
      destruct (decide (id p = fresh_id ev)); eexists; split;
        try reflexivity; assumption.
    - exists (newMaterial file ev). split; reflexivity. }
  unfold regeneration_run, generateNewQuestions. rewrite Hsel, Hlang.
  reflexivity.
Qed.

Lemma new_questions_need_reselection_witness :
  regeneration_run (fun _ => None) quiz_env
      (state_of (upload_run sample_env initial_state sample_event))
    = ([], state_of (upload_run sample_env initial_state sample_event),
       Resolved tt).
Proof.
  apply (new_questions_need_reselection (fun _ => None) sample_env quiz_env
           initial_state sample_event sample_file).
  repeat split.
Defined.
(** ** Further properties: new quiz questions *)

Lemma generateNewQuestions_started (gt_zero : JSON -> option bool)
    (st : AppState) (sel : UploadedMaterial) (language : list N) :
  can_regenerate st sel language ->
  generateNewQuestions gt_zero st =
    Do (SetIsGeneratingQuestions true)
      (try_finally
         (try_catch
            (quizResponse ←
               mutationFn (newQuestions_input (extractedText sel) language);
             newQuestions ← parse_newQuestions (gpt_content quizResponse);
             positive ← length_gt_zero gt_zero newQuestions;
             if positive : bool
             then
               act (SetMaterials
                      (map_where (id sel) (replace_questions newQuestions)));;
               (match content sel with
                | Some _ =>
                    act (SetSelectedMaterial (fun _ =>
                           Some (replace_questions newQuestions sel)))
                | None => Ret tt
                end);;
               act (SetQuizAnswers ∅);;
               act (SetRevealedAnswers ∅)
             else Ret tt)
            (fun _ => act ConsoleError))
         (act (SetIsGeneratingQuestions false))).
Proof.
  intros (Hsel & Hlang & Hne & Htext). unfold generateNewQuestions.
  rewrite Hsel, Hlang. destruct language as [|l ls]; [contradiction|].
  destruct (extractedText sel) as [|c cs]; [contradiction|]. reflexivity.
Qed.

Lemma generateNewQuestions_cases (gt_zero : JSON -> option bool)
    (st : AppState) :
  generateNewQuestions gt_zero st = Ret tt
  \/ exists body,
       generateNewQuestions gt_zero st =
         Do (SetIsGeneratingQuestions true)
           (try_finally (try_catch body (fun _ => act ConsoleError))
              (act (SetIsGeneratingQuestions false))).
Proof.
  unfold generateNewQuestions.
  destruct (selectedMaterial st) as [sel|]; [|left; reflexivity].
  destruct (detectedLanguage sel) as [[|l ls]|]; try (left; reflexivity).
  destruct (negb (nonempty (extractedText sel))); [left; reflexivity|].
  right. eexists. reflexivity.
Qed.

(** X7. The promise of the regeneration handler never rejects, and the
    handler never leaves the "generating" flag up: either it returned at
    its guard without doing anything, or the flag is down when it ends,
    whether the completion failed, could not be decoded, or succeeded. *)
Theorem regeneration_always_finishes (gt_zero : JSON -> option bool)
    (env : Env) (st : AppState) :
  (regeneration_run gt_zero env st).2 = Resolved tt
  /\ (regeneration_run gt_zero env st = ([], st, Resolved tt)
      \/ isGeneratingQuestions (state_of (regeneration_run gt_zero env st))
         = false).
Proof.
  unfold regeneration_run.
  destruct (generateNewQuestions_cases gt_zero st) as [->|(body & ->)];
    [split; [|left]; reflexivity|].
  assert (ensures (try_catch body (fun _ => act ConsoleError))
            (fun _ r => r = Resolved tt)) as Hbody.
  { apply (ensures_try_catch _ _ (fun _ _ => True)).
    - apply ensures_any.
    - intros s [] _. reflexivity.
    - intros e. apply ensures_do, ensures_ret. reflexivity. }
  rewrite run_do, run_try_finally.
  specialize (Hbody env 0%nat
                (apply_action (SetIsGeneratingQuestions true) st)).
  destruct (run env (try_catch body _) 0 _) as [[tr st2] r].
  cbn [snd] in Hbody. subst r. cbn [run act trace_of state_of fst snd].
  split; [reflexivity|right; reflexivity].
Qed.

(** X8. A regeneration whose completion fails keeps everything: the
    handler raises the flag, sends the one request, logs the error and
    lowers the flag. The materials, the selection and the answers given
    are untouched, so the old questions stay. *)
Theorem failed_regeneration_keeps_questions (gt_zero : JSON -> option bool)
    (env : Env) (st : AppState) (sel : UploadedMaterial)
    (language : list N) (e : Thrown) :
  can_regenerate st sel language ->
  completion env 0 (newQuestions_input (extractedText sel) language)
    = Rejected e ->
  regeneration_run gt_zero env st
    = ([ EvDo (SetIsGeneratingQuestions true);
         EvCompletion
           (request_of (newQuestions_input (extractedText sel) language));
         EvDo ConsoleError;
         EvDo (SetIsGeneratingQuestions false) ],
       with_isGeneratingQuestions false st,
       Resolved tt).
Proof.
  intros Hcan Hrej. unfold regeneration_run.
  rewrite (generateNewQuestions_started gt_zero st sel language Hcan).
  rewrite run_do. set (rest := run env _ 0 _).
  assert (rest
          = ([ EvCompletion
                 (request_of (newQuestions_input (extractedText sel) language));
               EvDo ConsoleError;
               EvDo (SetIsGeneratingQuestions false) ],
             with_isGeneratingQuestions false st,
             Resolved tt)) as ->; [|reflexivity].
  unfold rest. rewrite run_try_finally, run_try_catch.
  unfold mbind at 1, Async_bind at 1.
  rewrite run_bind, run_mutationFn by apply well_formed_newQuestions.
  rewrite Hrej. reflexivity.
Qed.

Lemma failed_regeneration_keeps_questions_witness :
  regeneration_run (fun _ => None) offline_env reselected
    = ([ EvDo (SetIsGeneratingQuestions true);
         EvCompletion
           (request_of
              (newQuestions_input (extractedText uploaded_sample)
                 (lit "English")));
         EvDo ConsoleError;
         EvDo (SetIsGeneratingQuestions false) ],
       with_isGeneratingQuestions false reselected,
       Resolved tt).
Proof.
  apply (failed_regeneration_keeps_questions (fun _ => None) offline_env
           reselected uploaded_sample (lit "English")
           (ErrorObject (lit "Failed to fetch"))).
  - split; [vm_compute; reflexivity|].
    split; [vm_compute; reflexivity|].
    split; vm_compute; discriminate.
  - vm_compute. reflexivity.
Defined.

(** The state in which a regeneration ends whose completion decodes to a
    list of at least one question, through the handler's own updates. *)
Lemma run_regeneration_decoded (gt_zero : JSON -> option bool)
    (env : Env) (st : AppState) (sel : UploadedMaterial)
    (language : list N) (g : GPTChatResponse) (q : JSON) (qs : list JSON) :
  can_regenerate st sel language ->
  completion env 0 (newQuestions_input (extractedText sel) language)
    = Resolved g ->
  parse_newQuestions (gpt_content g) = Ret (JArray (q :: qs)) ->
  materials (state_of (regeneration_run gt_zero env st))
    = map_where (id sel) (replace_questions (JArray (q :: qs)))
        (materials st)
  /\ selectedMaterial (state_of (regeneration_run gt_zero env st))
     = Some (replace_questions (JArray (q :: qs)) sel)
  /\ quizAnswers (state_of (regeneration_run gt_zero env st)) = ∅
  /\ revealedAnswers (state_of (regeneration_run gt_zero env st)) = ∅
  /\ isGeneratingQuestions (state_of (regeneration_run gt_zero env st))
     = false.
Proof.
  intros Hcan Hres Hparse. unfold regeneration_run.
  rewrite (generateNewQuestions_started gt_zero st sel language Hcan).
  destruct Hcan as (Hsel & _).
  rewrite run_do. unfold state_of at 1 3 5 7 9. cbn [fst snd].
  set (rest := run env _ 0 _).
  assert (state_of rest
          = apply_actions
              [ SetMaterials
                  (map_where (id sel) (replace_questions (JArray (q :: qs))));
                SetSelectedMaterial
                  (fun prev =>
                     match content sel with
                     | Some _ =>
                         Some (replace_questions (JArray (q :: qs)) sel)
                     | None => prev
                     end);
                SetQuizAnswers ∅; SetRevealedAnswers ∅;
                SetIsGeneratingQuestions false ]
              (apply_action (SetIsGeneratingQuestions true) st)) as ->.
  { unfold rest. rewrite run_try_finally, run_try_catch.
    unfold mbind at 1, Async_bind at 1.
    rewrite run_bind, run_mutationFn by apply well_formed_newQuestions.
    rewrite Hres. cbn iota beta. rewrite Hparse.
    unfold mbind, Async_bind. cbn [bind act length_gt_zero bool_decide].
    destruct (content sel); reflexivity. }
  unfold apply_actions. cbn [foldl].
  rewrite !materials_apply_action, !selectedMaterial_apply_action.
  repeat split. cbn beta. rewrite Hsel. unfold replace_questions.
  destruct (content sel); reflexivity.
Qed.

Lemma questions_replaced_replace (target : list N) (questions : JSON)
    (m : UploadedMaterial) :
  questions_replaced target questions m
    (if decide (id m = target) then replace_questions questions m else m).
Proof.
  unfold questions_replaced. case_decide as Hid.
  - split; [apply replace_questions_only|].
    unfold replace_questions. destruct (content m); reflexivity.
  - split; [apply only_questions_differ_refl|].
    destruct (content m); reflexivity.
Qed.

(** X9. A regeneration whose completion decodes to a list of at least
    one question puts that list, as the quiz questions, into every
    material that has the selected identifier and a content, and into
    the selection; every other field and every other material is as it
    was. It clears the answers given and revealed, and the flag is down
    at the end. *)
Theorem regeneration_replaces_questions (gt_zero : JSON -> option bool)
    (env : Env) (st : AppState) (sel : UploadedMaterial)
    (language : list N) (g : GPTChatResponse) (q : JSON) (qs : list JSON) :
  can_regenerate st sel language ->
  completion env 0 (newQuestions_input (extractedText sel) language)
    = Resolved g ->
  parse_newQuestions (gpt_content g) = Ret (JArray (q :: qs)) ->
  Forall2 (questions_replaced (id sel) (JArray (q :: qs)))
    (materials st)
    (materials (state_of (regeneration_run gt_zero env st)))
  /\ (exists sel',
        selectedMaterial (state_of (regeneration_run gt_zero env st))
          = Some sel'
        /\ questions_replaced (id sel) (JArray (q :: qs)) sel sel')
  /\ quizAnswers (state_of (regeneration_run gt_zero env st)) = ∅
  /\ revealedAnswers (state_of (regeneration_run gt_zero env st)) = ∅
  /\ isGeneratingQuestions (state_of (regeneration_run gt_zero env st))
     = false.
Proof.
  intros Hcan Hres Hparse.
  destruct (run_regeneration_decoded gt_zero env st sel language g q qs
              Hcan Hres Hparse) as (-> & -> & Ha & Hr & Hf).
  split; [|split; [|auto]].
  - unfold map_where. apply Forall2_fmap_r, Forall_Forall2_diag, Forall_forall.
    intros m _. apply questions_replaced_replace.
  - eexists. split; [reflexivity|].
    pose proof (questions_replaced_replace (id sel) (JArray (q :: qs)) sel)
      as H.
    rewrite decide_True in H by reflexivity. exact H.
Qed.

Lemma regeneration_replaces_questions_witness :
  Forall2
    (questions_replaced (id uploaded_sample)
       (JArray [ JNumber {| num_neg := false; num_mantissa := 1;
                            num_exp10 := 0 |};
                 JNumber {| num_neg := false; num_mantissa := 2;
                            num_exp10 := 0 |} ]))
    (materials reselected)
    (materials (state_of (regeneration_run (fun _ => None) quiz_env
                            reselected)))
  /\ (exists sel',
        selectedMaterial
          (state_of (regeneration_run (fun _ => None) quiz_env reselected))
          = Some sel'
        /\ questions_replaced (id uploaded_sample)
             (JArray [ JNumber {| num_neg := false; num_mantissa := 1;
                                  num_exp10 := 0 |};
                       JNumber {| num_neg := false; num_mantissa := 2;
                                  num_exp10 := 0 |} ])
             uploaded_sample sel')
  /\ quizAnswers
       (state_of (regeneration_run (fun _ => None) quiz_env reselected)) = ∅
  /\ revealedAnswers
       (state_of (regeneration_run (fun _ => None) quiz_env reselected)) = ∅
  /\ isGeneratingQuestions
       (state_of (regeneration_run (fun _ => None) quiz_env reselected))
     = false.
Proof.
  apply (regeneration_replaces_questions (fun _ => None) quiz_env reselected
           uploaded_sample (lit "English")
           {| gpt_content := lit "{" ++ quoted "questions" ++ lit ": [1, 2]}";
              gpt_id := lit "cmpl-1"; gpt_model := lit "MaaS_4.1";
              gpt_usage := {| prompt_tokens := 0; completion_tokens := 0;
                              total_tokens := 0 |};
              finishReason := lit "stop" |}).
  - split; [vm_compute; reflexivity|].
    split; [vm_compute; reflexivity|].
    split; vm_compute; discriminate.
  - vm_compute. reflexivity.
  - vm_compute. reflexivity.
Defined.

(** ** Further properties: the chat-completion hook *)

Lemma run_mutationFn_ill_formed (env : Env) (input : GPTChatInput) (n : nat)
    (st : AppState) :
  well_formed input = false ->
  run env (mutationFn input) n st
    = ([], st, Rejected (ErrorObject (validation_error input))).
Proof.
  unfold well_formed, mutationFn, validation_error.
  destruct (messages input) as [|m ms]; [reflexivity|].
  intros H. apply negb_false_iff in H. rewrite H. reflexivity.
Qed.

(** X10. The hook validates before it sends. An input without a
    message, or with a message whose content is empty, is rejected with
    the validation error and nothing is requested; every other input
    sends exactly one request; the state is untouched either way. The
    prompts of the application never fail the validation: the seven
    inputs of an upload and the input of a regeneration are well formed
    for every text and language, the empty ones included. *)
Theorem chat_validates_before_it_sends (env : Env) (input : GPTChatInput)
    (n : nat) (st : AppState) :
  run env (mutationFn input) n st
    = (if well_formed input
       then ([EvCompletion (request_of input)], st, completion env n input)
       else ([], st, Rejected (ErrorObject (validation_error input))))
  /\ forall len text language,
       Forall (fun i => well_formed i = true)
         (pipeline_inputs len text language
            ++ [newQuestions_input text language]).
Proof.
  split.
  - destruct (well_formed input) eqn:Hwf.
    + apply run_mutationFn. exact Hwf.
    + apply run_mutationFn_ill_formed. exact Hwf.
  - intros len text language. apply Forall_app. split.
    + apply well_formed_inputs.
    + constructor; [apply well_formed_newQuestions | constructor].
Qed.

(** X11. A completion that the hook resolves always has content: the
    input passed the validation, exactly one request was sent, the back
    end answered without error and with at least one choice, and the
    result is the non-empty content of the first choice, with the
    identifier, model and usage of the response and the finish reason of
    that choice. The state is untouched. *)
Theorem resolved_completion_has_content (env : Env) (input : GPTChatInput)
    (n : nat) (st : AppState) (g : GPTChatResponse) :
  (run env (mutationFn input) n st).2 = Resolved g ->
  gpt_content g <> []
  /\ run env (mutationFn input) n st
     = ([EvCompletion (request_of input)], st, Resolved g)
  /\ exists response data first others,
       env_chat env n (request_of input) = Resolved response
       /\ response_error response = false
       /\ response_data response = Some data
       /\ choices data = Some (first :: others)
       /\ message first = Some (Some (gpt_content g))
       /\ gpt_id g = data_id data
       /\ gpt_model g = data_model data
       /\ gpt_usage g = usage data
       /\ finishReason g = finish_reason first.
Proof.
  destruct (well_formed input) eqn:Hwf.
  2: { rewrite (run_mutationFn_ill_formed env input n st Hwf).
       discriminate. }
  rewrite (run_mutationFn env input n st Hwf). cbn [snd].
  unfold completion, read_completion.
  destruct (env_chat env n (request_of input)) as [response|e];
    [|discriminate].
  destruct (response_error response) eqn:Herr; [discriminate|].
  destruct (response_data response) as [data|] eqn:Hdata; [|discriminate].
  destruct (choices data) as [[|first others]|] eqn:Hchoices;
    try discriminate.
  destruct (message first) as [[[|c cs]|]|] eqn:Hmsg; try discriminate.
  intros [= <-]. cbn [gpt_content gpt_id gpt_model gpt_usage finishReason].
  split; [discriminate|]. split; [reflexivity|].
  exists response, data, first, others. repeat split; assumption.
Qed.

Lemma resolved_completion_has_content_witness :
  gpt_content
    {| gpt_content := lit "{}"; gpt_id := lit "cmpl-1";
       gpt_model := lit "MaaS_4.1";
       gpt_usage := {| prompt_tokens := 0; completion_tokens := 0;
                       total_tokens := 0 |};
       finishReason := lit "stop" |} <> []
  /\ run sample_env (mutationFn (summary_input [] (lit "English"))) 1
       initial_state
     = ([EvCompletion (request_of (summary_input [] (lit "English")))],
        initial_state,
        Resolved
          {| gpt_content := lit "{}"; gpt_id := lit "cmpl-1";
             gpt_model := lit "MaaS_4.1";
             gpt_usage := {| prompt_tokens := 0; completion_tokens := 0;
                             total_tokens := 0 |};
             finishReason := lit "stop" |})
  /\ exists response data first others,
       env_chat sample_env 1 (request_of (summary_input [] (lit "English")))
         = Resolved response
       /\ response_error response = false
       /\ response_data response = Some data
       /\ choices data = Some (first :: others)
       /\ message first = Some (Some (lit "{}"))
       /\ lit "cmpl-1" = data_id data
       /\ lit "MaaS_4.1" = data_model data
       /\ {| prompt_tokens := 0; completion_tokens := 0; total_tokens := 0 |}
          = usage data
       /\ lit "stop" = finish_reason first.
Proof.
  apply (resolved_completion_has_content sample_env
           (summary_input [] (lit "English")) 1 initial_state).
  vm_compute. reflexivity.
Defined.
(** ** Further properties: the generation pipeline *)

Lemma run_stage {B : Type} (env : Env) (input : GPTChatInput)
    (f : GPTChatResponse -> Async B) (n : nat) (st : AppState) :
  well_formed input = true ->
  run env (bind (mutationFn input) f) n st =
    match completion env n input with
    | Resolved g =>
        let '(tr, st', r) := run env (f g) (S n) st in
        (EvCompletion (request_of input) :: tr, st', r)
    | Rejected e => ([EvCompletion (request_of input)], st, Rejected e)
    end.
Proof.
  intros Hwf. rewrite run_bind, (run_mutationFn env input n st Hwf).
  destruct (completion env n input) as [g|e]; [|reflexivity].
  cbn [chat_calls length]. rewrite Nat.add_1_r.
  destruct (run env (f g) (S n) st) as [[tr st'] r]. reflexivity.
Qed.

(** The run of the pipeline, stage by stage: the stages done, the
    progress reported, and the outcome. *)
Lemma run_generateLearningContent (env : Env) (text : list N)
    (len : LessonLength) (n : nat) (st : AppState) :
  exists tr st' o,
    run env (generateLearningContent text len) n st = (tr, st', o)
    /\ ((exists k input e,
           (k < 5)%nat
           /\ completion env (n + k) input = Rejected e
           /\ o = Rejected e
           /\ progress_values tr = take (S k) pipeline_progress)
        \/ (exists g0 g1 g2 g3 g4 c,
              completion env n (detectLanguage_input text) = Resolved g0
              /\ completion env (n + 1)
                   (lessons_input (lessonConfig len) text
                      (trim (gpt_content g0)))
                 = Resolved g1
              /\ completion env (n + 2)
                   (quiz_input text (trim (gpt_content g0))) = Resolved g2
              /\ completion env (n + 3)
                   (summary_input text (trim (gpt_content g0))) = Resolved g3
              /\ completion env (n + 4)
                   (flashcards_input text (trim (gpt_content g0)))
                 = Resolved g4
              /\ o = Resolved c
              /\ lc_detectedLanguage c = trim (gpt_content g0)
              /\ summary c = gpt_content g3
              /\ parse_lessons (gpt_content g1) = Ret (microLessons c)
              /\ parse_questions (gpt_content g2) = Ret (quizQuestions c)
              /\ parse_flashcards (gpt_content g4) = Ret (flashcards c)
              /\ progress_values tr = pipeline_progress)).
Proof.
  replace (n + 1)%nat with (S n) by lia.
  replace (n + 2)%nat with (S (S n)) by lia.
  replace (n + 3)%nat with (S (S (S n))) by lia.
  replace (n + 4)%nat with (S (S (S (S n)))) by lia.
  unfold generateLearningContent, detectLanguage, mbind, Async_bind.
  cbn [bind act run].
  rewrite run_bind_assoc, run_stage by reflexivity.
  destruct (completion env n (detectLanguage_input text)) as [g0|e] eqn:H0.
  2: { do 3 eexists. split; [reflexivity|]. left.
       exists 0%nat, (detectLanguage_input text), e.
       rewrite Nat.add_0_r. repeat split; [lia | exact H0]. }
  cbn [bind run]. set (language := trim (gpt_content g0)).
  rewrite run_stage by reflexivity.
  destruct (completion env (S n) (lessons_input _ text language))
    as [g1|e] eqn:H1.
  2: { do 3 eexists. split; [reflexivity|]. left.
       exists 1%nat, (lessons_input (lessonConfig len) text language), e.
       rewrite Nat.add_1_r. repeat split; [lia | exact H1]. }
  cbn [run]. rewrite run_stage by reflexivity.
  destruct (completion env (S (S n)) (quiz_input text language))
    as [g2|e] eqn:H2.
  2: { do 3 eexists. split; [reflexivity|]. left.
       exists 2%nat, (quiz_input text language), e.
       replace (n + 2)%nat with (S (S n)) by lia.
       repeat split; [lia | exact H2]. }
  cbn [run]. rewrite run_stage by reflexivity.
  destruct (completion env (S (S (S n))) (summary_input text language))
    as [g3|e] eqn:H3.
  2: { do 3 eexists. split; [reflexivity|]. left.
       exists 3%nat, (summary_input text language), e.
       replace (n + 3)%nat with (S (S (S n))) by lia.
       repeat split; [lia | exact H3]. }
  cbn [run]. rewrite run_stage by reflexivity.
  destruct (completion env (S (S (S (S n)))) (flashcards_input text language))
    as [g4|e] eqn:H4.
  2: { do 3 eexists. split; [reflexivity|]. left.
       exists 4%nat, (flashcards_input text language), e.
       replace (n + 4)%nat with (S (S (S (S n)))) by lia.
       repeat split; [lia | exact H4]. }
  destruct (decoder_returns Lessons (gpt_content g1)) as [v1 Hv1].
  destruct (decoder_returns Questions (gpt_content g2)) as [v2 Hv2].
  destruct (decoder_returns Flashcards (gpt_content g4)) as [v4 Hv4].
  cbn [decoder] in Hv1, Hv2, Hv4. rewrite Hv1, Hv2, Hv4. cbn [bind run].
  do 3 eexists. split; [reflexivity|]. right.
  exists g0, g1, g2, g3, g4. eexists.
  repeat split; try eassumption; reflexivity.
Qed.

(** X12. Inside the generation pipeline the progress only grows: the
    values reported are 10, 25, 40, 60, 80, 100 in this order, cut after
    the stage whose completion failed; all six are reported exactly when
    the pipeline resolves. *)
Theorem pipeline_progress_only_grows (env : Env) (text : list N)
    (len : LessonLength) (n : nat) (st : AppState) :
  progress_values (trace_of (run env (generateLearningContent text len) n st))
    `prefix_of` pipeline_progress
  /\ ((exists c,
         (run env (generateLearningContent text len) n st).2 = Resolved c)
      <-> progress_values
            (trace_of (run env (generateLearningContent text len) n st))
          = pipeline_progress).
Proof.
  destruct (run_generateLearningContent env text len n st)
    as (tr & st' & o & ->
        & [(k & input & e & Hk & _ & -> & Hp)
          |(g0 & g1 & g2 & g3 & g4 & c & _ & _ & _ & _ & _ & -> & _ & _ & _
            & _ & _ & Hp)]);
    unfold trace_of; cbn [fst snd]; rewrite Hp.
  - split; [apply prefix_take|].
    split; [intros [c Hc]; discriminate Hc|].
    intros Heq. exfalso.
    apply (f_equal length) in Heq. rewrite length_take in Heq.
    cbn [pipeline_progress length] in Heq. lia.
  - split; [reflexivity|]. split; [reflexivity | intros _; exists c; reflexivity].
Qed.

(** X13. The content is generated all or nothing. If any of the five
    completions fails, the pipeline rejects with that error and builds no
    content. If it resolves, all five succeeded, in this order and each
    with the language of the first; the language of the content is the
    first completion trimmed, the summary is the fourth completion as it
    came, and the three lists are what the decoders made of the second,
    third and fifth. *)
Theorem learning_content_is_all_or_nothing (env : Env) (text : list N)
    (len : LessonLength) (n : nat) (st : AppState) :
  match (run env (generateLearningContent text len) n st).2 with
  | Resolved c =>
      exists g0 g1 g2 g3 g4,
        completion env n (detectLanguage_input text) = Resolved g0
        /\ completion env (n + 1)
             (lessons_input (lessonConfig len) text (trim (gpt_content g0)))
           = Resolved g1
        /\ completion env (n + 2)
             (quiz_input text (trim (gpt_content g0))) = Resolved g2
        /\ completion env (n + 3)
             (summary_input text (trim (gpt_content g0))) = Resolved g3
        /\ completion env (n + 4)
             (flashcards_input text (trim (gpt_content g0))) = Resolved g4
        /\ lc_detectedLanguage c = trim (gpt_content g0)
        /\ summary c = gpt_content g3
        /\ parse_lessons (gpt_content g1) = Ret (microLessons c)
        /\ parse_questions (gpt_content g2) = Ret (quizQuestions c)
        /\ parse_flashcards (gpt_content g4) = Ret (flashcards c)
  | Rejected e =>
      exists k input,
        (k < 5)%nat /\ completion env (n + k) input = Rejected e
  end.
Proof.
  destruct (run_generateLearningContent env text len n st)
    as (tr & st' & o & ->
        & [(k & input & e & Hk & He & -> & _)
          |(g0 & g1 & g2 & g3 & g4 & c & H0 & H1 & H2 & H3 & H4 & -> & Hrest)]);
    cbn [snd].
  - exists k, input. split; assumption.
  - exists g0, g1, g2, g3, g4.
    destruct Hrest as (? & ? & ? & ? & ? & _). repeat split; assumption.
Qed.

(** X14. The prompts read a bounded prefix of the text: the seven
    requests of an upload and the request of a regeneration are those of
    the first 4000 code units of the extracted text, whatever follows
    them. *)
Theorem prompts_read_a_bounded_prefix (len : LessonLength)
    (text language : list N) :
  pipeline_inputs len text language
    = pipeline_inputs len (take 4000 text) language
  /\ newQuestions_input text language
     = newQuestions_input (take 4000 text) language.
Proof.
  unfold pipeline_inputs, later_inputs, later_builders, detectLanguage_input,
    lessons_input, quiz_input, summary_input, flashcards_input,
    generateSuggestedTitle_input, categorizeContent_input,
    newQuestions_input, slice0.
  cbn [map]. rewrite !take_take. split; reflexivity.
Qed.

(** ** Further properties: delete, rename, suggested title *)

Lemma filter_all {A : Type} (P : A -> Prop) `{!forall x, Decision (P x)}
    (l : list A) :
  Forall P l -> filter P l = l.
Proof.
  induction 1 as [|x l Hx _ IH]; [reflexivity|].
  rewrite filter_cons_True by exact Hx. rewrite IH. reflexivity.
Qed.

(** X15. Deleting removes exactly the materials that have the given
    identifier: the others stay, in their order, and no material with
    that identifier is left. The selection is cleared when it named the
    deleted material and kept otherwise; deleting an identifier that no
    material has leaves the list as it is. *)
Theorem delete_removes_exactly_the_target (env : Env) (st : AppState)
    (target : list N) (n : nat) :
  let st' := state_of (run env (deleteMaterial st target) n st) in
  (forall m, m ∈ materials st' <-> m ∈ materials st /\ id m <> target)
  /\ materials st' `sublist_of` materials st
  /\ selectedMaterial st'
     = (if selected_is st target then None else selectedMaterial st)
  /\ (target ∉ map id (materials st) -> materials st' = materials st).
Proof.
  cbn zeta. unfold deleteMaterial, mbind, Async_bind. cbn [bind act].
  assert (materials (state_of
            (run env
               (Do (SetMaterials (filter (fun m => id m <> target)))
                  (if selected_is st target
                   then act (SetSelectedMaterial (fun _ => None))
                   else Ret tt)) n st))
          = filter (fun m => id m <> target) (materials st)) as Hm.
  { destruct (selected_is st target); cbn [run act state_of fst snd];
      rewrite ?materials_apply_action; reflexivity. }
  rewrite Hm. split; [|split; [|split]].
  - intros m. rewrite list_elem_of_filter. tauto.
  - apply sublist_filter.
  - destruct (selected_is st target); cbn [run act state_of fst snd];
      rewrite ?selectedMaterial_apply_action; reflexivity.
  - intros Hnot. apply filter_all. apply Forall_forall.
    intros m Hin Heq. apply Hnot. rewrite <- Heq.
    apply list_elem_of_fmap. exists m. split; [reflexivity | exact Hin].
Qed.

Lemma last_segment_from_no_dot (acc s : list N) :
  46 ∉ acc -> 46 ∉ last_segment_from acc s.
Proof.
  revert acc. induction s as [|c s IH]; intros acc Hacc; simpl.
  - rewrite list_elem_of_In, <- in_rev, <- list_elem_of_In. exact Hacc.
  - destruct (N.eqb_spec c 46) as [->|Hne].
    + apply IH. apply not_elem_of_nil.
    + apply IH. apply not_elem_of_cons. split; [congruence | exact Hacc].
Qed.

Lemma last_segment_from_plain (acc s : list N) :
  46 ∉ s -> last_segment_from acc s = rev acc ++ s.
Proof.
  revert acc. induction s as [|c s IH]; intros acc Hs; simpl.
  - rewrite app_nil_r. reflexivity.
  - apply not_elem_of_cons in Hs as [Hc Hs].
    destruct (N.eqb_spec c 46) as [->|_]; [congruence|].
    rewrite (IH _ Hs). simpl. rewrite <- app_assoc. reflexivity.
Qed.

Lemma last_segment_from_dot (acc a e : list N) :
  last_segment_from acc (a ++ 46 :: e) = last_segment_from [] (a ++ 46 :: e).
Proof.
  revert acc. induction a as [|c a IH]; intros acc; simpl.
  - reflexivity.
  - destruct (c =? 46); [reflexivity|]. rewrite IH. symmetry. apply IH.
Qed.

(** The extension of [a.e] is [e] when [e] has no dot. *)
Lemma split_dot_pop_app (a e : list N) :
  46 ∉ e -> split_dot_pop (a ++ lit "." ++ e) = e.
Proof.
  intros He. unfold split_dot_pop. change (lit "." ++ e) with (46 :: e).
  induction a as [|c a IH]; simpl.
  - apply (last_segment_from_plain [] e He).
  - destruct (c =? 46); [exact IH|].
    rewrite last_segment_from_dot. exact IH.
Qed.

Lemma run_renameMaterial (env : Env) (st : AppState) (target newName : list N)
    (n : nat) :
  materials (state_of (run env (renameMaterial st target newName) n st))
    = map_where target (spread_fileName newName) (materials st).
Proof.
  unfold renameMaterial, mbind, Async_bind. cbn [bind act].
  destruct (selected_is st target); cbn [bind run act state_of fst snd];
    rewrite !materials_apply_action; reflexivity.
Qed.

(** X16. Applying the suggested title renames every material with the
    given identifier to the title followed by the extension of the old
    name, and changes nothing else in any material. The extension (the
    text after the last dot) is kept, so applying the title a second time
    gives the same name; without a suggested title the handler does
    nothing. *)
Theorem suggested_title_keeps_the_extension (env : Env) (st : AppState)
    (target : list N) (n : nat) :
  let st' := state_of (run env (applySuggestedTitle st target) n st) in
  match title_to_apply st target with
  | Some (title, material) =>
      materials st'
        = map_where target (spread_fileName (titled_name title material))
            (materials st)
      /\ split_dot_pop (titled_name title material)
         = split_dot_pop (fileName material)
      /\ titled_name title
           (spread_fileName (titled_name title material) material)
         = titled_name title material
  | None => run env (applySuggestedTitle st target) n st = ([], st, Resolved tt)
  end.
Proof.
  cbn zeta. unfold title_to_apply, applySuggestedTitle.
  destruct (find _ (materials st)) as [material|]; [|reflexivity].
  destruct (suggestedTitle material) as [[|c cs]|]; try reflexivity.
  assert (split_dot_pop (titled_name (c :: cs) material)
          = split_dot_pop (fileName material)) as Hext.
  { unfold titled_name. apply split_dot_pop_app.
    apply last_segment_from_no_dot, not_elem_of_nil. }
  split; [apply run_renameMaterial|]. split; [exact Hext|].
  unfold titled_name at 1. cbn [fileName spread_fileName].
  fold (titled_name (c :: cs) material). rewrite Hext. reflexivity.
Qed.
(** ** Further properties: the date view *)

Lemma compare_date_consistent (lc : list N -> list N -> Z)
    (l : list UploadedMaterial) :
  consistent_on (comparator lc by_date) l.
Proof.
  split; cbn [comparator]; unfold compare_date; intros; lia.
Qed.

Lemma insert_stable_filter {A : Type} (cmp : A -> A -> Z) (P : A -> Prop)
    `{!forall x, Decision (P x)} (x : A) (l : list A) :
  (forall y, P x -> P y -> (cmp x y <= 0)%Z) ->
  filter P (insert_stable cmp x l) = filter P (x :: l).
Proof.
  intros Hties. induction l as [|y l IH]; [reflexivity|].
  cbn [insert_stable]. destruct (0 <? cmp x y)%Z eqn:E; [|reflexivity].
  apply Z.ltb_lt in E. rewrite filter_cons, IH, !filter_cons.
  destruct (decide (P x)) as [Hx|Hx], (decide (P y)) as [Hy|Hy];
    try reflexivity.
  specialize (Hties y Hx Hy). lia.
Qed.

(** X17. The date view lists the materials newest first, for every
    list: it is a rearrangement of the materials, each one is at least
    as new as all that follow it, and materials uploaded at the same
    time keep the order they have in the store. The collation plays no
    part in it. *)
Theorem date_view_is_newest_first (lc : list N -> list N -> Z)
    (ms : list UploadedMaterial) :
  sorted_view lc by_date ms ≡ₚ ms
  /\ StronglySorted (fun a b => (uploadedAt b <= uploadedAt a)%Z)
       (sorted_view lc by_date ms)
  /\ (forall t,
        filter (fun m => uploadedAt m = t) (sorted_view lc by_date ms)
        = filter (fun m => uploadedAt m = t) ms)
  /\ sorted_view lc by_date ms = sorted_view code_unit_compare by_date ms.
Proof.
  unfold sorted_view. split; [apply sort_perm|]. split; [|split].
  - apply (StronglySorted_weaken
             (fun a b => (comparator lc by_date a b <= 0)%Z)).
    + intros a b _ _. cbn [comparator]. unfold compare_date. lia.
    + apply (sort_sorted_on _ ms ms); [apply compare_date_consistent | auto].
  - intros t. induction ms as [|m ms IH]; [reflexivity|].
    cbn [sort foldr]. fold (sort (comparator lc by_date) ms).
    rewrite insert_stable_filter.
    + rewrite !filter_cons, IH. reflexivity.
    + intros y Hm Hy. cbn [comparator]. unfold compare_date. lia.
  - reflexivity.
Qed.

(** ** Further properties: what a reload restores *)

Lemma keeps_copy_step (a : Action) (st : AppState) :
  keeps_copy a -> copy_in_step st -> copy_in_step (apply_action a st).
Proof.
  intros Ha [Hne Hcopy]. unfold copy_in_step.
  destruct a; try (split; assumption).
  - pose proof (persisted_when_nonempty f st (Ha _ Hne)) as [_ Hload].
    rewrite materials_apply_action. split; [apply Ha, Hne | exact Hload].
  - cbn [apply_action materials with_localStorage localStorage].
    split; [exact Hne|]. unfold load_materials in *.
    rewrite lookup_insert_ne by exact Ha.
    exact Hcopy.
Qed.

Lemma map_where_nonempty (i : list N)
    (g : UploadedMaterial -> UploadedMaterial) (ms : list UploadedMaterial) :
  ms <> [] -> map_where i g ms <> [].
Proof. destruct ms; [contradiction | discriminate]. Qed.

(** X18. After an accepted upload, however it ended, the stored copy is
    up to date: loading the page again gives back the materials of the
    final state, one for one and in their order. Each comes back with
    its identifier, names, dates, texts, status and error, and with its
    numbers as JSON writes them ([null] for one that is not finite, [0]
    for a negative zero); so it comes back in full when its numbers are
    ones that JSON can write, and a store of such materials is restored
    exactly. *)
Theorem reload_restores_the_upload (env : Env) (st : AppState)
    (ev : UploadEvent) (file : File) :
  accepts st ev file ->
  Forall2 restored
    (materials (state_of (upload_run env st ev)))
    (load_materials (localStorage (state_of (upload_run env st ev))))
  /\ (Forall (fun m => storable m = true)
         (materials (state_of (upload_run env st ev))) ->
      load_materials (localStorage (state_of (upload_run env st ev)))
      = materials (state_of (upload_run env st ev))).
Proof.
  intros Hacc.
  assert (copy_in_step (state_of (upload_run env st ev))) as [_ Hcopy].
  { unfold upload_run.
    rewrite (handleFileUpload_accepted st ev file Hacc), run_prologue.
    unfold state_of. cbn [fst snd].
    apply (run_invariant copy_in_step keeps_copy).
    - intros a s. apply keeps_copy_step.
    - apply ActionsIn_upload_body; try exact I; try (intros; exact I).
      intros g _ ms. apply map_where_nonempty.
    - unfold apply_actions, upload_prologue. cbn [foldl].
      do 4 (apply keeps_copy_step; [first [exact I | discriminate]|]).
      assert (materials st ++ [newMaterial file ev] <> []) as Hne
        by (destruct (materials st); discriminate).
      split.
      + rewrite materials_apply_action. exact Hne.
      + rewrite materials_apply_action.
        apply (persisted_when_nonempty
                 (fun prev => prev ++ [newMaterial file ev]) st Hne). }
  rewrite Hcopy. split.
  - apply Forall2_fmap_r, Forall_Forall2_diag, Forall_forall.
    intros m _. apply reloaded_restores.
  - intros Hall. rewrite <- (map_id (materials _)) at 2.
    apply map_ext_Forall. eapply Forall_impl; [exact Hall|].
    intros m. apply revive_toJSON.
Qed.

Lemma reload_restores_the_upload_witness :
  Forall2 restored
    (materials (state_of (upload_run sample_env initial_state sample_event)))
    (load_materials
       (localStorage
          (state_of (upload_run sample_env initial_state sample_event))))
  /\ (Forall (fun m => storable m = true)
         (materials
            (state_of (upload_run sample_env initial_state sample_event))) ->
      load_materials
        (localStorage
           (state_of (upload_run sample_env initial_state sample_event)))
      = materials
          (state_of (upload_run sample_env initial_state sample_event))).
Proof.
  apply (reload_restores_the_upload sample_env initial_state sample_event
           sample_file).
  repeat split.
Defined.

(** The numbers that are not written as they are: an infinite one, a
    negative zero, and a negative number too small for a double. *)
Example numbers_json_cannot_write :
  option_map toJSON_value (JSON_parse (lit "[1e999, -0, 1.5, -1e-999]"))
  = Some (JArray
            [ JNull;
              JNumber {| num_neg := false; num_mantissa := 0;
                         num_exp10 := 0 |};
              JNumber {| num_neg := false; num_mantissa := 15;
                         num_exp10 := -1 |};
              JNumber {| num_neg := false; num_mantissa := 0;
                         num_exp10 := 0 |} ]).
Proof. vm_compute. reflexivity. Qed.

(** The last literal that still rounds to the largest finite double, and
    the first that does not. *)
Example largest_finite_literal :
  option_map toJSON_value (JSON_parse (lit "1.7976931348623158e308"))
  = JSON_parse (lit "1.7976931348623158e308")
  /\ option_map toJSON_value (JSON_parse (lit "1.7976931348623159e308"))
     = Some JNull.
Proof. vm_compute. split; reflexivity. Qed.

(** A completion can put such a number into a material: the lessons in
    memory are [Infinity], the lessons read back are [null]. *)
Example infinite_lessons_are_not_restored :
  map (fun m => option_map microLessons (content m))
    (materials (state_of (upload_run overflow_env initial_state sample_event)))
  = [Some (JNumber {| num_neg := false; num_mantissa := 1;
                      num_exp10 := 999 |})]
  /\ map (fun m => option_map microLessons (content m))
       (load_materials
          (localStorage
             (state_of (upload_run overflow_env initial_state sample_event))))
     = [Some JNull].
Proof. vm_compute. split; reflexivity. Qed.

(** X19. The daily counter an accepted upload consumed is what a reload
    on the same day restores: the mount effect reads back the very count
    the state ends with, and writes nothing. On any other day it
    restarts the counter at 0 and stores that. *)
Theorem upload_count_survives_reload (env : Env) (st : AppState)
    (ev : UploadEvent) (file : File) :
  accepts st ev file ->
  let st' := state_of (upload_run env st ev) in
  load_upload_limits (today ev) (localStorage st')
    = (todayUploadCount st', localStorage st')
  /\ forall day, day <> today ev ->
       load_upload_limits day (localStorage st')
         = (0%Z, <[UPLOAD_LIMIT_KEY := StoredLimits day 0]> (localStorage st')).
Proof.
  intros Hacc. cbn zeta.
  assert (todayUploadCount (state_of (upload_run env st ev))
            = (todayUploadCount st + 1)%Z
          /\ localStorage (state_of (upload_run env st ev)) !! UPLOAD_LIMIT_KEY
             = Some (StoredLimits (today ev) (todayUploadCount st + 1)))
    as [Hcount Hstored].
  { unfold upload_run.
    rewrite (handleFileUpload_accepted st ev file Hacc), run_prologue.
    unfold state_of at 1 3. cbn [fst snd].
    pose proof (upload_body_after_increment st file (fresh_id ev)
                  error_message) as Hbody.
    split.
    - rewrite (run_frame todayUploadCount after_increment env _
                 after_increment_count Hbody).
      reflexivity.
    - rewrite (run_frame (fun s => localStorage s !! UPLOAD_LIMIT_KEY)
                 after_increment env _ after_increment_stored Hbody).
      unfold apply_actions, upload_prologue. cbn [foldl].
      cbn [apply_action localStorage with_localStorage].
      apply lookup_insert_eq. }
  unfold load_upload_limits. rewrite Hstored, Hcount. split.
  - rewrite decide_True by reflexivity.
    destruct (Z.eqb_spec (todayUploadCount st + 1) 0) as [->|_]; reflexivity.
  - intros day Hday. rewrite decide_False by (intros Heq; apply Hday; symmetry; exact Heq).
    reflexivity.
Qed.

Lemma upload_count_survives_reload_witness :
  let st' := state_of (upload_run sample_env initial_state sample_event) in
  load_upload_limits (today sample_event) (localStorage st')
    = (todayUploadCount st', localStorage st')
  /\ forall day, day <> today sample_event ->
       load_upload_limits day (localStorage st')
         = (0%Z, <[UPLOAD_LIMIT_KEY := StoredLimits day 0]> (localStorage st')).
Proof.
  apply (upload_count_survives_reload sample_env initial_state sample_event
           sample_file).
  repeat split.
Defined.

(** ** Further properties: the decoders *)

(** X20. A completion that is a JSON object with the expected member
    decodes to the value of that member whenever the value is truthy:
    the decoder returns it as it is, whatever its shape, and the
    fallbacks play no part. *)
Theorem decoder_returns_the_member (s : Slice) (text : list N)
    (members : list (list N * JSON)) (v : JSON) :
  JSON_parse text = Some (JObject members) ->
  own_property (field_of s) members = Some v ->
  truthy v = true ->
  decoder s text = Ret v.
Proof.
  intros Hparse Hfield Htruthy.
  destruct s; cbn [decoder field_of] in *;
    unfold parse_lessons, parse_questions, parse_flashcards, JSON_parse_js,
      field_or_empty, mbind, Async_bind;
    rewrite Hparse; cbn [bind get_field]; rewrite Hfield, Htruthy;
    reflexivity.
Qed.

Lemma decoder_returns_the_member_witness :
  decoder Flashcards
    (lit "{" ++ quoted "flashcards" ++ lit ": [{" ++ quoted "front"
       ++ lit ": " ++ quoted "ATP" ++ lit "}], " ++ quoted "note"
       ++ lit ": null}")
    = Ret (JArray [JObject [(lit "front", JString (lit "ATP"))]]).
Proof.
  apply (decoder_returns_the_member Flashcards _
           [ (lit "flashcards",
              JArray [JObject [(lit "front", JString (lit "ATP"))]]);
             (lit "note", JNull) ]);
    vm_compute; reflexivity.
Defined.

(** ** Further properties: regular expressions *)

Lemma lang_seq_inv (r1 r2 : Regex) (s : list N) :
  lang (Re_seq r1 r2) s <->
  exists s1 s2, s = s1 ++ s2 /\ lang r1 s1 /\ lang r2 s2.
Proof.
  split.
  - inversion 1; subst. eauto.
  - intros (s1 & s2 & -> & H1 & H2). constructor; assumption.
Qed.

Lemma lang_alt_inv (r1 r2 : Regex) (s : list N) :
  lang (Re_alt r1 r2) s <-> lang r1 s \/ lang r2 s.
Proof.
  split.
  - inversion 1; subst; auto.
  - intros [H|H]; [apply lang_alt_l | apply lang_alt_r]; exact H.
Qed.

Lemma lang_class_inv (p : N -> bool) (s : list N) :
  lang (Re_class p) s <-> exists c, s = [c] /\ p c = true.
Proof.
  split.
  - inversion 1; subst. eauto.
  - intros (c & -> & Hc). constructor. exact Hc.
Qed.

Lemma lang_none_inv (s : list N) : lang Re_none s <-> False.
Proof. split; [inversion 1 | contradiction]. Qed.

Lemma lang_eps_inv (s : list N) : lang Re_eps s <-> s = [].
Proof.
  split; [inversion 1; reflexivity | intros ->; constructor].
Qed.

Lemma nullable_lang (r : Regex) : nullable r = true <-> lang r [].
Proof.
  induction r as [| |p|r1 IH1 r2 IH2|r1 IH1 r2 IH2|r IH]; simpl.
  - rewrite lang_none_inv. split; [discriminate | contradiction].
  - rewrite lang_eps_inv. tauto.
  - rewrite lang_class_inv. split; [discriminate|].
    intros (c & Hc & _). discriminate Hc.
  - rewrite andb_true_iff, IH1, IH2, lang_seq_inv. split.
    + intros [H1 H2]. exists [], []. auto.
    + intros (s1 & s2 & Hs & H1 & H2). symmetry in Hs.
      apply app_eq_nil in Hs as [-> ->]. split; assumption.
  - rewrite orb_true_iff, IH1, IH2, lang_alt_inv. tauto.
  - split; [constructor | reflexivity].
Qed.

Lemma lang_star_cons (r : Regex) (c : N) (s : list N) :
  lang (Re_star r) (c :: s) ->
  exists s1 s2, s = s1 ++ s2 /\ lang r (c :: s1) /\ lang (Re_star r) s2.
Proof.
  intros H. remember (Re_star r) as r' eqn:Hr.
  remember (c :: s) as cs eqn:Hcs.
  revert s Hcs.
  induction H as [| | | | | |r0 s1 s2 H1 _ H2 IH2]; try discriminate.
  injection Hr as ->. intros s Hcs.
  destruct s1 as [|c1 s1]; simpl in Hcs.
  - apply IH2; [reflexivity | exact Hcs].
  - injection Hcs as <- <-. exists s1, s2. auto.
Qed.

Lemma derive_lang (c : N) (r : Regex) (s : list N) :
  lang (derive c r) s <-> lang r (c :: s).
Proof.
  revert s.
  induction r as [| |p|r1 IH1 r2 IH2|r1 IH1 r2 IH2|r IH]; intros s; simpl.
  - rewrite !lang_none_inv. tauto.
  - rewrite lang_none_inv, lang_eps_inv. split; [contradiction|discriminate].
  - rewrite lang_class_inv. destruct (p c) eqn:Hp.
    + rewrite lang_eps_inv. split.
      * intros ->. exists c. auto.
      * intros (d & [= <- ->] & _). reflexivity.
    + rewrite lang_none_inv. split; [contradiction|].
      intros (d & [= <- ->] & Hd). congruence.
  - assert (lang (Re_seq (derive c r1) r2) s \/
              (lang r1 [] /\ lang (derive c r2) s)
            <-> lang (Re_seq r1 r2) (c :: s)) as Hseq.
    { rewrite !lang_seq_inv. split.
      - intros [(s1 & s2 & -> & H1 & H2)|[H1 H2]].
        + exists (c :: s1), s2. rewrite <- IH1. auto.
        + exists [], (c :: s). rewrite <- IH2. auto.
      - intros (s1 & s2 & Hs & H1 & H2). destruct s1 as [|c1 s1].
        + simpl in Hs. subst s2. right. rewrite IH2. auto.
        + injection Hs as <- ->. left. exists s1, s2. rewrite IH1. auto. }
    rewrite <- Hseq. destruct (nullable r1) eqn:Hn.
    + rewrite lang_alt_inv. apply nullable_lang in Hn. tauto.
    + split; [auto|]. intros [H|[H _]]; [exact H|].
      apply nullable_lang in H. congruence.
  - rewrite !lang_alt_inv, IH1, IH2. tauto.
  - rewrite lang_seq_inv. split.
    + intros (s1 & s2 & -> & H1 & H2). apply IH in H1.
      apply (lang_star_more r (c :: s1) s2 H1 H2).
    + intros H. apply lang_star_cons in H as (s1 & s2 & -> & H1 & H2).
      exists s1, s2. rewrite IH. auto.
Qed.

(** [matches] decides the strings of the pattern. *)
Lemma matches_lang (r : Regex) (s : list N) :
  matches r s = true <-> lang r s.
Proof.
  revert r. induction s as [|c s IH]; intros r; simpl.
  - apply nullable_lang.
  - rewrite IH. apply derive_lang.
Qed.

Lemma lang_star_class (p : N -> bool) (s : list N) :
  lang (Re_star (Re_class p)) s <-> Forall (fun c => p c = true) s.
Proof.
  split.
  - intros H. remember (Re_star (Re_class p)) as r eqn:Hr.
    induction H as [| | | | | |r0 s1 s2 H1 _ H2 IH2]; try discriminate.
    + constructor.
    + injection Hr as ->. inversion H1; subst.
      constructor; [assumption | apply IH2; reflexivity].
  - induction 1 as [|c s Hc _ IH]; [constructor|].
    apply (lang_star_more _ [c] s); [constructor; exact Hc | exact IH].
Qed.

Lemma lang_plus_class (p : N -> bool) (s : list N) :
  lang (Re_plus (Re_class p)) s <->
  s <> [] /\ Forall (fun c => p c = true) s.
Proof.
  unfold Re_plus. split.
  - inversion 1 as [| |? ? s1 s2 H1 H2| | | |]; subst.
    inversion H1; subst. split; [discriminate|].
    constructor; [assumption | apply lang_star_class; assumption].
  - intros [Hne Hall]. destruct Hall as [|c s Hc Hs]; [contradiction|].
    apply (lang_seq _ _ [c] s); [constructor; exact Hc|].
    apply lang_star_class. exact Hs.
Qed.

Lemma lang_char (c : N) (s : list N) : lang (Re_char c) s <-> s = [c].
Proof.
  unfold Re_char. split.
  - inversion 1 as [|? d Hd| | | | |]; subst.
    apply N.eqb_eq in Hd. subst. reflexivity.
  - intros ->. constructor. apply N.eqb_refl.
Qed.

(** ** Further properties: accounts *)

(** X21. [validateEmail] accepts exactly the addresses of the form
    [local@domain.tld]: three parts that are not empty, joined by one
    [@] and a dot, with neither white space nor a further [@] in any of
    them. (The domain and the last part may hold further dots.) *)
Theorem validateEmail_accepts_exactly (address : list N) :
  validateEmail address = true <->
  exists a b c,
    address = a ++ lit "@" ++ b ++ lit "." ++ c
    /\ a <> [] /\ b <> [] /\ c <> []
    /\ Forall (fun x => not_space_or_at x = true) (a ++ b ++ c).
Proof.
  unfold validateEmail, emailRegex. rewrite matches_lang. split.
  - intros H.
    apply lang_seq_inv in H as (a & s1 & -> & Ha & H).
    apply lang_seq_inv in H as (at_ & s2 & -> & Hat & H).
    apply lang_seq_inv in H as (b & s3 & -> & Hb & H).
    apply lang_seq_inv in H as (dot & c & -> & Hdot & Hc).
    apply lang_char in Hat, Hdot. subst.
    apply lang_plus_class in Ha as [Ha Ha'], Hb as [Hb Hb'], Hc as [Hc Hc'].
    exists a, b, c. repeat split; try assumption.
    rewrite !Forall_app. auto.
  - intros (a & b & c & -> & Ha & Hb & Hc & Hall).
    rewrite !Forall_app in Hall. destruct Hall as (Ha' & Hb' & Hc').
    apply lang_seq; [apply lang_plus_class; auto|].
    apply lang_seq; [apply lang_char; reflexivity|].
    apply lang_seq; [apply lang_plus_class; auto|].
    apply lang_seq; [apply lang_char; reflexivity|].
    apply lang_plus_class; auto.
Qed.
Lemma revive_toJSON_userData (u : UserData) :
  revive_userData (toJSON_userData u) = u.
Proof. destruct u. reflexivity. Qed.

(** X22. An account that was registered can log in: whenever
    [handleRegister] succeeds, the user it announces has the address
    typed, the generated identifier, the time of the registration and no
    premium status; and from then on [handleLogin] with the same address
    and password succeeds and announces the very same user, whatever
    else the dialog holds and whoever is logged in. *)
Theorem registered_account_can_log_in (st : AuthDialogState)
    (stored : AuthItems) (ev : RegisterEvent) (u : UserData) :
  authenticated (handleRegister st stored ev) = Some u ->
  u = {| email := auth_email st; userId := new_userId ev;
         isPremium := false; createdAt := registered_at ev |}
  /\ forall st2 stored2,
       auth_email st2 = auth_email st ->
       auth_password st2 = auth_password st ->
       user_auth stored2 = user_auth (items (handleRegister st stored ev)) ->
       authenticated (handleLogin st2 stored2) = Some u.
Proof.
  unfold handleRegister.
  destruct (validateEmail (auth_email st)) eqn:Hemail; [|discriminate].
  destruct (validatePassword (auth_password st)) eqn:Hpw; [|discriminate].
  cbn [negb].
  destruct (decide (auth_password st <> confirmPassword st)); [discriminate|].
  destruct (users_of stored !! auth_email st); [discriminate|].
  cbn [authenticated auth_succeeded items user_auth]. intros [= <-].
  split; [reflexivity|].
  intros st2 stored2 He Hp Hu. unfold handleLogin, users_of.
  rewrite He, Hp, Hemail, Hpw, Hu.
  cbn [negb default items auth_succeeded user_auth]. unfold Datatypes.id.
  rewrite lookup_insert_eq. cbn [password userData].
  rewrite decide_False by (intros H; apply H; reflexivity).
  cbn [authenticated auth_succeeded]. rewrite revive_toJSON_userData.
  reflexivity.
Qed.

Lemma registered_account_can_log_in_witness :
  {| email := lit "ada@example.org";
     userId := lit "user_1700000000000_k3j9x0a1b";
     isPremium := false; createdAt := 1700000000000 |}
  = {| email := auth_email sample_form;
       userId := new_userId sample_registration;
       isPremium := false; createdAt := registered_at sample_registration |}
  /\ forall st2 stored2,
       auth_email st2 = auth_email sample_form ->
       auth_password st2 = auth_password sample_form ->
       user_auth stored2
         = user_auth (items (handleRegister sample_form no_accounts
                               sample_registration)) ->
       authenticated (handleLogin st2 stored2)
         = Some {| email := lit "ada@example.org";
                   userId := lit "user_1700000000000_k3j9x0a1b";
                   isPremium := false; createdAt := 1700000000000 |}.
Proof.
  apply (registered_account_can_log_in sample_form no_accounts
           sample_registration).
  vm_compute. reflexivity.
Defined.

(** X23. Accounts are only ever added. Whatever is typed into the
    dialog, every account that was stored before [handleRegister] is
    stored after it, with the same password and data; an address that
    has an account is refused with a message, and nobody is logged in.
    [handleLogin] writes nothing. *)
Theorem accounts_are_never_overwritten (st : AuthDialogState)
    (stored : AuthItems) (ev : RegisterEvent) :
  (forall address entry,
     users_of stored !! address = Some entry ->
     users_of (items (handleRegister st stored ev)) !! address = Some entry)
  /\ (is_Some (users_of stored !! auth_email st) ->
      authenticated (handleRegister st stored ev) = None
      /\ items (handleRegister st stored ev) = stored
      /\ auth_error (dialog (handleRegister st stored ev)) <> [])
  /\ items (handleLogin st stored) = stored.
Proof.
  split; [|split].
  - intros address entry Hentry. unfold handleRegister.
    destruct (negb (validateEmail (auth_email st))); [exact Hentry|].
    destruct (negb (validatePassword (auth_password st))); [exact Hentry|].
    destruct (decide (auth_password st <> confirmPassword st));
      [exact Hentry|].
    destruct (users_of stored !! auth_email st) eqn:Hfree; [exact Hentry|].
    cbn [items auth_succeeded]. unfold users_of at 1.
    cbn [user_auth default]. unfold Datatypes.id.
    rewrite lookup_insert_ne; [exact Hentry|].
    intros <-. congruence.
  - intros [entry Hentry]. unfold handleRegister.
    destruct (negb (validateEmail (auth_email st)));
      [repeat split; discriminate|].
    destruct (negb (validatePassword (auth_password st)));
      [repeat split; discriminate|].
    destruct (decide (auth_password st <> confirmPassword st));
      [repeat split; discriminate|].
    rewrite Hentry. repeat split; discriminate.
  - unfold handleLogin.
    destruct (negb (validateEmail (auth_email st))); [reflexivity|].
    destruct (negb (validatePassword (auth_password st))); [reflexivity|].
    destruct (users_of stored !! auth_email st); [|reflexivity].
    destruct (decide (password u <> auth_password st)); reflexivity.
Qed.

(** X24. [handleLogin] announces a user exactly when the address and the
    password pass the validation, the address has an account, and the
    password typed is the password stored; the user is the stored one,
    with its date revived. In every other case it shows a message and
    keeps what was typed. The loading flag is down at the end either
    way. *)
Theorem login_requires_the_password (st : AuthDialogState)
    (stored : AuthItems) :
  (forall u,
     authenticated (handleLogin st stored) = Some u <->
     validateEmail (auth_email st) = true
     /\ validatePassword (auth_password st) = true
     /\ exists entry,
          users_of stored !! auth_email st = Some entry
          /\ password entry = auth_password st
          /\ u = revive_userData (userData entry))
  /\ (authenticated (handleLogin st stored) = None ->
      auth_error (dialog (handleLogin st stored)) <> []
      /\ auth_email (dialog (handleLogin st stored)) = auth_email st
      /\ auth_password (dialog (handleLogin st stored)) = auth_password st)
  /\ isLoading (dialog (handleLogin st stored)) = false.
Proof.
  unfold handleLogin.
  destruct (validateEmail (auth_email st)); cbn [negb].
  2: { repeat split; try discriminate. intros (H & _). discriminate H. }
  destruct (validatePassword (auth_password st)); cbn [negb].
  2: { repeat split; try discriminate. intros (_ & H & _). discriminate H. }
  destruct (users_of stored !! auth_email st) as [entry|].
  2: { repeat split; try discriminate.
       intros (_ & _ & e & H & _). discriminate H. }
  destruct (decide (password entry <> auth_password st)) as [Hne|Heq].
  - repeat split; try discriminate.
    intros (_ & _ & e & [= <-] & H & _). contradiction.
  - apply dec_stable in Heq. split; [|split; [discriminate|reflexivity]].
    intros u. cbn [authenticated auth_succeeded]. split.
    + intros [= <-]. repeat split. exists entry. auto.
    + intros (_ & _ & e & [= <-] & _ & ->). reflexivity.
Qed.


(** X26. Logging out ends the session, also across a reload: no user is
    left, neither in the state nor in the stored items, the session is
    not premium, and the mount effect restores neither. The accounts
    stay, and so do the materials and the daily counter: what was
    uploaded while logged in still counts. *)
Theorem logout_ends_the_session (st : AppState) (stored : AuthItems) :
  currentUser (handleLogout st stored).1 = None
  /\ premium_session (handleLogout st stored).1 = false
  /\ getCurrentUser (handleLogout st stored).2 = None
  /\ load_session (handleLogout st stored).2
       (localStorage (handleLogout st stored).1)
     = (None, {| sub_isPremium := false |})
  /\ user_auth (handleLogout st stored).2 = user_auth stored
  /\ materials (handleLogout st stored).1 = materials st
  /\ todayUploadCount (handleLogout st stored).1 = todayUploadCount st.
Proof.
  unfold handleLogout, load_session, getCurrentUser, logoutUser.
  cbn [fst snd current_user localStorage setSubscription].
  rewrite lookup_insert_eq. repeat split.
Qed.
(** ** Further properties: the file upload hook *)

(** X27. An upload that resolves always has a file URL: the presign
    request answered without error, with data that hold a presigned URL
    and a file URL, both not empty; the file was PUT once, to that
    presigned URL and with the content type that was presigned; the PUT
    was answered [ok]; and the result is the file URL of the presign
    answer, with its key or [''] and its success flag or [true]. *)
Theorem resolved_upload_has_a_file_url (env : UploadEnv) (file : File)
    (result : UploadFileResponse) :
  (uploadFile env file).2 = Resolved result ->
  upload_fileUrl result <> []
  /\ exists response data url status statusText,
       presign env {| req_fileName := file_name file;
                      req_contentType := contentType_of file |}
         = Resolved response
       /\ presign_error response = None
       /\ presign_data response = Some data
       /\ presignedUrl data = Some url /\ url <> []
       /\ realFileUrl data = Some (upload_fileUrl result)
       /\ (uploadFile env file).1
          = [ CallPresign {| req_fileName := file_name file;
                             req_contentType := contentType_of file |};
              CallPut url (contentType_of file) ]
       /\ put env url (contentType_of file)
          = FetchResponse true status statusText
       /\ upload_fileKey result = default [] (fileKey data)
       /\ upload_success result = default true (success data).
Proof.
  unfold uploadFile.
  destruct (presign env _) as [response|e] eqn:Hpresign; [|discriminate].
  destruct (presign_error response) eqn:Herror; [discriminate|].
  destruct (presign_data response) as [data|] eqn:Hdata; [|discriminate].
  destruct (presignedUrl data) as [[|u url]|] eqn:Hurl; try discriminate.
  destruct (realFileUrl data) as [[|f fileUrl]|] eqn:Hfile; try discriminate.
  cbn [fst snd].
  destruct (put env (u :: url) (contentType_of file))
    as [[|] status statusText|message|e] eqn:Hput;
    cbn [put_failure]; try discriminate.
  2: { destruct (includes _ message); discriminate. }
  intros [= <-]. cbn [upload_fileUrl upload_fileKey upload_success].
  split; [discriminate|].
  exists response, data, (u :: url), status, statusText.
  repeat split; try assumption; try reflexivity. discriminate.
Qed.

Lemma resolved_upload_has_a_file_url_witness :
  upload_fileUrl
    {| upload_fileUrl := lit "https://files.example/notes.txt";
       upload_fileKey := []; upload_success := true |} <> []
  /\ exists response data url status statusText,
       presign sample_upload_env
         {| req_fileName := file_name sample_file;
            req_contentType := contentType_of sample_file |}
         = Resolved response
       /\ presign_error response = None
       /\ presign_data response = Some data
       /\ presignedUrl data = Some url /\ url <> []
       /\ realFileUrl data = Some (lit "https://files.example/notes.txt")
       /\ (uploadFile sample_upload_env sample_file).1
          = [ CallPresign {| req_fileName := file_name sample_file;
                             req_contentType := contentType_of sample_file |};
              CallPut url (contentType_of sample_file) ]
       /\ put sample_upload_env url (contentType_of sample_file)
          = FetchResponse true status statusText
       /\ [] = default [] (fileKey data)
       /\ true = default true (success data).
Proof.
  apply (resolved_upload_has_a_file_url sample_upload_env sample_file).
  vm_compute. reflexivity.
Defined.


(** ** Further properties: math in text *)

Lemma startsWith_dollars (s : list N) :
  startsWith (lit "$$") s = true <-> exists rest, s = 36 :: 36 :: rest.
Proof.
  change (lit "$$") with [36; 36].
  destruct s as [|x [|y t]]; cbn [startsWith].
  - split; [discriminate | intros [? [=]]].
  - rewrite andb_false_r. split; [discriminate | intros [? [=]]].
  - rewrite andb_true_r, andb_true_iff, !N.eqb_eq. split.
    + intros [<- <-]. eauto.
    + intros [? [= <- <-]]. auto.
Qed.

Lemma until_dollars_split (s content rest : list N) :
  until_dollars s = Some (content, rest) ->
  s = content ++ lit "$$" ++ rest
  /\ (length rest < length s)%nat
  /\ includes (lit "$$") (content ++ lit "$") = false.
Proof.
  revert content rest. induction s as [|c s IH]; intros content rest;
    [discriminate|].
  cbn [until_dollars]. destruct (startsWith (lit "$$") (c :: s)) eqn:Hs.
  - intros [= <- <-]. apply startsWith_dollars in Hs as [rest Hs].
    injection Hs as -> ->. repeat split.
    rewrite length_drop. cbn [length]. lia.
  - destruct (until_dollars s) as [[content' rest']|]; [|discriminate].
    intros [= <- <-]. destruct (IH _ _ eq_refl) as (-> & Hlen & Hfree).
    repeat split.
    + cbn [length]. lia.
    + change ((c :: content') ++ lit "$") with (c :: content' ++ lit "$").
      cbn [includes]. rewrite Hfree, orb_false_r.
      apply not_true_is_false. intros Hstart.
      apply startsWith_dollars in Hstart as [t Ht].
      apply not_true_iff_false in Hs. apply Hs.
      apply startsWith_dollars.
      destruct content' as [|d content'].
      * injection Ht as -> _. eexists. reflexivity.
      * injection Ht as -> -> _. eexists. reflexivity.
Qed.

Lemma displayMathRegex_exec_split (s before content rest : list N) :
  displayMathRegex_exec s = Some (before, content, rest) ->
  s = before ++ lit "$$" ++ content ++ lit "$$" ++ rest
  /\ (length rest < length s)%nat
  /\ includes (lit "$$") (content ++ lit "$") = false.
Proof.
  revert before. induction s as [|c s IH]; intros before; [discriminate|].
  cbn [displayMathRegex_exec].
  destruct (if startsWith (lit "$$") (c :: s)
            then until_dollars (drop 2 (c :: s)) else None)
    as [[content' rest']|] eqn:Hhere.
  - intros [= <- <- <-].
    destruct (startsWith (lit "$$") (c :: s)) eqn:Hs; [|discriminate].
    apply startsWith_dollars in Hs as [t Hs]. injection Hs as -> ->.
    assert (until_dollars t = Some (content', rest')) as Ht by exact Hhere.
    destruct (until_dollars_split _ _ _ Ht) as (-> & Hlen & Hfree).
    repeat split; [cbn [length]; lia | exact Hfree].
  - destruct (displayMathRegex_exec s) as [[[before' content'] rest']|];
      [|discriminate].
    intros [= <- <- <-]. destruct (IH _ eq_refl) as (-> & Hlen & Hfree).
    repeat split; [cbn [length]; lia | exact Hfree].
Qed.

Lemma until_dollar_split (s content rest : list N) :
  until_dollar s = Some (content, rest) ->
  s = content ++ lit "$" ++ rest
  /\ Forall (fun c => c <> 36 /\ is_line_terminator c = false) content.
Proof.
  revert content rest. induction s as [|c s IH]; intros content rest;
    [discriminate|].
  cbn [until_dollar]. destruct (N.eqb_spec c 36) as [->|Hc].
  - intros [= <- <-]. split; [reflexivity | constructor].
  - destruct (is_line_terminator c) eqn:Ht; [discriminate|].
    destruct (until_dollar s) as [[content' rest']|]; [|discriminate].
    intros [= <- <-]. destruct (IH _ _ eq_refl) as (-> & Hfree).
    split; [reflexivity|]. constructor; [split; assumption | exact Hfree].
Qed.

Lemma inlineMathRegex_exec_split (s before content rest : list N) :
  inlineMathRegex_exec s = Some (before, content, rest) ->
  s = before ++ lit "$" ++ content ++ lit "$" ++ rest
  /\ (length rest < length s)%nat
  /\ Forall (fun c => c <> 36 /\ is_line_terminator c = false) content.
Proof.
  revert before. induction s as [|c s IH]; intros before; [discriminate|].
  cbn [inlineMathRegex_exec].
  destruct (if c =? 36 then until_dollar s else None)
    as [[content' rest']|] eqn:Hhere.
  - intros [= <- <- <-].
    destruct (N.eqb_spec c 36) as [->|]; [|discriminate].
    destruct (until_dollar_split _ _ _ Hhere) as (-> & Hfree).
    repeat split; [|exact Hfree].
    change (lit "$" ++ rest') with (36 :: rest').
    cbn [length]. rewrite length_app. cbn [length]. lia.
  - destruct (inlineMathRegex_exec s) as [[[before' content'] rest']|];
      [|discriminate].
    intros [= <- <- <-]. destruct (IH _ eq_refl) as (-> & Hlen & Hfree).
    repeat split; [cbn [length]; lia | exact Hfree].
Qed.

Lemma text_part_concat {P : Type} (mk : list N -> P) (f : P -> list N)
    (s : list N) :
  (forall t, f (mk t) = t) -> concat (map f (text_part mk s)) = s.
Proof.
  intros Hf. unfold text_part. destruct s as [|c s]; [reflexivity|].
  cbn. rewrite Hf, app_nil_r. reflexivity.
Qed.

(** The length of the text is fuel enough for the loops. *)
Lemma display_loop_fuel (n : nat) (s : list N) :
  (length s <= n)%nat -> display_loop n s = display_loop (length s) s.
Proof.
  revert s. induction (lt_wf n) as [n _ IH]. intros s Hn.
  destruct n as [|n].
  - destruct s; [reflexivity | cbn in Hn; lia].
  - destruct s as [|c s]; [reflexivity|].
    cbn [length display_loop].
    destruct (displayMathRegex_exec (c :: s)) as [[[before content] rest]|]
      eqn:Hexec; [|reflexivity].
    apply displayMathRegex_exec_split in Hexec as (_ & Hlen & _).
    cbn [length] in Hlen, Hn.
    rewrite (IH n) by lia. rewrite (IH (length s)) by lia. reflexivity.
Qed.

Section MathTextLemmas.
Variable renderToString : bool -> list N -> option (list N).

Lemma inline_loop_fuel (n : nat) (s : list N) :
  (length s <= n)%nat ->
  inline_loop renderToString n s = inline_loop renderToString (length s) s.
Proof.
  revert s. induction (lt_wf n) as [n _ IH]. intros s Hn.
  destruct n as [|n].
  - destruct s; [reflexivity | cbn in Hn; lia].
  - destruct s as [|c s]; [reflexivity|].
    cbn [length inline_loop].
    destruct (inlineMathRegex_exec (c :: s)) as [[[before content] rest]|]
      eqn:Hexec; [|reflexivity].
    apply inlineMathRegex_exec_split in Hexec as (_ & Hlen & _).
    cbn [length] in Hlen, Hn.
    rewrite (IH n) by lia. rewrite (IH (length s)) by lia. reflexivity.
Qed.

Lemma source_of_render_math (display : bool) (content : list N) :
  source_of (render_math renderToString display content)
    = if display then lit "$$" ++ content ++ lit "$$"
      else lit "$" ++ content ++ lit "$".
Proof.
  unfold render_math. destruct (renderToString display content);
    destruct display; reflexivity.
Qed.

Lemma inline_loop_source (n : nat) (s : list N) :
  concat (map source_of (inline_loop renderToString n s)) = s.
Proof.
  revert s. induction n as [|n IH]; intros s; cbn [inline_loop].
  - apply text_part_concat. reflexivity.
  - destruct (inlineMathRegex_exec s) as [[[before content] rest]|] eqn:Hexec.
    + apply inlineMathRegex_exec_split in Hexec as (-> & _ & _).
      rewrite map_app, concat_app, text_part_concat by reflexivity.
      cbn [map concat]. rewrite source_of_render_math, IH.
      rewrite <- !app_assoc. reflexivity.
    + apply text_part_concat. reflexivity.
Qed.

Lemma display_loop_source (n : nat) (s : list N) :
  concat (map source_of
            (concat (map (final_parts renderToString) (display_loop n s))))
    = s.
Proof.
  revert s. induction n as [|n IH]; intros s; cbn [display_loop].
  - unfold text_part. destruct s as [|c s]; [reflexivity|].
    cbn [nonempty map concat final_parts]. rewrite app_nil_r.
    apply inline_loop_source.
  - destruct (displayMathRegex_exec s) as [[[before content] rest]|]
      eqn:Hexec.
    + apply displayMathRegex_exec_split in Hexec as (-> & _ & _).
      rewrite map_app, concat_app, map_app, concat_app.
      cbn [map concat final_parts]. rewrite map_app, concat_app.
      cbn [map concat]. rewrite source_of_render_math, IH.
      assert (concat (map source_of
                (concat (map (final_parts renderToString)
                           (text_part TextPart before)))) = before) as ->.
      { unfold text_part. destruct before as [|c before]; [reflexivity|].
        cbn [nonempty map concat final_parts]. rewrite app_nil_r.
        apply inline_loop_source. }
      rewrite app_nil_r, <- !app_assoc. reflexivity.
    + unfold text_part. destruct s as [|c s]; [reflexivity|].
      cbn [nonempty map concat final_parts]. rewrite app_nil_r.
      apply inline_loop_source.
Qed.

Lemma well_delimited_render_math (display : bool) (content : list N) :
  (if display then includes (lit "$$") (content ++ lit "$") = false
   else Forall (fun c => c <> 36 /\ is_line_terminator c = false) content) ->
  well_delimited (render_math renderToString display content).
Proof.
  unfold render_math. destruct (renderToString display content);
    destruct display; cbn [well_delimited]; auto.
Qed.

Lemma inline_loop_well_delimited (n : nat) (s : list N) :
  Forall well_delimited (inline_loop renderToString n s).
Proof.
  revert s. induction n as [|n IH]; intros s; cbn [inline_loop].
  - unfold text_part. destruct (nonempty s); repeat constructor.
  - destruct (inlineMathRegex_exec s) as [[[before content] rest]|] eqn:Hexec.
    + apply inlineMathRegex_exec_split in Hexec as (_ & _ & Hfree).
      apply Forall_app. split.
      * unfold text_part. destruct (nonempty before); repeat constructor.
      * constructor; [apply well_delimited_render_math; exact Hfree | apply IH].
    + unfold text_part. destruct (nonempty s); repeat constructor.
Qed.

Lemma display_loop_well_delimited (n : nat) (s : list N) :
  Forall well_delimited
    (concat (map (final_parts renderToString) (display_loop n s))).
Proof.
  assert (forall t, Forall well_delimited
            (concat (map (final_parts renderToString)
                       (text_part TextPart t)))) as Htext.
  { intros t. unfold text_part. destruct (nonempty t); [|constructor].
    cbn [map concat final_parts]. rewrite app_nil_r.
    apply inline_loop_well_delimited. }
  revert s. induction n as [|n IH]; intros s; cbn [display_loop].
  - apply Htext.
  - destruct (displayMathRegex_exec s) as [[[before content] rest]|]
      eqn:Hexec; [|apply Htext].
    apply displayMathRegex_exec_split in Hexec as (_ & _ & Hfree).
    rewrite map_app, concat_app. apply Forall_app. split; [apply Htext|].
    cbn [map concat final_parts]. constructor; [|apply IH].
    apply well_delimited_render_math. exact Hfree.
Qed.

End MathTextLemmas.

(** X29. [MathText] loses nothing of its text: the parts it computes,
    each read back as its source (a formula between its delimiters),
    make up the text again, in order and without a gap, for every text
    and however KaTeX behaves, also when it throws. *)
Theorem math_parts_make_up_the_text
    (renderToString : bool -> list N -> option (list N)) (text : list N) :
  concat (map source_of (processedText renderToString text)) = text.
Proof. apply display_loop_source. Qed.

(** X30. Formulas are cut at their first closing delimiter: the content
    of a display formula holds no [$$] and does not end with [$], the
    content of an inline formula holds no [$] and no line terminator, so
    that an inline formula never spans lines. A text without any [$] is
    one text part, the text itself. *)
Theorem formulas_end_at_the_first_delimiter
    (renderToString : bool -> list N -> option (list N)) (text : list N) :
  Forall well_delimited (processedText renderToString text)
  /\ (36 ∉ text ->
      processedText renderToString text = text_part FinalText text).
Proof.
  split; [apply display_loop_well_delimited|].
  intros Hplain.
  assert (forall s, 36 ∉ s -> displayMathRegex_exec s = None) as Hdisplay.
  { induction s as [|c s IH]; [reflexivity|]. intros Hs.
    apply not_elem_of_cons in Hs as [Hc Hs]. cbn [displayMathRegex_exec].
    rewrite (IH Hs).
    destruct (startsWith (lit "$$") (c :: s)) eqn:Hstart; [|reflexivity].
    apply startsWith_dollars in Hstart as [t [= -> _]]. congruence. }
  assert (forall s, 36 ∉ s -> inlineMathRegex_exec s = None) as Hinline.
  { induction s as [|c s IH]; [reflexivity|]. intros Hs.
    apply not_elem_of_cons in Hs as [Hc Hs]. cbn [inlineMathRegex_exec].
    rewrite (IH Hs). destruct (N.eqb_spec c 36); [congruence | reflexivity]. }
  unfold processedText. destruct text as [|c text]; [reflexivity|].
  cbn [length display_loop]. rewrite (Hdisplay _ Hplain).
  cbn [text_part nonempty map concat final_parts length inline_loop].
  rewrite (Hinline _ Hplain), app_nil_r. reflexivity.
Qed.

Example math_text_sample :
  processedText echo_katex (lit "a $x$ b $$y$$ c $")
    = [ FinalText (lit "a "); FinalMath (lit "x") false (lit "x");
        FinalText (lit " b "); FinalMath (lit "y") true (lit "y");
        FinalText (lit " c $") ]
  /\ processedText echo_katex (lit "$$$")
     = [ FinalMath [] false []; FinalText (lit "$") ]
  /\ processedText (fun _ _ => None) (lit "$$a" ++ newline ++ lit "b$$")
     = [ FinalText (lit "$$a" ++ newline ++ lit "b$$") ]
  /\ processedText echo_katex (lit "$a" ++ newline ++ lit "b$")
     = [ FinalText (lit "$a" ++ newline ++ lit "b$") ].
Proof. vm_compute. repeat split. Qed.

(** ** Further samples, evaluated *)

Example validateEmail_samples :
  validateEmail (lit "ada@example.org") = true
  /\ validateEmail (lit "ada@example") = false
  /\ validateEmail (lit "ada lovelace@example.org") = false
  /\ validateEmail (lit "ada@math@example.org") = false
  /\ validateEmail (lit "@example.org") = false
  /\ validateEmail (lit "ada@example.") = false
  /\ validateEmail (lit "a@b..") = true.
Proof. vm_compute. repeat split. Qed.

Example sample_account_session :
  let ada := {| email := lit "ada@example.org";
                userId := lit "user_1700000000000_k3j9x0a1b";
                isPremium := false; createdAt := 1700000000000 |} in
  let premium_ada := {| email := lit "ada@example.org";
                        userId := lit "user_1700000000000_k3j9x0a1b";
                        isPremium := true; createdAt := 1700000000000 |} in
  let registered := handleRegister sample_form no_accounts sample_registration in
  let logged_in := handleAuthSuccess ada initial_state (items registered) in
  let upgraded := handlePremiumUpgrade logged_in.1 logged_in.2 in
  let logged_out := handleLogout upgraded.1 upgraded.2 in
  authenticated registered = Some ada
  /\ load_session logged_in.2 (localStorage logged_in.1)
     = (Some ada, {| sub_isPremium := false |})
  /\ load_session upgraded.2 (localStorage upgraded.1)
     = (Some premium_ada, {| sub_isPremium := true |})
  /\ load_session logged_out.2 (localStorage logged_out.1)
     = (None, {| sub_isPremium := false |})
  /\ authenticated (handleLogin sample_form logged_out.2) = Some premium_ada
  /\ auth_error
       (dialog (handleRegister sample_form logged_out.2 sample_registration))
     = msg_exists.
Proof. vm_compute. repeat split. Qed.

Example upload_status_is_reported :
  uploadFile
    {| presign := presign sample_upload_env;
       put := fun _ _ => FetchResponse false 403 (lit "Forbidden") |}
    sample_file
  = ([ CallPresign {| req_fileName := lit "notes.txt";
                      req_contentType := lit "text/plain" |};
       CallPut (lit "https://s3.example/put/notes.txt") (lit "text/plain") ],
     Rejected (ErrorObject
                 (lit "S3 upload failed with status 403: Forbidden"))).
Proof. vm_compute. reflexivity. Qed.

Example upload_limits_samples :
  load_upload_limits (lit "Tue Nov 14 2023")
    {[ UPLOAD_LIMIT_KEY := StoredLimits (lit "Tue Nov 14 2023") 2 ]}
  = (2%Z, {[ UPLOAD_LIMIT_KEY := StoredLimits (lit "Tue Nov 14 2023") 2 ]})
  /\ load_upload_limits (lit "Wed Nov 15 2023")
       {[ UPLOAD_LIMIT_KEY := StoredLimits (lit "Tue Nov 14 2023") 2 ]}
     = (0%Z, {[ UPLOAD_LIMIT_KEY := StoredLimits (lit "Wed Nov 15 2023") 0 ]})
  /\ load_upload_limits (lit "Wed Nov 15 2023") ∅ = (0%Z, ∅).
Proof.
  unfold load_upload_limits. rewrite !lookup_singleton_eq, lookup_empty.
  rewrite decide_True by reflexivity.
  rewrite decide_False by (vm_compute; discriminate).
  rewrite insert_singleton_eq. repeat split.
Qed.
